(** * contest-gen: recording a test case into a recipe

    A shallow embedding of the two recording implementations of the
    repository,

    - [src/contest-gen.py]         (standalone, module [Standalone]),
    - [src/contestgen/runner.py]   (modularized, module [Runner]),

    over a model of what they call into: Python values and their dynamic
    operations, a directory tree with POSIX path strings, [shutil.move], a
    child process described by what it leaves behind, and the YAML library.
    Python exceptions are explicit: every operation returns either a value
    or the exception it raises. *)

From Stdlib Require Import String Ascii ZArith List Lia Permutation DecimalString.
From Stdlib Require DecimalZ DecimalPos.
From stdpp Require Import base option list strings gmap sets.
Import ListNotations.
Local Open Scope string_scope.
Local Open Scope list_scope.
Set Warnings "-register-all,-notation-for-abbreviation".

(** ** Exceptions and results *)

Inductive exn :=
| KeyError (key : string)
| TypeError
| IndexError
| RecursionError
| EOFError
| FileNotFoundError (path : string)
| IsADirectoryError (path : string)
| NotADirectoryError (path : string)
| ShutilError (path : string)      (* shutil.Error: destination already exists *)
| ConstructorError (tag : string)  (* yaml.constructor.ConstructorError *)
| YAMLError                        (* any other failure of the YAML reader *)
| OSError (msg : string).

(** [inl e] is "raises e", [inr a] is "evaluates to a". *)
Definition res (A : Type) : Type := exn + A.

Definition raise {A} (e : exn) : res A := inl e.

#[global] Instance res_ret : MRet res := fun _ a => inr a.
#[global] Instance res_bind : MBind res := fun _ _ f m =>
  match m with
  | inl e => inl e
  | inr a => f a
  end.

(** ** Python values, as they occur in a recipe document

    A mapping is an [OrderedDict]: an association list in insertion order.
    The keys the recorder reads and writes are all strings. *)

Inductive value :=
| PNone
| PBool (b : bool)
| PInt (z : Z)
| PStr (s : string)
| PList (items : list value)
| PDict (items : list (string * value)).

Definition odict := list (string * value).

Section OrderedDict.
Context {V : Type}.

(** [d[k]] *)
Fixpoint od_get (k : string) (d : list (string * V)) : option V :=
  match d with
  | [] => None
  | (k', v) :: d' => if String.eqb k k' then Some v else od_get k d'
  end.

(** [k in d] *)
Definition od_mem (k : string) (d : list (string * V)) : bool :=
  match od_get k d with Some _ => true | None => false end.

(** [d[k] = v]: an existing key keeps its position, a new key goes last. *)
Fixpoint od_set (k : string) (v : V) (d : list (string * V)) : list (string * V) :=
  match d with
  | [] => [(k, v)]
  | (k', v') :: d' =>
      if String.eqb k k' then (k', v) :: d' else (k', v') :: od_set k v d'
  end.

(** [del d[k]], every entry of that name. *)
Definition od_del (k : string) (d : list (string * V)) : list (string * V) :=
  List.filter (fun kv => negb (String.eqb k (fst kv))) d.
End OrderedDict.

(** Python truthiness of the values the recorder tests with [if x:]. *)
Definition truthy_str (s : string) : bool :=
  match s with EmptyString => false | _ => true end.
Definition truthy_list {A} (l : list A) : bool :=
  match l with [] => false | _ => true end.

(** [o[k]] for a string subscript [k]. *)
Definition getitem (o : value) (k : string) : res value :=
  match o with
  | PDict d => match od_get k d with
               | Some v => inr v
               | None => raise (KeyError k)
               end
  | _ => raise TypeError
  end.

(** [k in o] for a string [k]. *)
Fixpoint substring_at (k s : string) : bool :=
  String.prefix k s ||
  match s with
  | EmptyString => false
  | String _ s' => substring_at k s'
  end.

Definition is_str (k : string) (v : value) : bool :=
  match v with PStr s => String.eqb s k | _ => false end.

Definition contains (k : string) (o : value) : res bool :=
  match o with
  | PDict d => inr (od_mem k d)
  | PList l => inr (existsb (is_str k) l)
  | PStr s => inr (substring_at k s)
  | _ => raise TypeError
  end.

(** [o[k] = v] for a string subscript [k]; the result is [o] after the
    assignment. *)
Definition setitem (o : value) (k : string) (v : value) : res value :=
  match o with
  | PDict d => inr (PDict (od_set k v d))
  | _ => raise TypeError
  end.

(** Python objects are shared: [test_case] is the very dictionary stored in
    [test_matrix['test-cases'][test_name]], and what is assigned through
    [test_case] is seen through [test_matrix]. An object reached from the
    root document by the subscripts [ks] is updated in place, leaving every
    key on the way at its position. *)
Fixpoint modify_at (ks : list string) (f : value -> res value) (o : value) : res value :=
  match ks with
  | [] => f o
  | k :: ks' =>
      c ← getitem o k;
      c' ← modify_at ks' f c;
      setitem o k c'
  end.

Fixpoint get_at (ks : list string) (o : value) : res value :=
  match ks with
  | [] => inr o
  | k :: ks' => c ← getitem o k; get_at ks' c
  end.

(** [l.append(v)] and an update of [l[-1]]. *)
Definition list_append (v : value) (o : value) : res value :=
  match o with
  | PList l => inr (PList (l ++ [v]))
  | _ => raise TypeError
  end.

Fixpoint modify_last (f : value -> res value) (l : list value) : res (list value) :=
  match l with
  | [] => raise IndexError
  | [x] => x' ← f x; mret [x']
  | x :: l' => l'' ← modify_last f l'; mret (x :: l'')
  end.

Definition list_modify_last (f : value -> res value) (o : value) : res value :=
  match o with
  | PList l => l' ← modify_last f l; mret (PList l')
  | _ => raise TypeError
  end.

(** ** The working directory

    A tree of regular files and directories; a directory lists its entries
    in the order [os.listdir] reports them. A path is resolved from the
    working directory, one component at a time; a name is looked up by its
    first entry. *)

Inductive node :=
| File (content : string)
| Dir (entries : list (string * node)).

Fixpoint walk (n : node) (cs : list string) : option node :=
  match cs with
  | [] => Some n
  | c :: cs' =>
      match n with
      | Dir es => match od_get c es with
                  | Some m => walk m cs'
                  | None => None
                  end
      | File _ => None
      end
  end.

(** Replace the listing of the directory at [cs]; [None] when [cs] is not a
    directory. *)
Fixpoint update_dir (cs : list string)
    (f : list (string * node) -> list (string * node)) (n : node) : option node :=
  match n with
  | File _ => None
  | Dir es =>
      match cs with
      | [] => Some (Dir (f es))
      | c :: cs' =>
          match od_get c es with
          | Some m => match update_dir cs' f m with
                      | Some m' => Some (Dir (od_set c m' es))
                      | None => None
                      end
          | None => None
          end
      end
  end.

(** The last component of a path and what comes before it. *)
Fixpoint unsnoc {A} (l : list A) : option (list A * A) :=
  match l with
  | [] => None
  | [x] => Some ([], x)
  | x :: l' => match unsnoc l' with
               | Some (d, y) => Some (x :: d, y)
               | None => None
               end
  end.

Fixpoint height (n : node) : nat :=
  match n with
  | File _ => 0
  | Dir es => S (fold_right (fun kv h => Nat.max (height (snd kv)) h) 0%nat es)
  end.

(** *** Path strings (posixpath) *)

Definition slash : ascii := "/"%char.

Definition starts_with_slash (s : string) : bool :=
  match s with
  | String c _ => Ascii.eqb c slash
  | EmptyString => false
  end.

Fixpoint ends_with_slash (s : string) : bool :=
  match s with
  | EmptyString => false
  | String c EmptyString => Ascii.eqb c slash
  | String _ s' => ends_with_slash s'
  end.

(** [os.path.join(a, b)] *)
Definition os_path_join (a b : string) : string :=
  if starts_with_slash b then b
  else if truthy_str a && negb (ends_with_slash a) then a ++ "/" ++ b
  else a ++ b.

(** The text cut at every slash. *)
Fixpoint split_slash (s : string) : list string :=
  match s with
  | EmptyString => [EmptyString]
  | String c s' =>
      if Ascii.eqb c slash then EmptyString :: split_slash s'
      else match split_slash s' with
           | x :: xs => String c x :: xs
           | [] => [String c EmptyString]
           end
  end.

Fixpoint all_slashes (s : string) : bool :=
  match s with
  | EmptyString => true
  | String c s' => Ascii.eqb c slash && all_slashes s'
  end.

(** [s.rstrip('/')] *)
Fixpoint rstrip_slash (s : string) : string :=
  match s with
  | EmptyString => EmptyString
  | String c s' =>
      if all_slashes (String c s') then EmptyString else String c (rstrip_slash s')
  end.

(** [p[:i], p[i:]] for [i = p.rfind('/') + 1] *)
Fixpoint cut_last_slash (p : string) : string * string :=
  match p with
  | EmptyString => (EmptyString, EmptyString)
  | String c p' =>
      let (h, t) := cut_last_slash p' in
      if truthy_str h then (String c h, t)
      else if Ascii.eqb c slash then (String c EmptyString, t)
      else (EmptyString, String c t)
  end.

(** [os.path.split(p)] *)
Definition os_path_split (p : string) : string * string :=
  let (head, tail) := cut_last_slash p in
  if truthy_str head && negb (all_slashes head) then (rstrip_slash head, tail)
  else (head, tail).

(** The components the kernel follows: empty components and [.] are
    skipped. The tree is the one under the working directory, so [..] and a
    leading slash are not interpreted: [..] is a name no directory lists. *)
Definition skipped (c : string) : bool :=
  String.eqb c "" || String.eqb c ".".

Definition components (p : string) : list string :=
  List.filter (fun c => negb (skipped c)) (split_slash p).

Definition lookup_path (fs : node) (p : string) : option node :=
  walk fs (components p).

Definition os_path_exists (fs : node) (p : string) : bool :=
  match lookup_path fs p with Some _ => true | None => false end.

Definition os_path_isfile (fs : node) (p : string) : bool :=
  match lookup_path fs p with Some (File _) => true | _ => false end.

Definition os_path_isdir (fs : node) (p : string) : bool :=
  match lookup_path fs p with Some (Dir _) => true | _ => false end.

Definition os_listdir (fs : node) (p : string) : res (list string) :=
  match lookup_path fs p with
  | Some (Dir es) => inr (map fst es)
  | Some (File _) => raise (NotADirectoryError p)
  | None => raise (FileNotFoundError p)
  end.

(** [open(p, 'r').read()] *)
Definition read_file (fs : node) (p : string) : res string :=
  match lookup_path fs p with
  | Some (File c) => inr c
  | Some (Dir _) => raise (IsADirectoryError p)
  | None => raise (FileNotFoundError p)
  end.

(** [open(p, 'w')], the text written, and the close: the file is created or
    truncated; the directory it goes into has to exist. *)
Definition write_file (fs : node) (p : string) (text : string) : res node :=
  match unsnoc (components p) with
  | None => raise (IsADirectoryError p)
  | Some (d, name) =>
      match walk fs (d ++ [name]) with
      | Some (Dir _) => raise (IsADirectoryError p)
      | _ => match update_dir d (od_set name (File text)) fs with
             | Some fs' => inr fs'
             | None => raise (FileNotFoundError p)
             end
      end
  end.

(** [os.rename(src, dst)] where [dst] is not a directory: the node at [src]
    leaves its directory and takes the name [dst], replacing a file that
    has this name. *)
Definition os_rename (fs : node) (src dst : string) : res node :=
  match unsnoc (components src), unsnoc (components dst) with
  | Some (sd, sname), Some (dd, dname) =>
      match walk fs (sd ++ [sname]) with
      | None => raise (FileNotFoundError src)
      | Some m =>
          match m, walk fs (dd ++ [dname]) with
          | _, Some (Dir _) => raise (IsADirectoryError dst)
          | Dir _, Some (File _) => raise (NotADirectoryError dst)
          | _, _ =>
              match update_dir sd (od_del sname) fs with
              | None => raise (FileNotFoundError src)
              | Some fs1 =>
                  match update_dir dd (od_set dname m) fs1 with
                  | Some fs2 => inr fs2
                  | None => raise (FileNotFoundError dst)
                  end
              end
          end
      end
  | _, _ => raise (OSError "rename of the working directory")
  end.

(** [os.path.basename(src.rstrip('/'))], as [shutil.move] takes it. *)
Definition basename (p : string) : string :=
  snd (os_path_split (rstrip_slash p)).

(** [shutil.move(src, dst)]: into [dst] when that is a directory (refused
    when the name is taken there), onto [dst] otherwise. When [os.rename]
    raises, [shutil.move] copies and unlinks instead; within one tree and
    for a source that is a regular file or is missing, the copy raises
    where the rename did, so the result of the rename is the result. *)
Definition shutil_move (fs : node) (src dst : string) : res node :=
  if os_path_isdir fs dst then
    let real_dst := os_path_join dst (basename src) in
    if os_path_exists fs real_dst then raise (ShutilError real_dst)
    else os_rename fs src real_dst
  else os_rename fs src dst.

(** ** State and exceptions

    The recorder runs against the working directory: a computation takes the
    tree and gives back what it evaluates to (or raises) and the tree it
    leaves. *)

Definition Py (A : Type) : Type := node -> res A * node.

#[global] Instance Py_ret : MRet Py := fun _ a fs => (inr a, fs).
#[global] Instance Py_bind : MBind Py := fun _ _ f m fs =>
  match m fs with
  | (inl e, fs') => (inl e, fs')
  | (inr a, fs') => f a fs'
  end.

(** A step that only computes. *)
Definition pure {A} (r : res A) : Py A := fun fs => (r, fs).
(** A step that reads the tree. *)
Definition reads {A} (f : node -> res A) : Py A := fun fs => (f fs, fs).
(** A step that changes the tree; nothing changes when it raises. *)
Definition writes (f : node -> res node) : Py unit := fun fs =>
  match f fs with
  | inl e => (inl e, fs)
  | inr fs' => (inr tt, fs')
  end.

(** ** The child process and the operator

    [Popen(command, ...)] followed by [communicate()] is described by what
    the run leaves behind. [alive k] tells whether the [k]-th call of
    [poll()] still finds the process running. *)

Record Run := {
  returncode : Z;
  stdout : string;
  stderr : string;
  fs_after : node;
  alive : nat -> bool
}.

Record Env := {
  (** the command and the tree it starts in; an exception when the
      executable cannot be started *)
  popen : list string -> node -> res Run;
  (** the lines the operator types while the child runs *)
  console : list string;
  (** the order in which a [set] of paths is iterated *)
  set_iter : gset string -> list string
}.

Definition Popen (env : Env) (command : list string) : Py Run := fun fs =>
  match popen env command fs with
  | inl e => (inl e, fs)
  | inr p => (inr p, fs_after p)
  end.

(** ** RecorderPipe (the same class in both files)

    [lines] is the buffer; [wpipe_open] is [self.wpipe is not None];
    [channel] is the text written into the pipe so far. *)

Definition newline : string := String (ascii_of_nat 10) EmptyString.

Record RecorderPipe := {
  lines : list string;
  wpipe_open : bool;
  channel : string
}.

Definition RecorderPipe_init : RecorderPipe :=
  {| lines := []; wpipe_open := true; channel := "" |}.

Definition wpipe_write (text : string) (self : RecorderPipe) : RecorderPipe :=
  {| lines := lines self; wpipe_open := wpipe_open self; channel := channel self ++ text |}.

Definition lines_append (s : string) (self : RecorderPipe) : RecorderPipe :=
  {| lines := lines self ++ [s]; wpipe_open := wpipe_open self; channel := channel self |}.

Definition close (self : RecorderPipe) : RecorderPipe :=
  {| lines := lines self; wpipe_open := false; channel := channel self |}.

(** [check]: [running] is [self.process.poll() is None]. *)
Definition check (running : bool) (self : RecorderPipe) : RecorderPipe :=
  if running then self else close self.

(** How the thread ends: the loop condition fails, or [input()] has no
    further line to return (the thread stays parked in it, or dies of
    [EOFError]). *)
Inductive thread_end := LoopExit | InputExhausted.

(** [run], from the point where [self.process] is set; [k] counts the calls
    of [poll()] made so far. *)
Fixpoint run (input : list string) (running : nat -> bool) (k : nat)
    (self : RecorderPipe) : RecorderPipe * thread_end :=
  if wpipe_open self && running k then
    match input with
    | [] => (self, InputExhausted)
    | s :: input' =>
        let self := wpipe_write (s ++ newline) self in
        let self := lines_append s self in
        let self := check (running (S k)) self in
        run input' running (S (S k)) self
    end
  else (self, LoopExit).

(** ** get_files (the same function in both files) *)

Fixpoint get_files (fuel : nat) (fs : node) (root : string) : res (list string) :=
  match fuel with
  | O => raise RecursionError
  | S fuel' =>
      els ← os_listdir fs root;
      (fix loop (els : list string) (files : list string) : res (list string) :=
         match els with
         | [] => inr files
         | el :: els' =>
             let full_path := os_path_join root el in
             if os_path_isfile fs full_path then loop els' (files ++ [full_path])
             else
               sub ← get_files fuel' fs full_path;
               loop els' (files ++ sub)
         end) els []
  end.

(** The recursion is as deep as the tree. *)
Definition snapshot (fs : node) : res (gset string) :=
  files ← get_files (S (height fs)) fs ".";
  mret (list_to_set files).

(** What [record_test] returns. *)
Inductive retval :=
| Ret0
| RetMsg (msg : string).

Definition duplicate_message (test_name : string) : string :=
  test_name ++ " is already a test case! Choose a new name!".

(** [command[0]] *)
Definition command0 (command : list string) : res string :=
  match command with
  | [] => raise IndexError
  | c :: _ => inr c
  end.

(** [command[1:]] *)
Definition command_tail (command : list string) : list string :=
  match command with
  | [] => []
  | _ :: argv => argv
  end.

Definition strs (l : list string) : value := PList (map PStr l).

(** ** contestgen/runner.py *)

Module Runner.
Section record_test.
(** [yaml.load(., Loader=DefaultLoader)] and [yaml.dump], as
    [contestgen.utilities.configure_yaml] leaves them. *)
Variable yaml_load : string -> res value.
Variable yaml_dump : value -> string.
Variable env : Env.

(** [test_case[key] = v], through the document that holds the test case *)
Definition test_case_set (test_name key : string) (v : value) (test_matrix : value)
    : res value :=
  modify_at ["test-cases"; test_name] (fun test_case => setitem test_case key v)
    test_matrix.

(** lines 141-147, over the files in the order the set yields them *)
Fixpoint move_new_files (test_name : string) (new_files : list string)
    (test_matrix : value) : Py value :=
  match new_files with
  | [] => mret test_matrix
  | new_file :: rest =>
      let (dir_name, file_name) := os_path_split new_file in
      let base_file := os_path_join dir_name ("contest_" ++ file_name) in
      _ ← writes (fun fs => shutil_move fs new_file base_file);
      test_matrix ← pure (modify_at ["test-cases"; test_name; "ofstreams"]
                             (list_append (PDict [])) test_matrix);
      test_matrix ← pure (modify_at ["test-cases"; test_name; "ofstreams"]
                             (list_modify_last (fun d => setitem d "base-file" (PStr base_file)))
                             test_matrix);
      test_matrix ← pure (modify_at ["test-cases"; test_name; "ofstreams"]
                             (list_modify_last (fun d => setitem d "test-file" (PStr new_file)))
                             test_matrix);
      move_new_files test_name rest test_matrix
  end.

(** lines 111-125: the document with an empty test case under
    [test_name], or the message of the early return *)
Definition open_recipe (configuration test_name : string) (command : list string)
    : Py (string + value) :=
  present ← reads (fun fs => inr (os_path_exists fs configuration));
  if (present : bool) then
    text ← reads (fun fs => read_file fs configuration);
    test_matrix ← pure (yaml_load text);
    test_cases ← pure (getitem test_matrix "test-cases");
    dup ← pure (contains test_name test_cases);
    if (dup : bool) then mret (inl (duplicate_message test_name))
    else
      test_matrix ← pure (modify_at ["test-cases"]
                             (fun tcs => setitem tcs test_name (PDict [])) test_matrix);
      exe ← pure (command0 command);
      default ← pure (getitem test_matrix "executable");
      if negb (is_str exe default) then
        test_matrix ← pure (test_case_set test_name "executable" (PStr exe) test_matrix);
        mret (inr test_matrix)
      else mret (inr test_matrix)
  else
    test_matrix ← pure (inr (PDict []));
    exe ← pure (command0 command);
    test_matrix ← pure (setitem test_matrix "executable" (PStr exe));
    test_matrix ← pure (setitem test_matrix "test-cases" (PDict []));
    test_matrix ← pure (modify_at ["test-cases"]
                           (fun tcs => setitem tcs test_name (PDict [])) test_matrix);
    mret (inr test_matrix).

(** lines 127-147: the fields of the test case, and the moves *)
Definition fill_test_case (test_name : string) (command : list string) (proc : Run)
    (recorder_pipe : RecorderPipe) (new_files : gset string) (test_matrix : value)
    : Py value :=
  test_matrix ← pure (test_case_set test_name "return-code" (PInt (returncode proc))
                         test_matrix);
  let argv := command_tail command in
  test_matrix ← pure (if truthy_list argv
                      then test_case_set test_name "argv" (strs (command_tail command))
                             test_matrix
                      else inr test_matrix);
  test_matrix ← pure (if truthy_list (lines recorder_pipe)
                      then test_case_set test_name "stdin"
                             (PStr (String.concat newline (lines recorder_pipe)))
                             test_matrix
                      else inr test_matrix);
  test_matrix ← pure (if truthy_str (stdout proc)
                      then test_case_set test_name "stdout" (PStr (stdout proc)) test_matrix
                      else inr test_matrix);
  test_matrix ← pure (if truthy_str (stderr proc)
                      then test_case_set test_name "stderr" (PStr (stderr proc)) test_matrix
                      else inr test_matrix);
  if bool_decide (new_files ≠ ∅) then
    test_matrix ← pure (test_case_set test_name "ofstreams" (PList []) test_matrix);
    move_new_files test_name (set_iter env new_files) test_matrix
  else mret test_matrix.

(** lines 99-147: the document that is about to be written, or the
    message of the early return *)
Definition document (configuration test_name : string) (command : list string)
    : Py (string + value) :=
  let recorder_pipe := RecorderPipe_init in
  files ← reads snapshot;
  proc ← Popen env command;
  let recorder_pipe := fst (run (console env) (alive proc) 0 recorder_pipe) in
  after ← reads snapshot;
  let new_files : gset string := after ∖ files in
  recipe ← open_recipe configuration test_name command;
  match recipe with
  | inl message => mret (inl message)
  | inr test_matrix =>
      test_matrix ← fill_test_case test_name command proc recorder_pipe new_files
                      test_matrix;
      mret (inr test_matrix)
  end.

(** lines 99-151 *)
Definition record_test (configuration test_name : string) (command : list string)
    : Py retval :=
  recipe ← document configuration test_name command;
  match recipe with
  | inl message => mret (RetMsg message)
  | inr test_matrix =>
      _ ← writes (fun fs => write_file fs configuration (yaml_dump test_matrix));
      mret Ret0
  end.
End record_test.
End Runner.

(** ** The YAML library, between text and Python values

    PyYAML reads a text into a graph of tagged nodes and constructs the
    Python value from the graph by the tag of each node; it dumps a value by
    representing it as a graph and emitting that. The text layer
    (scanner, parser, composer, resolver; serializer, emitter) is left
    abstract; the layer of tags is what the two files configure. Scalars are
    covered for null, booleans, decimal integers and strings; keys of a
    mapping are strings. *)

Inductive ynode :=
| ScalarNode (tag : string) (text : string)
| SequenceNode (tag : string) (items : list ynode)
| MappingNode (tag : string) (pairs : list (ynode * ynode)).

Definition node_tag (n : ynode) : string :=
  match n with
  | ScalarNode tag _ | SequenceNode tag _ | MappingNode tag _ => tag
  end.

Definition tag_null : string := "tag:yaml.org,2002:null".
Definition tag_bool : string := "tag:yaml.org,2002:bool".
Definition tag_int : string := "tag:yaml.org,2002:int".
Definition tag_str : string := "tag:yaml.org,2002:str".
Definition tag_seq : string := "tag:yaml.org,2002:seq".
Definition tag_map : string := "tag:yaml.org,2002:map".
Definition tag_ordered_dict : string :=
  "tag:yaml.org,2002:python/object/apply:collections.OrderedDict".

(** Tags [SafeLoader] constructs that this model leaves out. *)
Definition unmodelled_tags : list string :=
  ["tag:yaml.org,2002:float"; "tag:yaml.org,2002:binary";
   "tag:yaml.org,2002:timestamp"; "tag:yaml.org,2002:omap";
   "tag:yaml.org,2002:pairs"; "tag:yaml.org,2002:set"].

(** [SafeConstructor.construct_undefined] for a tag without constructor. *)
Definition construct_undefined {A} (tag : string) : res A :=
  if existsb (String.eqb tag) unmodelled_tags then raise YAMLError
  else raise (ConstructorError tag).

Definition construct_scalar (tag text : string) : res value :=
  if String.eqb tag tag_str then inr (PStr text)
  else if String.eqb tag tag_null then inr PNone
  else if String.eqb tag tag_bool then
    if existsb (String.eqb text) ["true"; "yes"; "on"] then inr (PBool true)
    else if existsb (String.eqb text) ["false"; "no"; "off"] then inr (PBool false)
    else raise YAMLError
  else if String.eqb tag tag_int then
    match DecimalString.NilZero.int_of_string text with
    | Some d => inr (PInt (Z.of_int d))
    | None => raise YAMLError
    end
  else construct_undefined tag.

(** [OrderedDict(pairs)]: a repeated key keeps its first position and its
    last value. *)
Definition OrderedDict (pairs : list (string * value)) : list (string * value) :=
  fold_left (fun d kv => od_set (fst kv) (snd kv) d) pairs [].

Definition as_key (v : value) : res string :=
  match v with
  | PStr s => inr s
  | PList _ | PDict _ => raise TypeError   (* unhashable *)
  | _ => raise YAMLError                   (* a key that is not a string *)
  end.

(** [yaml.load(stream, OrderedLoader)], on the graph: [OrderedLoader] is
    [SafeLoader] with [construct_mapping] of [ordered_load] for the mapping
    tag (contest-gen.py, lines 62-72). *)
Fixpoint construct (n : ynode) : res value :=
  match n with
  | ScalarNode tag text => construct_scalar tag text
  | SequenceNode tag items =>
      if String.eqb tag tag_seq then
        vs ← (fix construct_sequence (l : list ynode) : res (list value) :=
                match l with
                | [] => inr []
                | x :: l' =>
                    v ← construct x;
                    vs ← construct_sequence l';
                    mret (v :: vs)
                end) items;
        mret (PList vs)
      else construct_undefined tag
  | MappingNode tag pairs =>
      if String.eqb tag tag_map then
        ps ← (fix construct_pairs (l : list (ynode * ynode)) : res (list (string * value)) :=
                match l with
                | [] => inr []
                | (key_node, value_node) :: l' =>
                    key ← construct key_node;
                    v ← construct value_node;
                    key ← as_key key;
                    ps ← construct_pairs l';
                    mret ((key, v) :: ps)
                end) pairs;
        mret (PDict (OrderedDict ps))
      else construct_undefined tag
  end.

(** [yaml.dump(data)] with the default [Dumper], on the graph. Every mapping
    of contest-gen.py is a [collections.OrderedDict], which
    [Representer.represent_ordered_dict] represents as an application of
    its class to the list of its items. *)
Fixpoint represent (v : value) : ynode :=
  match v with
  | PNone => ScalarNode tag_null "null"
  | PBool b => ScalarNode tag_bool (if b then "true" else "false")
  | PInt z => ScalarNode tag_int (DecimalString.NilZero.string_of_int (Z.to_int z))
  | PStr s => ScalarNode tag_str s
  | PList l => SequenceNode tag_seq (map represent l)
  | PDict d =>
      SequenceNode tag_ordered_dict
        [SequenceNode tag_seq
           (map (fun kv => SequenceNode tag_seq [ScalarNode tag_str (fst kv); represent (snd kv)]) d)]
  end.

(** ** contest-gen.py *)

Module Standalone.
Section record_test.
(** the text layer of PyYAML *)
Variable compose : string -> res ynode.
Variable emit : ynode -> string.
Variable env : Env.

(** lines 62-72 *)
Definition ordered_load (stream : string) : res value :=
  n ← compose stream;
  construct n.

Definition yaml_dump (data : value) : string := emit (represent data).

Definition test_case_set (test_name key : string) (v : value) (test_recipe : value)
    : res value :=
  modify_at ["test-cases"; test_name] (fun test_case => setitem test_case key v)
    test_recipe.

(** lines 197-203 *)
Fixpoint move_new_files (test_name : string) (new_files : list string)
    (test_recipe : value) : Py value :=
  match new_files with
  | [] => mret test_recipe
  | new_file :: rest =>
      let (dir_name, file_name) := os_path_split new_file in
      let base_file := os_path_join dir_name ("contest_" ++ file_name) in
      _ ← writes (fun fs => shutil_move fs new_file base_file);
      test_recipe ← pure (modify_at ["test-cases"; test_name; "ofstreams"]
                             (list_append (PDict [])) test_recipe);
      test_recipe ← pure (modify_at ["test-cases"; test_name; "ofstreams"]
                             (list_modify_last (fun d => setitem d "base-file" (PStr base_file)))
                             test_recipe);
      test_recipe ← pure (modify_at ["test-cases"; test_name; "ofstreams"]
                             (list_modify_last (fun d => setitem d "test-file" (PStr new_file)))
                             test_recipe);
      move_new_files test_name rest test_recipe
  end.

(** lines 167-181 *)
Definition open_recipe (test_name : string) (command : list string)
    : Py (string + value) :=
  present ← reads (fun fs => inr (os_path_exists fs "contest_recipe.yaml"));
  if (present : bool) then
    text ← reads (fun fs => read_file fs "contest_recipe.yaml");
    test_recipe ← pure (ordered_load text);
    test_cases ← pure (getitem test_recipe "test-cases");
    dup ← pure (contains test_name test_cases);
    if (dup : bool) then mret (inl (duplicate_message test_name))
    else
      test_recipe ← pure (modify_at ["test-cases"]
                             (fun tcs => setitem tcs test_name (PDict [])) test_recipe);
      exe ← pure (command0 command);
      default ← pure (getitem test_recipe "executable");
      if negb (is_str exe default) then
        test_recipe ← pure (test_case_set test_name "executable" (PStr exe) test_recipe);
        mret (inr test_recipe)
      else mret (inr test_recipe)
  else
    test_recipe ← pure (inr (PDict []));
    exe ← pure (command0 command);
    test_recipe ← pure (setitem test_recipe "executable" (PStr exe));
    test_recipe ← pure (setitem test_recipe "test-cases" (PDict []));
    test_recipe ← pure (modify_at ["test-cases"]
                           (fun tcs => setitem tcs test_name (PDict [])) test_recipe);
    mret (inr test_recipe).

(** lines 183-203 *)
Definition fill_test_case (test_name : string) (command : list string) (proc : Run)
    (recorder_pipe : RecorderPipe) (new_files : gset string) (test_recipe : value)
    : Py value :=
  test_recipe ← pure (test_case_set test_name "return-code" (PInt (returncode proc))
                         test_recipe);
  let argv := command_tail command in
  test_recipe ← pure (if truthy_list argv
                      then test_case_set test_name "argv" (strs (command_tail command))
                             test_recipe
                      else inr test_recipe);
  test_recipe ← pure (if truthy_list (lines recorder_pipe)
                      then test_case_set test_name "stdin" (strs (lines recorder_pipe))
                             test_recipe
                      else inr test_recipe);
  test_recipe ← pure (if truthy_str (stdout proc)
                      then test_case_set test_name "stdout" (PStr (stdout proc)) test_recipe
                      else inr test_recipe);
  test_recipe ← pure (if truthy_str (stderr proc)
                      then test_case_set test_name "stderr" (PStr (stderr proc)) test_recipe
                      else inr test_recipe);
  if bool_decide (new_files ≠ ∅) then
    test_recipe ← pure (test_case_set test_name "ofstreams" (PList []) test_recipe);
    move_new_files test_name (set_iter env new_files) test_recipe
  else mret test_recipe.

(** lines 155-203: the document that is about to be written, or the
    message of the early return *)
Definition document (command : list string) (test_name : string)
    : Py (string + value) :=
  let recorder_pipe := RecorderPipe_init in
  files ← reads snapshot;
  proc ← Popen env command;
  let recorder_pipe := fst (run (console env) (alive proc) 0 recorder_pipe) in
  after ← reads snapshot;
  let new_files : gset string := after ∖ files in
  recipe ← open_recipe test_name command;
  match recipe with
  | inl message => mret (inl message)
  | inr test_recipe =>
      test_recipe ← fill_test_case test_name command proc recorder_pipe new_files
                      test_recipe;
      mret (inr test_recipe)
  end.

(** lines 155-207 *)
Definition record_test (command : list string) (test_name : string) : Py retval :=
  recipe ← document command test_name;
  match recipe with
  | inl message => mret (RetMsg message)
  | inr test_recipe =>
      _ ← writes (fun fs => write_file fs "contest_recipe.yaml" (yaml_dump test_recipe));
      mret Ret0
  end.

(** lines 205-206 and 168-169 on their own: the recipe is persisted, and
    the recipe is loaded *)
Definition persist (test_recipe : value) (fs : node) : res node :=
  write_file fs "contest_recipe.yaml" (yaml_dump test_recipe).

Definition load (fs : node) : res value :=
  text ← read_file fs "contest_recipe.yaml";
  ordered_load text.
End record_test.
End Standalone.

(** ** What the two files share

    The two [record_test] differ in three places: the call that loads the
    recipe, the path of the recipe, and the value stored under [stdin].
    [Recorder] has these as parameters; both files are instances of it
    (lemmas [Runner_record_test_eq] and [Standalone_record_test_eq]), and
    the properties are proved here once. *)

Module Recorder.
Section record.
Variable load : string -> res value.
Variable dump : value -> string.
Variable stdin_value : list string -> value.
Variable env : Env.
Variable configuration : string.

Definition test_case_set (test_name key : string) (v : value) (doc : value) : res value :=
  modify_at ["test-cases"; test_name] (fun test_case => setitem test_case key v) doc.

Definition ofstream_entry (doc : value) (test_name base_file new_file : string) : res value :=
  doc ← modify_at ["test-cases"; test_name; "ofstreams"] (list_append (PDict [])) doc;
  doc ← modify_at ["test-cases"; test_name; "ofstreams"]
          (list_modify_last (fun d => setitem d "base-file" (PStr base_file))) doc;
  modify_at ["test-cases"; test_name; "ofstreams"]
    (list_modify_last (fun d => setitem d "test-file" (PStr new_file))) doc.

Definition base_file_of (new_file : string) : string :=
  os_path_join (fst (os_path_split new_file)) ("contest_" ++ snd (os_path_split new_file)).

Fixpoint move_new_files (test_name : string) (new_files : list string) (doc : value)
    : Py value :=
  match new_files with
  | [] => mret doc
  | new_file :: rest =>
      _ ← writes (fun fs => shutil_move fs new_file (base_file_of new_file));
      doc ← pure (ofstream_entry doc test_name (base_file_of new_file) new_file);
      move_new_files test_name rest doc
  end.

Definition fresh_recipe (test_name : string) (command : list string) : res value :=
  exe ← command0 command;
  mret (PDict [("executable", PStr exe); ("test-cases", PDict [(test_name, PDict [])])]).

Definition merge_recipe (test_name : string) (command : list string) (doc : value)
    : res (string + value) :=
  test_cases ← getitem doc "test-cases";
  dup ← contains test_name test_cases;
  if (dup : bool) then mret (inl (duplicate_message test_name))
  else
    doc ← modify_at ["test-cases"] (fun tcs => setitem tcs test_name (PDict [])) doc;
    exe ← command0 command;
    default ← getitem doc "executable";
    if negb (is_str exe default) then
      doc ← test_case_set test_name "executable" (PStr exe) doc;
      mret (inr doc)
    else mret (inr doc).

Definition open_recipe (test_name : string) (command : list string)
    : Py (string + value) :=
  fun fs =>
    if os_path_exists fs configuration then
      (text ← read_file fs configuration;
       doc ← load text;
       merge_recipe test_name command doc, fs)
    else (doc ← fresh_recipe test_name command; mret (inr doc), fs).

Definition when (b : bool) (f : value -> res value) (doc : value) : res value :=
  if b then f doc else inr doc.

Definition fill_fields (test_name : string) (command : list string) (proc : Run)
    (recorder_pipe : RecorderPipe) (has_new_files : bool) (doc : value) : res value :=
  doc ← test_case_set test_name "return-code" (PInt (returncode proc)) doc;
  doc ← when (truthy_list (command_tail command))
          (test_case_set test_name "argv" (strs (command_tail command))) doc;
  doc ← when (truthy_list (lines recorder_pipe))
          (test_case_set test_name "stdin" (stdin_value (lines recorder_pipe))) doc;
  doc ← when (truthy_str (stdout proc))
          (test_case_set test_name "stdout" (PStr (stdout proc))) doc;
  doc ← when (truthy_str (stderr proc))
          (test_case_set test_name "stderr" (PStr (stderr proc))) doc;
  when has_new_files (test_case_set test_name "ofstreams" (PList [])) doc.

Definition fill_test_case (test_name : string) (command : list string) (proc : Run)
    (recorder_pipe : RecorderPipe) (new_files : gset string) (doc : value) : Py value :=
  doc ← pure (fill_fields test_name command proc recorder_pipe
                (bool_decide (new_files ≠ ∅)) doc);
  if bool_decide (new_files ≠ ∅)
  then move_new_files test_name (set_iter env new_files) doc
  else mret doc.

(** everything before the recipe is written: the document, or the message
    of the early return *)
Definition build (test_name : string) (command : list string) : Py (string + value) :=
  files ← reads snapshot;
  proc ← Popen env command;
  let recorder_pipe := fst (run (console env) (alive proc) 0 RecorderPipe_init) in
  after ← reads snapshot;
  recipe ← open_recipe test_name command;
  match recipe with
  | inl message => mret (inl message)
  | inr doc =>
      doc ← fill_test_case test_name command proc recorder_pipe (after ∖ files) doc;
      mret (inr doc)
  end.

Definition record (test_name : string) (command : list string) : Py retval :=
  recipe ← build test_name command;
  match recipe with
  | inl message => mret (RetMsg message)
  | inr doc =>
      _ ← writes (fun fs => write_file fs configuration (dump doc));
      mret Ret0
  end.
End record.
End Recorder.


Definition joined_stdin (lines : list string) : value :=
  PStr (String.concat newline lines).

(** ** Vocabulary of the properties *)

(** A name a directory can list: not empty, not [.], without slash. *)
Fixpoint no_slash (s : string) : bool :=
  match s with
  | EmptyString => true
  | String c s' => negb (Ascii.eqb c slash) && no_slash s'
  end.

Definition valid_name (f : string) : bool :=
  negb (skipped f) && no_slash f.

Fixpoint valid_tree (n : node) : bool :=
  match n with
  | File _ => true
  | Dir es => forallb (fun kv => valid_name (fst kv) && valid_tree (snd kv)) es
  end.

Definition is_dir (n : node) : bool :=
  match n with Dir _ => true | File _ => false end.

(** A working directory: a directory whose names, at every depth, are
    names a directory can list. *)
Definition working_dir (fs : node) : Prop :=
  is_dir fs = true /\ valid_tree fs = true.

(** What is at a resolved path: nothing, a directory, or a file with its
    content. *)
Inductive status :=
| Absent
| IsDir
| IsFile (content : string).

Definition stat (fs : node) (cs : list string) : status :=
  match walk fs cs with
  | None => Absent
  | Some (Dir _) => IsDir
  | Some (File c) => IsFile c
  end.

Definition stat_path (fs : node) (p : string) : status := stat fs (components p).

(** A path as [get_files] builds it: not empty and not ending in a slash. *)
Definition nice (r : string) : bool :=
  truthy_str r && negb (ends_with_slash r).

(** The recipe document with the test case [tc] stored under [test_name]
    in [tcs], the mapping under [test-cases] of [d]. *)
Definition install (d tcs : odict) (test_name : string) (tc : odict) : value :=
  PDict (od_set "test-cases" (PDict (od_set test_name (PDict tc) tcs)) d).

Definition ofstream (new_file : string) : value :=
  PDict [("base-file", PStr (Recorder.base_file_of new_file));
         ("test-file", PStr new_file)].

Definition field (present : bool) (key : string) (v : value) : odict :=
  if present then [(key, v)] else [].

(** The test case a successful recording has built, key by key; [order] is
    the order in which the set of new files was iterated. *)
Definition test_case_of (stdin_value : list string -> value) (tc0 : odict)
    (command : list string) (proc : Run) (lines : list string)
    (new_files : gset string) (order : list string) : odict :=
  tc0 ++ [("return-code", PInt (returncode proc))]
      ++ field (truthy_list (command_tail command)) "argv" (strs (command_tail command))
      ++ field (truthy_list lines) "stdin" (stdin_value lines)
      ++ field (truthy_str (stdout proc)) "stdout" (PStr (stdout proc))
      ++ field (truthy_str (stderr proc)) "stderr" (PStr (stderr proc))
      ++ field (bool_decide (new_files ≠ ∅)) "ofstreams" (PList (map ofstream order)).

(** The keys the recorder sets; [executable] comes before them. *)
Definition recorded_keys : list string :=
  ["return-code"; "argv"; "stdin"; "stdout"; "stderr"; "ofstreams"].

(** The moves of lines 141-147 alone, in the order given. *)
Fixpoint move_all (new_files : list string) : Py unit :=
  match new_files with
  | [] => mret tt
  | new_file :: rest =>
      _ ← writes (fun fs => shutil_move fs new_file (Recorder.base_file_of new_file));
      move_all rest
  end.

(** The path [get_files('.')] builds for the names leading to a file. *)
Definition path_of (names : list string) : string :=
  fold_left os_path_join names ".".

Definition canonical (p : string) : Prop :=
  exists names, forallb valid_name names = true /\ p = path_of names.

(** A path [get_files] lists: built from the names leading to a regular
    file. *)
Definition enumerated (fs : node) (p : string) : Prop :=
  exists names f c,
    forallb valid_name names = true /\ valid_name f = true /\
    p = path_of (names ++ [f]) /\
    walk fs (names ++ [f]) = Some (File c).

(** An entry that nothing can be below. *)
Definition leaf (o : option node) : Prop :=
  match o with Some (Dir _) => False | _ => True end.

Definition stat_entry (o : option node) : status :=
  match o with
  | None => Absent
  | Some (File c) => IsFile c
  | Some (Dir _) => IsDir
  end.

Definition fresh_test_case (tc0 : odict) : Prop :=
  forall k, In k recorded_keys -> od_get k tc0 = None.

(** The text that reaches the child when [l] is forwarded: every line with
    one line terminator after it. *)
Definition terminated (l : list string) : string :=
  String.concat "" (map (fun s : string => (s ++ newline)%string) l).

(** The recipe file at [path] holds [text], which [load] reads as the
    mapping [d] whose test cases are the mapping [tcs]. *)
Definition recipe_on_disk (load : string -> res value) (fs : node) (path text : string)
    (d tcs : odict) : Prop :=
  read_file fs path = inr text /\ load text = inr (PDict d) /\
  od_get "test-cases" d = Some (PDict tcs).

(** The lines the interceptor has recorded when the child [proc] is done. *)
Definition recorded_lines (env : Env) (proc : Run) : list string :=
  lines (fst (run (console env) (alive proc) 0 RecorderPipe_init)).

(** What lines 99-147 (155-203) have done when they get to the end: the
    child [proc] has run, [doc] is the recipe with the new test case, last
    among the test cases of [tcs], and [fs1] is the tree after the moves. *)
Definition built (stdin_value : list string -> value) (env : Env)
    (test_name : string) (command : list string) (fs : node)
    (doc : value) (fs1 : node) : Prop :=
  exists files proc after d tcs tc0 exe,
    snapshot fs = inr files /\ popen env command fs = inr proc /\
    snapshot (fs_after proc) = inr after /\
    od_get test_name tcs = None /\ command0 command = inr exe /\
    (tc0 = [] \/ tc0 = [("executable", PStr exe)]) /\
    doc = install d tcs test_name
            (test_case_of stdin_value tc0 command proc (recorded_lines env proc)
               (after ∖ files) (set_iter env (after ∖ files))) /\
    (if bool_decide (after ∖ files ≠ ∅)
     then move_all (set_iter env (after ∖ files)) (fs_after proc) = (inr tt, fs1)
     else fs1 = fs_after proc).

(** The keys of the test case of [test_name] in [doc], against what the
    recording of [command] in [fs] saw. *)
Definition keys_as_recorded (env : Env) (test_name : string) (command : list string)
    (fs : node) (doc : value) : Prop :=
  exists proc files after tc,
    popen env command fs = inr proc /\ snapshot fs = inr files /\
    snapshot (fs_after proc) = inr after /\
    get_at ["test-cases"; test_name] doc = inr (PDict tc) /\
    od_get "return-code" tc = Some (PInt (returncode proc)) /\
    (od_mem "argv" tc = false <-> command_tail command = []) /\
    (od_mem "stdin" tc = false <-> recorded_lines env proc = []) /\
    (od_mem "stdout" tc = false <-> stdout proc = "") /\
    (od_mem "stderr" tc = false <-> stderr proc = "") /\
    (od_mem "ofstreams" tc = false <-> after ∖ files = ∅).

(** A document with the [stdin] of the test case [test_name] turned from
    a list of lines into their newline-joined text. *)
Fixpoint od_alter {V} (f : V -> V) (k : string) (d : list (string * V))
    : list (string * V) :=
  match d with
  | [] => []
  | (k', v) :: d' =>
      if String.eqb k k' then (k', f v) :: d' else (k', v) :: od_alter f k d'
  end.

Definition text_of (v : value) : string :=
  match v with PStr s => s | _ => "" end.

Definition join_lines (v : value) : value :=
  match v with
  | PList items => PStr (String.concat newline (map text_of items))
  | _ => v
  end.

Definition in_dict (f : odict -> odict) (v : value) : value :=
  match v with PDict d => PDict (f d) | _ => v end.

Definition stdin_joined (test_name : string) (doc : value) : value :=
  in_dict (od_alter (in_dict (od_alter (in_dict (od_alter join_lines "stdin"))
                                test_name))
             "test-cases") doc.

(** The documents the two files build from the same run: the same recipe
    and the same test case, but for the value under [stdin]. *)
Definition same_but_stdin (env : Env) (test_name : string) (command : list string)
    (fs : node) (doc_list doc_text : value) : Prop :=
  exists files proc after d tcs tc0,
    snapshot fs = inr files /\ popen env command fs = inr proc /\
    snapshot (fs_after proc) = inr after /\
    doc_list = install d tcs test_name
                 (test_case_of strs tc0 command proc (recorded_lines env proc)
                    (after ∖ files) (set_iter env (after ∖ files))) /\
    doc_text = install d tcs test_name
                 (test_case_of joined_stdin tc0 command proc (recorded_lines env proc)
                    (after ∖ files) (set_iter env (after ∖ files))) /\
    doc_text = stdin_joined test_name doc_list.

(** The new files of a recording that returned 0, in the document [doc]
    it wrote and in the tree [fs'] it left: one [ofstreams] entry per new
    file, in the order of the iteration; every new file gone from its path
    and at its reference path, with its content. The recipe file itself is
    written last, at [configuration]. *)
Definition moved_and_recorded (env : Env) (test_name configuration : string)
    (proc : Run) (new_files : gset string) (doc : value) (fs' : node) : Prop :=
  exists tc,
    get_at ["test-cases"; test_name] doc = inr (PDict tc) /\
    od_get "return-code" tc = Some (PInt (returncode proc)) /\
    (new_files <> ∅ ->
     od_get "ofstreams" tc = Some (PList (map ofstream (set_iter env new_files)))) /\
    (new_files = ∅ -> od_get "ofstreams" tc = None) /\
    length (map ofstream (set_iter env new_files)) = size new_files /\
    (forall p, p ∈ new_files ->
       In (ofstream p) (map ofstream (set_iter env new_files)) /\
       (exists names f,
           p = path_of (names ++ [f]) /\
           Recorder.base_file_of p = path_of (names ++ [("contest_" ++ f)%string])) /\
       (exists c, stat_path (fs_after proc) p = IsFile c) /\
       (components configuration <> components p -> stat_path fs' p = Absent) /\
       (components configuration <> components (Recorder.base_file_of p) ->
        stat_path fs' (Recorder.base_file_of p) = stat_path (fs_after proc) p)).

(** Scenario C, as the code records it: exit status 2 and one entry, for
    [out.txt] as [get_files('.')] names it. *)
Definition scenario_C (test_name : string) (doc : value) : Prop :=
  exists tc,
    get_at ["test-cases"; test_name] doc = inr (PDict tc) /\
    od_get "return-code" tc = Some (PInt 2) /\
    od_get "ofstreams" tc =
      Some (PList [PDict [("base-file", PStr "./contest_out.txt");
                          ("test-file", PStr "./out.txt")]]).

(** ** Concrete recordings

    A recipe with one test case, as text, as the graph the text denotes and
    as the document; three programs; and the scenarios of the specification
    run on them. *)

Module Demo.
Definition recipe_text : string :=
  String.concat newline
    ["executable: echo"; "test-cases:"; "  hello:"; "    return-code: 0";
     "    argv:"; "    - hello"; "    stdout: |"; "      hello"; ""].

Definition str (s : string) : ynode := ScalarNode tag_str s.

Definition recipe_graph : ynode :=
  MappingNode tag_map
    [(str "executable", str "echo");
     (str "test-cases",
      MappingNode tag_map
        [(str "hello",
          MappingNode tag_map
            [(str "return-code", ScalarNode tag_int "0");
             (str "argv", SequenceNode tag_seq [str "hello"]);
             (str "stdout", str ("hello" ++ newline))])])].

Definition hello_case : odict :=
  [("return-code", PInt 0); ("argv", PList [PStr "hello"]);
   ("stdout", PStr ("hello" ++ newline))].

Definition recipe_doc : value :=
  PDict [("executable", PStr "echo"); ("test-cases", PDict [("hello", PDict hello_case)])].

(** A recipe without its [test-cases] key, and one without [executable]. *)
Definition headless_text : string := "executable: echo" ++ newline.
Definition headless_doc : value := PDict [("executable", PStr "echo")].
Definition nameless_text : string := "test-cases: {}" ++ newline.
Definition nameless_doc : value := PDict [("test-cases", PDict [])].

(** The YAML library on these texts. *)
(** The document of scenario A, and the text [emit] gives for its graph. *)
Definition scenario_A_doc : value :=
  PDict [("executable", PStr "echo");
         ("test-cases",
          PDict [("a", PDict [("return-code", PInt 0); ("argv", PList [PStr "hello"]);
                              ("stdout", PStr ("hello" ++ newline))])])].

Definition tagged_text : string := "!!" ++ tag_ordered_dict.

Definition compose (text : string) : res ynode :=
  if String.eqb text recipe_text then inr recipe_graph
  else if String.eqb text headless_text
  then inr (MappingNode tag_map [(str "executable", str "echo")])
  else if String.eqb text nameless_text
  then inr (MappingNode tag_map [(str "test-cases", MappingNode tag_map [])])
  else if String.eqb text tagged_text then inr (represent scenario_A_doc)
  else raise YAMLError.

(** runner.py reads a text as contest-gen.py does. *)
Definition yaml_load (text : string) : res value :=
  Standalone.ordered_load compose text.

(** Dumped text is only compared, never read back, in what follows; the
    dump of a document is told apart by the names of its test cases. *)
Definition yaml_dump (data : value) : string :=
  match get_at ["test-cases"] data with
  | inr (PDict tcs) => "test-cases: " ++ String.concat ", " (map fst tcs)
  | _ => "recipe"
  end.

Definition emit (n : ynode) : string :=
  match n with
  | SequenceNode tag _ => "!!" ++ tag
  | _ => "recipe"
  end.

(** [echo] prints its arguments; [writer] creates [out.txt] and exits
    with 2; [twice] creates [a] and [contest_a]; [cat] prints what it
    reads; any other executable is not found. *)
Definition created (fs : node) (files : list (string * string)) : node :=
  fold_left (fun fs pc => match write_file fs (fst pc) (snd pc) with
                          | inr fs' => fs'
                          | inl _ => fs
                          end) files fs.

Definition finished (rc : Z) (out : string) (fs : node) : Run :=
  {| returncode := rc; stdout := out; stderr := ""; fs_after := fs;
     alive := fun _ => true |}.

Definition spawn (typed : list string) (command : list string) (fs : node) : res Run :=
  match command with
  | "echo" :: args => inr (finished 0 (String.concat " " args ++ newline) fs)
  | "cat" :: _ => inr (finished 0 (String.concat newline typed ++ newline) fs)
  | "writer" :: _ => inr (finished 2 "" (created fs [("out.txt", "data")]))
  | "twice" :: _ =>
      inr (finished 0 "" (created fs [("a", "first"); ("contest_a", "second")]))
  | exe :: _ => raise (FileNotFoundError exe)
  | [] => raise IndexError
  end.

(** A set iterated in the order of [elements], and one that yields the
    paths of [first] before the others. *)
Definition first_then (first : list string) (s : gset string) : list string :=
  List.filter (fun p => bool_decide (p ∈ s)) first ++
  List.filter (fun p => negb (bool_decide (p ∈ first))) (elements s).

Definition env (typed : list string) : Env :=
  {| popen := spawn typed; console := typed; set_iter := elements |}.

Definition env_first (first : list string) : Env :=
  {| popen := spawn []; console := []; set_iter := first_then first |}.

Definition empty_dir : node := Dir [].
(** The recipe, under the name either file looks for. *)
Definition recorded_dir : node :=
  Dir [("recipe.yaml", File recipe_text); ("contest_recipe.yaml", File recipe_text)].
Definition headless_dir : node :=
  Dir [("recipe.yaml", File headless_text); ("contest_recipe.yaml", File headless_text)].
Definition nameless_dir : node :=
  Dir [("recipe.yaml", File nameless_text); ("contest_recipe.yaml", File nameless_text)].
(** A reference copy from an earlier recording is in the way. *)
Definition crowded_dir : node := Dir [("contest_out.txt", File "earlier")].
End Demo.

(** ** Vocabulary of the further properties *)

(** The tree without the contents of its files: names and kinds only. *)
Fixpoint shape (n : node) : node :=
  match n with
  | File _ => File ""
  | Dir es => Dir (map (fun kv => (fst kv, shape (snd kv))) es)
  end.

(** The executable in the document [doc] written by a recording of a
    command whose first word is [exe], into a recipe whose document was
    [d]: the recipe keeps its own, and the test case names [exe] exactly
    when the two differ. *)
Definition executable_as_recorded (d : odict) (test_name exe : string) (doc : value)
    : Prop :=
  exists default tc,
    od_get "executable" d = Some default /\
    getitem doc "executable" = inr default /\
    get_at ["test-cases"; test_name] doc = inr (PDict tc) /\
    od_get "executable" tc = (if is_str exe default then None else Some (PStr exe)).

(** [doc] is the recipe [d], whose test cases were [tcs], with one test
    case more, under [test_name] and after the others; nothing else is
    changed and no key has moved. *)
Definition appended (d tcs : odict) (test_name : string) (doc : value) : Prop :=
  exists d' tc,
    doc = PDict d' /\ map fst d' = map fst d /\
    (forall k, k <> "test-cases" -> od_get k d' = od_get k d) /\
    od_get "test-cases" d' = Some (PDict (tcs ++ [(test_name, PDict tc)])).

(** The keys of a test case, in the order in which lines 116-140 (172-196)
    assign them. *)
Definition key_order : list string := "executable" :: recorded_keys.

(** What [test_matrix['test-cases']] can be when it is not a mapping. *)
Definition not_a_mapping (v : value) : bool :=
  match v with PDict _ => false | _ => true end.

(** A path as the caller gives it for a file below the working directory:
    names separated by single slashes, none of them empty, [.] or [..]; so
    it is relative and does not end in a slash. On such a path
    [components] gives what the system resolves from the working
    directory. *)
Definition plain_name (c : string) : bool :=
  valid_name c && negb (String.eqb c "..").

Definition plain_path (p : string) : bool :=
  forallb plain_name (split_slash p).

(** The scalars on which [construct_scalar] is what [SafeLoader]
    constructs: strings, null, the six lower-case booleans, and integers
    written as plain decimal numbers (no [+], no leading zero, no
    underscore, no base prefix). *)
Definition plain_int (text : string) : bool :=
  match DecimalString.NilZero.int_of_string text with
  | Some d =>
      String.eqb (DecimalString.NilZero.string_of_int (Z.to_int (Z.of_int d))) text
  | None => false
  end.

Definition plain_scalar (tag text : string) : bool :=
  String.eqb tag tag_str || String.eqb tag tag_null
  || (String.eqb tag tag_bool &&
      existsb (String.eqb text) ["true"; "false"; "yes"; "no"; "on"; "off"])
  || (String.eqb tag tag_int && plain_int text).

Definition str_key (n : ynode) : bool :=
  match n with
  | ScalarNode tag _ => String.eqb tag tag_str
  | _ => false
  end.

(** A graph of such scalars, of sequences, and of mappings with string
    keys (no merge key). *)
Fixpoint plain_graph (n : ynode) : bool :=
  match n with
  | ScalarNode tag text => plain_scalar tag text
  | SequenceNode tag items => String.eqb tag tag_seq && forallb plain_graph items
  | MappingNode tag pairs =>
      String.eqb tag tag_map &&
      forallb (fun kv => str_key (fst kv) && plain_graph (snd kv)) pairs
  end.


(** A value without a mapping in it. *)
Fixpoint dict_free (v : value) : bool :=
  match v with
  | PList l => forallb dict_free l
  | PDict _ => false
  | _ => true
  end.

(** ** The command line

    [test] and the call [sys.exit(test())] of either file, from the point
    where [parser.parse_args()] has returned its namespace. [setup_logger]
    (contest-gen.py, lines 21-58; runner.py takes it from
    [contestgen.utilities.logger]) configures the [logging] module and
    touches neither the tree nor what [test] returns; it is left out, as
    are the calls of [logger.debug] in [record_test]. *)

(** [sys.exit(arg)]: the exit status of the interpreter and what it prints
    on the standard error stream. [None] is what a function returns that
    ends without [return]. *)
Definition sys_exit (arg : option retval) : Z * string :=
  match arg with
  | None => (0%Z, "")
  | Some Ret0 => (0%Z, "")
  | Some (RetMsg msg) => (1%Z, (msg ++ newline)%string)
  end.

Module RunnerCLI.
(** runner.py, lines 156-162: three positional arguments and a switch. *)
Record Namespace := {
  configuration : string;
  test_name : string;
  generate : list string;
  verbose : bool
}.

Section test.
Variable yaml_load : string -> res value.
Variable yaml_dump : value -> string.
Variable env : Env.

(** lines 164-166 *)
Definition test (inputs : Namespace) : Py retval :=
  Runner.record_test yaml_load yaml_dump env (configuration inputs) (test_name inputs)
    (generate inputs).

(** lines 169-170 *)
Definition main (inputs : Namespace) : Py (Z * string) :=
  r ← test inputs;
  mret (sys_exit (Some r)).
End test.
End RunnerCLI.

Module StandaloneCLI.
(** contest-gen.py, lines 212-220: [generate] and [new_test_name] are
    [None] when the option is not given. *)
Record Namespace := {
  configuration : string;
  filters : list string;
  exclude_filters : list string;
  generate : option (list string);
  new_test_name : option string;
  verbose : bool
}.

Definition usage_message : string :=
  "You must specify --new-test-name <name> when generating a new test!".

Section test.
Variable compose : string -> res ynode.
Variable emit : ynode -> string.
Variable env : Env.

(** lines 224-228; the function ends without [return] when there is
    nothing to generate *)
Definition test (inputs : Namespace) : Py (option retval) :=
  match generate inputs with
  | Some (exe :: argv) =>
      match new_test_name inputs with
      | Some name =>
          if negb (truthy_str name) then mret (Some (RetMsg usage_message))
          else
            r ← Standalone.record_test compose emit env (exe :: argv) name;
            mret (Some r)
      | None => mret (Some (RetMsg usage_message))
      end
  | Some [] | None => mret None
  end.

(** lines 231-232 *)
Definition main (inputs : Namespace) : Py (Z * string) :=
  r ← test inputs;
  mret (sys_exit r).
End test.
End StandaloneCLI.

(** ** Further concrete recordings *)

Module Cases.
(** The tree after [cat], given [ping], was recorded under [b] by runner.py
    into [recipe.yaml] of [Demo.recorded_dir]. *)
Definition recorded_b : node :=
  Dir [("recipe.yaml", File "test-cases: hello, b");
       ("contest_recipe.yaml", File Demo.recipe_text)].

(** The tree after [writer] was recorded under [c] there. *)
Definition recorded_c : node :=
  Dir [("recipe.yaml", File "test-cases: hello, c");
       ("contest_recipe.yaml", File Demo.recipe_text);
       ("contest_out.txt", File "data")].

(** The document of [Demo.recipe_text] and its test cases. *)
Definition recipe_items : odict :=
  [("executable", PStr "echo"); ("test-cases", PDict [("hello", PDict Demo.hello_case)])].
Definition recipe_cases : odict := [("hello", PDict Demo.hello_case)].

(** [cat] has run in [Demo.recorded_dir] and printed [ping]. *)
Definition cat_ping : Run := Demo.finished 0 ("ping" ++ newline) Demo.recorded_dir.

(** A recipe whose [test-cases] is a text, and one where nothing comes
    after the key; the graphs the texts denote. *)
Definition prose_text : string :=
  String.concat newline ["executable: echo"; "test-cases: smoke tests"; ""].
Definition blank_text : string :=
  String.concat newline ["executable: echo"; "test-cases:"; ""].

Definition compose (text : string) : res ynode :=
  if String.eqb text prose_text
  then inr (MappingNode tag_map [(Demo.str "executable", Demo.str "echo");
                                 (Demo.str "test-cases", Demo.str "smoke tests")])
  else if String.eqb text blank_text
  then inr (MappingNode tag_map [(Demo.str "executable", Demo.str "echo");
                                 (Demo.str "test-cases", ScalarNode tag_null "")])
  else raise YAMLError.

Definition yaml_load (text : string) : res value := Standalone.ordered_load compose text.

Definition prose_dir : node := Dir [("recipe.yaml", File prose_text)].
Definition blank_dir : node := Dir [("recipe.yaml", File blank_text)].
(** The path of the recipe is taken by a directory. *)
Definition taken_dir : node := Dir [("recipe.yaml", Dir [])].

(** A reader that knows the text [Demo.yaml_dump] gives for the document
    of scenario A, and the tree with that recipe. *)
Definition reload (text : string) : res value :=
  if String.eqb text "test-cases: a" then inr Demo.scenario_A_doc else raise YAMLError.
Definition recorded_a : node := Dir [("recipe.yaml", File "test-cases: a")].
(** The tree after [writer] was recorded there under [c]. *)
Definition recorded_a_c : node :=
  Dir [("recipe.yaml", File "test-cases: a, c"); ("contest_out.txt", File "data")].

(** A list of two items as text, the graph the text denotes, and an emitter
    for this one graph. *)
Definition items_text : string := String.concat newline ["- ping"; "- 2"; ""].
Definition items_graph : ynode :=
  SequenceNode tag_seq [Demo.str "ping"; ScalarNode tag_int "2"].
Definition compose_items (text : string) : res ynode :=
  if String.eqb text items_text then inr items_graph else raise YAMLError.
Definition emit_items (n : ynode) : string := items_text.

(** Files, a directory with a file and an empty directory. *)
Definition nested_dir : node :=
  Dir [("a.txt", File "x"); ("sub", Dir [("b.txt", File "y")]); ("empty", Dir [])].
End Cases.
(** *** Both files are instances of [Recorder] *)

Ltac unfold_py :=
  unfold mbind, mret, Py_bind, Py_ret, res_bind, res_ret, pure, reads, writes, raise in *.

Ltac innermost x :=
  lazymatch x with
  | context [match _ with _ => _ end] => fail
  | _ => idtac
  end.

Ltac case_res :=
  repeat match goal with
         | |- context [match ?x with inl _ => _ | inr _ => _ end] =>
             innermost x; destruct x; cbn beta iota; try reflexivity
         | |- context [if ?b then _ else _] =>
             innermost b; destruct b; cbn beta iota; try reflexivity
         end.

Lemma Runner_move_new_files_eq test_name new_files doc fs :
  Runner.move_new_files test_name new_files doc fs =
  Recorder.move_new_files test_name new_files doc fs.
Proof.
  revert doc fs. induction new_files as [|new_file rest IH]; intros doc fs; [reflexivity|].
  cbn [Runner.move_new_files Recorder.move_new_files].
  unfold Recorder.base_file_of, Recorder.ofstream_entry.
  destruct (os_path_split new_file) as [dir_name file_name]. cbn [fst snd].
  unfold_py.
  destruct (shutil_move fs new_file _) as [e|fs']; [reflexivity|].
  destruct (modify_at _ (list_append _) doc) as [e|d1]; [reflexivity|].
  destruct (modify_at _ _ d1) as [e|d2]; [reflexivity|].
  destruct (modify_at _ _ d2) as [e|d3]; [reflexivity|].
  apply IH.
Qed.

Lemma Runner_open_recipe_eq yaml_load configuration test_name command fs :
  Runner.open_recipe yaml_load configuration test_name command fs =
  Recorder.open_recipe yaml_load configuration test_name command fs.
Proof.
  unfold Runner.open_recipe, Recorder.open_recipe, Recorder.merge_recipe,
    Recorder.fresh_recipe, Runner.test_case_set, Recorder.test_case_set.
  unfold_py.
  destruct (os_path_exists fs configuration); cbn beta iota; case_res.
Qed.

Lemma Runner_fill_test_case_eq env test_name command proc recorder_pipe new_files doc fs :
  Runner.fill_test_case env test_name command proc recorder_pipe new_files doc fs =
  Recorder.fill_test_case joined_stdin env test_name command proc recorder_pipe
    new_files doc fs.
Proof.
  unfold Runner.fill_test_case, Recorder.fill_test_case, Recorder.fill_fields,
    Recorder.when, Runner.test_case_set, Recorder.test_case_set, joined_stdin.
  unfold_py.
  case_res; apply Runner_move_new_files_eq.
Qed.

Lemma Runner_document_eq yaml_load env configuration test_name command fs :
  Runner.document yaml_load env configuration test_name command fs =
  Recorder.build yaml_load joined_stdin env configuration test_name command fs.
Proof.
  unfold Runner.document, Recorder.build.
  unfold mbind, Py_bind, reads, mret, Py_ret.
  destruct (snapshot fs) as [e|files]; [reflexivity|].
  unfold Popen. destruct (popen env command fs) as [e|proc]; [reflexivity|].
  destruct (snapshot (fs_after proc)) as [e|after]; [reflexivity|].
  rewrite Runner_open_recipe_eq.
  destruct (Recorder.open_recipe _ _ _ _ _) as [[e|[msg|doc]] fs1]; try reflexivity.
  rewrite Runner_fill_test_case_eq.
  destruct (Recorder.fill_test_case _ _ _ _ _ _ _ _ _) as [[e|doc'] fs2]; reflexivity.
Qed.

Lemma Runner_record_test_eq yaml_load yaml_dump env configuration test_name command fs :
  Runner.record_test yaml_load yaml_dump env configuration test_name command fs =
  Recorder.record yaml_load yaml_dump joined_stdin env configuration test_name command fs.
Proof.
  unfold Runner.record_test, Recorder.record.
  unfold mbind, Py_bind. rewrite Runner_document_eq. reflexivity.
Qed.

Lemma Standalone_move_new_files_eq test_name new_files doc fs :
  Standalone.move_new_files test_name new_files doc fs =
  Recorder.move_new_files test_name new_files doc fs.
Proof.
  revert doc fs. induction new_files as [|new_file rest IH]; intros doc fs; [reflexivity|].
  cbn [Standalone.move_new_files Recorder.move_new_files].
  unfold Recorder.base_file_of, Recorder.ofstream_entry.
  destruct (os_path_split new_file) as [dir_name file_name]. cbn [fst snd].
  unfold_py.
  destruct (shutil_move fs new_file _) as [e|fs']; [reflexivity|].
  destruct (modify_at _ (list_append _) doc) as [e|d1]; [reflexivity|].
  destruct (modify_at _ _ d1) as [e|d2]; [reflexivity|].
  destruct (modify_at _ _ d2) as [e|d3]; [reflexivity|].
  apply IH.
Qed.

Lemma Standalone_open_recipe_eq compose test_name command fs :
  Standalone.open_recipe compose test_name command fs =
  Recorder.open_recipe (Standalone.ordered_load compose) "contest_recipe.yaml"
    test_name command fs.
Proof.
  unfold Standalone.open_recipe, Recorder.open_recipe, Recorder.merge_recipe,
    Recorder.fresh_recipe, Standalone.test_case_set, Recorder.test_case_set.
  unfold_py.
  destruct (os_path_exists fs "contest_recipe.yaml"); cbn beta iota; case_res.
Qed.

Lemma Standalone_fill_test_case_eq env test_name command proc recorder_pipe new_files doc fs :
  Standalone.fill_test_case env test_name command proc recorder_pipe new_files doc fs =
  Recorder.fill_test_case strs env test_name command proc recorder_pipe new_files doc fs.
Proof.
  unfold Standalone.fill_test_case, Recorder.fill_test_case, Recorder.fill_fields,
    Recorder.when, Standalone.test_case_set, Recorder.test_case_set.
  unfold_py.
  case_res; apply Standalone_move_new_files_eq.
Qed.

Lemma Standalone_document_eq compose env command test_name fs :
  Standalone.document compose env command test_name fs =
  Recorder.build (Standalone.ordered_load compose) strs env "contest_recipe.yaml"
    test_name command fs.
Proof.
  unfold Standalone.document, Recorder.build.
  unfold mbind, Py_bind, reads, mret, Py_ret.
  destruct (snapshot fs) as [e|files]; [reflexivity|].
  unfold Popen. destruct (popen env command fs) as [e|proc]; [reflexivity|].
  destruct (snapshot (fs_after proc)) as [e|after]; [reflexivity|].
  rewrite Standalone_open_recipe_eq.
  destruct (Recorder.open_recipe _ _ _ _ _) as [[e|[msg|doc]] fs1]; try reflexivity.
  rewrite Standalone_fill_test_case_eq.
  destruct (Recorder.fill_test_case _ _ _ _ _ _ _ _ _) as [[e|doc'] fs2]; reflexivity.
Qed.

Lemma Standalone_record_test_eq compose emit env command test_name fs :
  Standalone.record_test compose emit env command test_name fs =
  Recorder.record (Standalone.ordered_load compose) (Standalone.yaml_dump emit) strs env
    "contest_recipe.yaml" test_name command fs.
Proof.
  unfold Standalone.record_test, Recorder.record.
  unfold mbind, Py_bind. rewrite Standalone_document_eq. reflexivity.
Qed.

(** ** Ordered dictionaries *)

Section OrderedDictLemmas.
Context {V : Type}.
Implicit Types (d : list (string * V)) (k : string) (v : V).

Lemma od_get_set_eq k v d : od_get k (od_set k v d) = Some v.
Proof.
  induction d as [|[k' v'] d IH]; simpl.
  - now rewrite String.eqb_refl.
  - destruct (String.eqb k k') eqn:E; simpl; rewrite E; auto.
Qed.

Lemma od_get_set_ne k k' v d : k <> k' -> od_get k' (od_set k v d) = od_get k' d.
Proof.
  intros Hne. induction d as [|[k0 v0] d IH]; simpl.
  - destruct (String.eqb k' k) eqn:E; [apply String.eqb_eq in E; congruence|reflexivity].
  - destruct (String.eqb k k0) eqn:E; simpl.
    + apply String.eqb_eq in E; subst k0.
      destruct (String.eqb k' k) eqn:E'; [apply String.eqb_eq in E'; congruence|reflexivity].
    + now rewrite IH.
Qed.

Lemma od_set_set k v v' d : od_set k v (od_set k v' d) = od_set k v d.
Proof.
  induction d as [|[k0 v0] d IH]; simpl.
  - now rewrite String.eqb_refl.
  - destruct (String.eqb k k0) eqn:E; simpl; rewrite E; [reflexivity|now rewrite IH].
Qed.

Lemma od_set_same k v d : od_get k d = Some v -> od_set k v d = d.
Proof.
  induction d as [|[k0 v0] d IH]; cbn [od_get od_set]; [discriminate|].
  destruct (String.eqb k k0); [now intros [= ->]|].
  intros H. now rewrite IH.
Qed.

Lemma od_set_absent k v d : od_get k d = None -> od_set k v d = d ++ [(k, v)].
Proof.
  induction d as [|[k0 v0] d IH]; simpl; [reflexivity|].
  destruct (String.eqb k k0); [discriminate|]. intros H. now rewrite IH.
Qed.

Lemma od_get_app k d d' :
  od_get k (d ++ d') = match od_get k d with Some v => Some v | None => od_get k d' end.
Proof.
  induction d as [|[k0 v0] d IH]; simpl; [reflexivity|].
  destruct (String.eqb k k0); [reflexivity|apply IH].
Qed.

Lemma od_get_del_eq k d : od_get k (od_del k d) = None.
Proof.
  unfold od_del. induction d as [|[k0 v0] d IH]; [reflexivity|].
  simpl. destruct (String.eqb k k0) eqn:E; simpl; [exact IH|].
  now rewrite E.
Qed.

Lemma od_get_del_ne k k' d : k <> k' -> od_get k' (od_del k d) = od_get k' d.
Proof.
  intros Hne. unfold od_del. induction d as [|[k0 v0] d IH]; [reflexivity|].
  simpl. destruct (String.eqb k k0) eqn:E; simpl.
  - apply String.eqb_eq in E; subst k0.
    destruct (String.eqb k' k) eqn:E'; [apply String.eqb_eq in E'; congruence|exact IH].
  - now rewrite IH.
Qed.

Lemma od_get_In k v d : od_get k d = Some v -> In (k, v) d.
Proof.
  induction d as [|[k0 v0] d IH]; simpl; [discriminate|].
  destruct (String.eqb k k0) eqn:E.
  - apply String.eqb_eq in E. intros [= ->]. left. now subst.
  - intros H. right. now apply IH.
Qed.

Lemma od_get_of_In k d : In k (map fst d) -> exists v, od_get k d = Some v.
Proof.
  induction d as [|[k0 v0] d IH]; simpl; [tauto|].
  destruct (String.eqb k k0) eqn:E; [eauto|].
  intros [->|H]; [rewrite String.eqb_refl in E; discriminate|auto].
Qed.
End OrderedDictLemmas.

(** ** The recipe document while the test case is built *)

Lemma getitem_install_cases d tcs test_name tc :
  getitem (install d tcs test_name tc) "test-cases" =
  inr (PDict (od_set test_name (PDict tc) tcs)).
Proof. unfold install, getitem. now rewrite od_get_set_eq. Qed.

Lemma get_at_install d tcs test_name tc :
  get_at ["test-cases"; test_name] (install d tcs test_name tc) = inr (PDict tc).
Proof.
  cbn [get_at]. rewrite getitem_install_cases. unfold_py.
  unfold getitem. now rewrite od_get_set_eq.
Qed.

Lemma modify_test_case_install d tcs test_name tc f tc' :
  f (PDict tc) = inr (PDict tc') ->
  modify_at ["test-cases"; test_name] f (install d tcs test_name tc) =
  inr (install d tcs test_name tc').
Proof.
  intros Hf. cbn [modify_at]. rewrite getitem_install_cases. unfold_py.
  unfold getitem at 1. rewrite od_get_set_eq. rewrite Hf.
  unfold setitem, install. now rewrite !od_set_set.
Qed.

Lemma test_case_set_install d tcs test_name tc key v :
  Recorder.test_case_set test_name key v (install d tcs test_name tc) =
  inr (install d tcs test_name (od_set key v tc)).
Proof. unfold Recorder.test_case_set. now apply modify_test_case_install. Qed.

Lemma modify_last_snoc f (l : list value) x x' :
  f x = inr x' -> modify_last f (l ++ [x]) = inr (l ++ [x']).
Proof.
  intros Hf. induction l as [|y l IH]; simpl.
  - rewrite Hf. reflexivity.
  - destruct (l ++ [x]) eqn:E; [destruct l; discriminate|].
    rewrite IH. reflexivity.
Qed.

Lemma modify_ofstreams_install d tcs test_name tc f l l' :
  od_get "ofstreams" tc = Some (PList l) ->
  f (PList l) = inr (PList l') ->
  modify_at ["test-cases"; test_name; "ofstreams"] f (install d tcs test_name tc) =
  inr (install d tcs test_name (od_set "ofstreams" (PList l') tc)).
Proof.
  intros Hl Hf.
  change (modify_at ["test-cases"; test_name; "ofstreams"] f)
    with (modify_at ["test-cases"; test_name] (modify_at ["ofstreams"] f)).
  apply modify_test_case_install.
  cbn [modify_at]. unfold getitem. rewrite Hl. unfold_py. rewrite Hf. reflexivity.
Qed.

Lemma ofstream_entry_install d tcs test_name tc l new_file :
  od_get "ofstreams" tc = Some (PList l) ->
  Recorder.ofstream_entry (install d tcs test_name tc) test_name
    (Recorder.base_file_of new_file) new_file =
  inr (install d tcs test_name (od_set "ofstreams" (PList (l ++ [ofstream new_file])) tc)).
Proof.
  intros Hl. unfold Recorder.ofstream_entry.
  rewrite (modify_ofstreams_install _ _ _ _ _ l (l ++ [PDict []])); [|exact Hl|reflexivity].
  cbn [mbind res_bind].
  rewrite (modify_ofstreams_install _ _ _ _ _ (l ++ [PDict []])
             (l ++ [PDict [("base-file", PStr (Recorder.base_file_of new_file))]]));
    [|apply od_get_set_eq|].
  2:{ unfold list_modify_last. rewrite (modify_last_snoc _ _ _
        (PDict [("base-file", PStr (Recorder.base_file_of new_file))])); reflexivity. }
  cbn [mbind res_bind].
  rewrite (modify_ofstreams_install _ _ _ _ _
             (l ++ [PDict [("base-file", PStr (Recorder.base_file_of new_file))]])
             (l ++ [ofstream new_file]));
    [|apply od_get_set_eq|].
  2:{ unfold list_modify_last. rewrite (modify_last_snoc _ _ _ (ofstream new_file));
      reflexivity. }
  now rewrite !od_set_set.
Qed.

(** The loop of lines 141-147 does the moves of [move_all] and appends one
    entry per file, in the same order. *)
Lemma move_new_files_install d tcs test_name tc l new_files fs :
  od_get "ofstreams" tc = Some (PList l) ->
  Recorder.move_new_files test_name new_files (install d tcs test_name tc) fs =
  match move_all new_files fs with
  | (inl e, fs') => (inl e, fs')
  | (inr _, fs') =>
      (inr (install d tcs test_name
              (od_set "ofstreams" (PList (l ++ map ofstream new_files)) tc)), fs')
  end.
Proof.
  revert tc l fs. induction new_files as [|p rest IH]; intros tc l fs Hl.
  - cbn. rewrite app_nil_r.
    now rewrite (od_set_same _ _ _ Hl).
  - cbn [Recorder.move_new_files move_all]. unfold_py.
    destruct (shutil_move fs p _) as [e|fs1]; [reflexivity|].
    rewrite (ofstream_entry_install _ _ _ _ l) by exact Hl.
    rewrite (IH _ (l ++ [ofstream p])) by apply od_get_set_eq.
    destruct (move_all rest fs1) as [[e|[]] fs2]; [reflexivity|].
    rewrite od_set_set. cbn [map]. rewrite <- app_assoc. reflexivity.
Qed.

Lemma fresh_test_case_nil : fresh_test_case [].
Proof. intros k _. reflexivity. Qed.

Lemma fresh_test_case_executable exe : fresh_test_case [("executable", PStr exe)].
Proof.
  intros k Hk. simpl in Hk.
  repeat (destruct Hk as [<-|Hk]; [reflexivity|]). contradiction.
Qed.

Ltac absent_key H :=
  rewrite ?od_get_app; rewrite H by (simpl; tauto); reflexivity.

Lemma fill_fields_install stdin_value test_name command proc recorder_pipe b d tcs tc0 :
  fresh_test_case tc0 ->
  Recorder.fill_fields stdin_value test_name command proc recorder_pipe b
    (install d tcs test_name tc0) =
  inr (install d tcs test_name
         (tc0 ++ [("return-code", PInt (returncode proc))]
              ++ field (truthy_list (command_tail command)) "argv"
                   (strs (command_tail command))
              ++ field (truthy_list (lines recorder_pipe)) "stdin"
                   (stdin_value (lines recorder_pipe))
              ++ field (truthy_str (stdout proc)) "stdout" (PStr (stdout proc))
              ++ field (truthy_str (stderr proc)) "stderr" (PStr (stderr proc))
              ++ field b "ofstreams" (PList []))).
Proof.
  intros Hfresh. unfold Recorder.fill_fields, Recorder.when, field.
  rewrite test_case_set_install. cbn [mbind res_bind].
  rewrite (od_set_absent "return-code") by (apply Hfresh; simpl; tauto).
  destruct (truthy_list (command_tail command));
    [rewrite test_case_set_install,
       (od_set_absent "argv") by absent_key Hfresh|];
    cbn [mbind res_bind];
  (destruct (truthy_list (lines recorder_pipe));
    [rewrite test_case_set_install,
       (od_set_absent "stdin") by absent_key Hfresh|]);
    cbn [mbind res_bind];
  (destruct (truthy_str (stdout proc));
    [rewrite test_case_set_install,
       (od_set_absent "stdout") by absent_key Hfresh|]);
    cbn [mbind res_bind];
  (destruct (truthy_str (stderr proc));
    [rewrite test_case_set_install,
       (od_set_absent "stderr") by absent_key Hfresh|]);
    cbn [mbind res_bind];
  (destruct b;
    [rewrite test_case_set_install,
       (od_set_absent "ofstreams") by absent_key Hfresh|]);
  rewrite <- ?app_assoc; reflexivity.
Qed.

Lemma od_set_app_r {V} k (v : V) d d' :
  od_get k d = None -> od_set k v (d ++ d') = d ++ od_set k v d'.
Proof.
  induction d as [|[k0 v0] d IH]; cbn [od_get od_set app]; [reflexivity|].
  destruct (String.eqb k k0); [discriminate|]. intros H. now rewrite IH.
Qed.

Lemma fill_test_case_install stdin_value env test_name command proc recorder_pipe
    new_files d tcs tc0 fs :
  fresh_test_case tc0 ->
  Recorder.fill_test_case stdin_value env test_name command proc recorder_pipe new_files
    (install d tcs test_name tc0) fs =
  let doc := install d tcs test_name
               (test_case_of stdin_value tc0 command proc (lines recorder_pipe)
                  new_files (set_iter env new_files)) in
  if bool_decide (new_files ≠ ∅) then
    match move_all (set_iter env new_files) fs with
    | (inl e, fs') => (inl e, fs')
    | (inr _, fs') => (inr doc, fs')
    end
  else (inr doc, fs).
Proof.
  intros Hfresh. unfold Recorder.fill_test_case, test_case_of.
  unfold mbind at 1. unfold Py_bind, pure.
  rewrite fill_fields_install by exact Hfresh.
  destruct (bool_decide (new_files ≠ ∅)); [|reflexivity].
  rewrite (move_new_files_install _ _ _ _ []).
  - cbn zeta. destruct (move_all _ fs) as [[e|[]] fs']; [reflexivity|].
    do 3 f_equal. rewrite od_set_app_r by (apply Hfresh; simpl; tauto).
    f_equal. unfold field.
    destruct (truthy_list (command_tail command)), (truthy_list (lines recorder_pipe)),
      (truthy_str (stdout proc)), (truthy_str (stderr proc)); reflexivity.
  - rewrite od_get_app, Hfresh by (simpl; tauto). unfold field.
    destruct (truthy_list (command_tail command)), (truthy_list (lines recorder_pipe)),
      (truthy_str (stdout proc)), (truthy_str (stderr proc)); reflexivity.
Qed.

(** *** Opening the recipe *)

Lemma merge_recipe_duplicate test_name command d tcs :
  od_get "test-cases" d = Some (PDict tcs) ->
  od_mem test_name tcs = true ->
  Recorder.merge_recipe test_name command (PDict d) = inr (inl (duplicate_message test_name)).
Proof.
  intros Hd Hmem. unfold Recorder.merge_recipe, getitem. rewrite Hd.
  cbn [mbind res_bind contains]. rewrite Hmem. reflexivity.
Qed.

(** The only message [merge_recipe] returns is the duplicate-name message;
    a document it returns is the loaded one with the new test case last
    among the test cases. *)
Lemma merge_recipe_inv test_name command doc r :
  Recorder.merge_recipe test_name command doc = inr r ->
  (r = inl (duplicate_message test_name)) \/
  (exists d tcs exe default,
      doc = PDict d /\ od_get "test-cases" d = Some (PDict tcs) /\
      od_get test_name tcs = None /\
      command0 command = inr exe /\
      od_get "executable" d = Some default /\
      r = inr (install d tcs test_name
                 (if is_str exe default then [] else [("executable", PStr exe)]))).
Proof.
  unfold Recorder.merge_recipe. intros H.
  destruct doc as [| | | | |d]; try (cbn in H; discriminate).
  cbn [getitem] in H.
  destruct (od_get "test-cases" d) as [tcsv|] eqn:Hd; [|cbn in H; discriminate].
  cbn [mbind res_bind] in H.
  destruct (contains test_name tcsv) as [e|[|]] eqn:Hc; cbn [mbind res_bind] in H;
    [cbn in H; discriminate|left; unfold mret, res_ret in H; now inversion H|].
  right.
  cbn [modify_at getitem] in H. rewrite Hd in H.
  cbn [mbind res_bind] in H.
  destruct tcsv as [| | | | |tcs]; try (cbn in H; discriminate).
  cbn [setitem mbind res_bind getitem] in H.
  rewrite od_get_set_ne in H by discriminate.
  change (PDict (od_set "test-cases" (PDict (od_set test_name (PDict []) tcs)) d))
    with (install d tcs test_name []) in H.
  destruct (command0 command) as [e|exe] eqn:Hexe; [cbn in H; discriminate|].
  cbn [mbind res_bind] in H.
  destruct (od_get "executable" d) as [default|] eqn:Hdef; [|cbn in H; discriminate].
  cbn [mbind res_bind] in H.
  exists d, tcs, exe, default. repeat split; try reflexivity; try assumption.
  - cbn [contains] in Hc. unfold od_mem in Hc.
    destruct (od_get test_name tcs); [discriminate|reflexivity].
  - destruct (is_str exe default); cbn [negb] in H.
    + unfold mret, res_ret in H. now inversion H.
    + rewrite test_case_set_install in H. cbn [mbind res_bind] in H.
      unfold mret, res_ret in H. now inversion H.
Qed.

(** ** Path strings *)

Lemma append_cons c (a b : string) : (String c a ++ b)%string = String c (a ++ b).
Proof. reflexivity. Qed.

Lemma append_nil (b : string) : ("" ++ b)%string = b.
Proof. reflexivity. Qed.

Lemma truthy_app_r a b : truthy_str b = true -> truthy_str (a ++ b) = true.
Proof. destruct a; [auto|reflexivity]. Qed.

Lemma split_slash_nonempty s : split_slash s <> [].
Proof.
  destruct s as [|c s]; simpl; [discriminate|].
  destruct (Ascii.eqb c slash); [discriminate|].
  destruct (split_slash s); discriminate.
Qed.

Lemma split_slash_no_slash f : no_slash f = true -> split_slash f = [f].
Proof.
  induction f as [|c f IH]; simpl; [reflexivity|].
  destruct (Ascii.eqb c slash); simpl; [discriminate|].
  intros H. now rewrite IH.
Qed.

Lemma split_slash_app a b :
  split_slash (a ++ String slash b) = split_slash a ++ split_slash b.
Proof.
  induction a as [|c a IH]; [reflexivity|].
  rewrite ?append_cons, ?append_nil; cbn [split_slash]. rewrite IH.
  destruct (Ascii.eqb c slash); [reflexivity|].
  destruct (split_slash a) eqn:E; [now apply split_slash_nonempty in E|reflexivity].
Qed.

Lemma valid_name_no_slash f : valid_name f = true -> no_slash f = true.
Proof. unfold valid_name. intros H. now apply andb_prop in H. Qed.

Lemma valid_name_not_skipped f : valid_name f = true -> skipped f = false.
Proof.
  unfold valid_name. intros H. apply andb_prop in H as [H _].
  now destruct (skipped f).
Qed.

Lemma valid_name_truthy f : valid_name f = true -> truthy_str f = true.
Proof. intros H. apply valid_name_not_skipped in H. now destruct f. Qed.

Lemma no_slash_start f : no_slash f = true -> starts_with_slash f = false.
Proof.
  destruct f as [|c f]; simpl; [reflexivity|].
  now destruct (Ascii.eqb c slash).
Qed.

Lemma nice_truthy r : nice r = true -> truthy_str r = true.
Proof. unfold nice. intros H. now apply andb_prop in H. Qed.

Lemma nice_no_end r : nice r = true -> ends_with_slash r = false.
Proof.
  unfold nice. intros H. apply andb_prop in H as [_ H].
  now destruct (ends_with_slash r).
Qed.

Lemma os_path_join_nice r f :
  nice r = true -> valid_name f = true -> os_path_join r f = (r ++ String slash f)%string.
Proof.
  intros Hr Hf. unfold os_path_join.
  rewrite no_slash_start by now apply valid_name_no_slash.
  now rewrite (nice_truthy _ Hr), (nice_no_end _ Hr).
Qed.

Lemma ends_with_slash_app a f :
  truthy_str f = true -> ends_with_slash (a ++ f) = ends_with_slash f.
Proof.
  intros Hf. induction a as [|c a IH]; [reflexivity|].
  rewrite append_cons. cbn [ends_with_slash]. rewrite IH.
  destruct (a ++ f)%string eqn:E; [|reflexivity].
  destruct a; [rewrite append_nil in E; subst f|rewrite append_cons in E]; discriminate.
Qed.

Lemma no_slash_end f : no_slash f = true -> ends_with_slash f = false.
Proof.
  induction f as [|c f IH]; [reflexivity|].
  cbn [no_slash ends_with_slash]. intros H. apply andb_prop in H as [Hc Hf].
  destruct f; [now destruct (Ascii.eqb c slash)|now apply IH].
Qed.

Lemma nice_join r f :
  nice r = true -> valid_name f = true -> nice (os_path_join r f) = true.
Proof.
  intros Hr Hf. rewrite os_path_join_nice by assumption.
  unfold nice. apply andb_true_intro. split.
  - apply truthy_app_r. reflexivity.
  - rewrite ends_with_slash_app by reflexivity.
    cbn [ends_with_slash]. pose proof (valid_name_truthy _ Hf) as Ht.
    destruct f; [discriminate|].
    now rewrite no_slash_end by now apply valid_name_no_slash.
Qed.

Lemma filter_app_bool {A} (p : A -> bool) l l' :
  List.filter p (l ++ l') = List.filter p l ++ List.filter p l'.
Proof. induction l as [|x l IH]; simpl; [reflexivity|]. destruct (p x); simpl; now rewrite IH. Qed.

Lemma components_join r f :
  nice r = true -> valid_name f = true ->
  components (os_path_join r f) = components r ++ [f].
Proof.
  intros Hr Hf. rewrite os_path_join_nice by assumption.
  unfold components. rewrite split_slash_app, filter_app_bool.
  rewrite (split_slash_no_slash f) by now apply valid_name_no_slash.
  cbn [List.filter]. now rewrite valid_name_not_skipped.
Qed.

Lemma cut_last_slash_no_slash f : no_slash f = true -> cut_last_slash f = (EmptyString, f).
Proof.
  induction f as [|c f IH]; [reflexivity|].
  cbn [no_slash cut_last_slash]. intros H. apply andb_prop in H as [Hc Hf].
  rewrite IH by exact Hf. cbn. now destruct (Ascii.eqb c slash).
Qed.

Lemma cut_last_slash_app a f :
  no_slash f = true -> cut_last_slash (a ++ String slash f) = ((a ++ "/")%string, f).
Proof.
  intros Hf. induction a as [|c a IH].
  - rewrite ?append_cons, ?append_nil; cbn [cut_last_slash]. rewrite cut_last_slash_no_slash by exact Hf. reflexivity.
  - rewrite ?append_cons, ?append_nil; cbn [cut_last_slash]. rewrite IH.
    now rewrite truthy_app_r.
Qed.

Lemma all_slashes_app_nice r : nice r = true -> all_slashes (r ++ "/") = false.
Proof.
  induction r as [|c r IH]; [discriminate|].
  intros Hr. rewrite ?append_cons, ?append_nil; cbn [all_slashes].
  destruct (Ascii.eqb c slash) eqn:Hc; [|reflexivity].
  cbn [andb]. apply IH. unfold nice in *. cbn [truthy_str ends_with_slash andb] in Hr.
  destruct r; [now rewrite Hc in Hr|exact Hr].
Qed.

Lemma rstrip_slash_app_nice r : nice r = true -> rstrip_slash (r ++ "/") = r.
Proof.
  induction r as [|c r IH]; [discriminate|].
  intros Hr. rewrite ?append_cons, ?append_nil; cbn [rstrip_slash].
  change (String c (r ++ "/")) with (String c r ++ "/")%string.
  rewrite all_slashes_app_nice by exact Hr.
  destruct r as [|c' r]; [reflexivity|].
  rewrite IH; [reflexivity|]. exact Hr.
Qed.

Lemma os_path_split_join r f :
  nice r = true -> valid_name f = true -> os_path_split (os_path_join r f) = (r, f).
Proof.
  intros Hr Hf. rewrite os_path_join_nice by assumption.
  unfold os_path_split. rewrite cut_last_slash_app by now apply valid_name_no_slash.
  rewrite truthy_app_r by reflexivity.
  rewrite all_slashes_app_nice by exact Hr. cbn [andb negb].
  now rewrite rstrip_slash_app_nice.
Qed.

(** ** The directory tree *)

Lemma walk_app fs a b :
  walk fs (a ++ b) = match walk fs a with Some n => walk n b | None => None end.
Proof.
  revert fs. induction a as [|c a IH]; intros fs; [reflexivity|].
  cbn [app walk]. destruct fs as [|es]; [reflexivity|].
  destruct (od_get c es); [apply IH|reflexivity].
Qed.

Lemma valid_tree_child es c m :
  valid_tree (Dir es) = true -> od_get c es = Some m ->
  valid_name c = true /\ valid_tree m = true.
Proof.
  intros Hv Hget. apply od_get_In in Hget.
  cbn [valid_tree] in Hv. rewrite forallb_forall in Hv.
  specialize (Hv _ Hget). cbn [fst snd] in Hv. now apply andb_prop in Hv.
Qed.

Lemma valid_tree_walk fs cs n :
  valid_tree fs = true -> walk fs cs = Some n -> valid_tree n = true.
Proof.
  revert fs. induction cs as [|c cs IH]; intros fs Hv Hw.
  - cbn in Hw. now inversion Hw; subst.
  - cbn [walk] in Hw. destruct fs as [|es]; [discriminate|].
    destruct (od_get c es) as [m|] eqn:Hget; [|discriminate].
    apply (IH m); [|exact Hw]. now apply (valid_tree_child es c m).
Qed.

Lemma height_child es c m : od_get c es = Some m -> height m < height (Dir es).
Proof.
  intros Hget. apply od_get_In in Hget. cbn [height].
  induction es as [|[k n] es IH]; [destruct Hget|].
  cbn [fold_right snd]. destruct Hget as [[= -> ->]|Hin].
  - lia.
  - specialize (IH Hin). lia.
Qed.

Lemma components_dot : components "." = [].
Proof. reflexivity. Qed.

Lemma nice_dot : nice "." = true.
Proof. reflexivity. Qed.

Lemma path_of_snoc names f : path_of (names ++ [f]) = os_path_join (path_of names) f.
Proof. unfold path_of. now rewrite fold_left_app. Qed.

Lemma forallb_snoc {A} (p : A -> bool) l x :
  forallb p (l ++ [x]) = forallb p l && p x.
Proof. rewrite forallb_app. cbn. now rewrite andb_true_r. Qed.

Lemma nice_path_of names : forallb valid_name names = true -> nice (path_of names) = true.
Proof.
  induction names as [|f names IH] using rev_ind; [reflexivity|].
  rewrite forallb_snoc, path_of_snoc. intros H. apply andb_prop in H as [Hn Hf].
  apply nice_join; auto.
Qed.

Lemma components_path_of names :
  forallb valid_name names = true -> components (path_of names) = names.
Proof.
  induction names as [|f names IH] using rev_ind; [reflexivity|].
  rewrite forallb_snoc, path_of_snoc. intros H. apply andb_prop in H as [Hn Hf].
  rewrite components_join; [now rewrite IH|now apply nice_path_of|exact Hf].
Qed.

Lemma get_files_ok fuel fs names es :
  valid_tree fs = true -> forallb valid_name names = true ->
  walk fs names = Some (Dir es) -> height (Dir es) <= fuel ->
  exists l, get_files fuel fs (path_of names) = inr l /\ Forall (enumerated fs) l.
Proof.
  revert names es. induction fuel as [|fuel IH]; intros names es Hv Hnames Hlook Hh.
  - cbn [height] in Hh. lia.
  - cbn [get_files]. unfold os_listdir, lookup_path.
    rewrite components_path_of by exact Hnames. rewrite Hlook. cbn [mbind res_bind].
    assert (Hes : valid_tree (Dir es) = true) by now apply (valid_tree_walk fs _ _ Hv Hlook).
    match goal with
    | |- exists l, ?loop (map fst es) [] = inr l /\ _ =>
        enough (Hloop : forall els files,
                   (forall el, In el els -> In el (map fst es)) ->
                   Forall (enumerated fs) files ->
                   exists l, loop els files = inr l /\ Forall (enumerated fs) l)
          by (apply Hloop; [auto|constructor])
    end.
    induction els as [|el els IHels]; intros files Hsub Hacc; [eauto|].
    destruct (od_get_of_In el es) as [m Hget]; [apply Hsub; now left|].
    destruct (valid_tree_child _ _ _ Hes Hget) as [Hel Hm].
    assert (Hnames' : forallb valid_name (names ++ [el]) = true)
      by (rewrite forallb_snoc, Hnames, Hel; reflexivity).
    assert (Hfull : walk fs (names ++ [el]) = Some m)
      by (rewrite walk_app, Hlook; cbn [walk]; now rewrite Hget).
    rewrite <- path_of_snoc.
    unfold os_path_isfile, lookup_path. rewrite components_path_of by exact Hnames'.
    rewrite Hfull.
    destruct m as [c|es'].
    + apply IHels; [intros; apply Hsub; now right|].
      apply Forall_app. split; [exact Hacc|]. constructor; [|constructor].
      exists names, el, c. repeat split; assumption.
    + destruct (IH (names ++ [el]) es') as [sub [Hsubl Hsubp]];
        [exact Hv|exact Hnames'|exact Hfull| |].
      { pose proof (height_child _ _ _ Hget). lia. }
      rewrite Hsubl. cbn [mbind res_bind].
      apply IHels; [intros; apply Hsub; now right|].
      apply Forall_app. now split.
Qed.

Lemma snapshot_ok fs :
  working_dir fs ->
  exists files, snapshot fs = inr files /\ forall p, p ∈ files -> enumerated fs p.
Proof.
  intros [Hdir Hv]. destruct fs as [|es]; [discriminate|].
  destruct (get_files_ok (S (height (Dir es))) (Dir es) [] es) as [l [Hl Hp]];
    [exact Hv|reflexivity|reflexivity|lia|].
  unfold snapshot. change "." with (path_of []). rewrite Hl. cbn [mbind res_bind].
  eexists. split; [reflexivity|].
  intros p Hin. apply elem_of_list_to_set in Hin.
  rewrite Forall_forall in Hp. now apply Hp.
Qed.

Lemma get_files_isfile fuel fs root l :
  get_files fuel fs root = inr l -> Forall (fun p => os_path_isfile fs p = true) l.
Proof.
  revert root l. induction fuel as [|fuel IH]; intros root l; [discriminate|].
  cbn [get_files]. destruct (os_listdir fs root) as [e|els]; [discriminate|].
  cbn [mbind res_bind].
  match goal with
  | |- ?loop els [] = inr l -> _ =>
      enough (Hloop : forall els files l,
                 Forall (fun p => os_path_isfile fs p = true) files ->
                 loop els files = inr l ->
                 Forall (fun p => os_path_isfile fs p = true) l)
        by (apply Hloop; constructor)
  end.
  clear els l. induction els as [|el els IHels]; intros files l Hacc Hl.
  - now inversion Hl; subst.
  - destruct (os_path_isfile fs (os_path_join root el)) eqn:Hfile.
    + apply (IHels _ _ (Forall_app_2 _ _ _ Hacc (Forall_cons_2 _ _ _ Hfile (Forall_nil_2 _))) Hl).
    + destruct (get_files fuel fs (os_path_join root el)) as [e|sub] eqn:Hsub;
        [discriminate|].
      cbn [mbind res_bind] in Hl.
      apply (IHels _ _ (Forall_app_2 _ _ _ Hacc (IH _ _ Hsub)) Hl).
Qed.

Lemma snapshot_isfile fs files p :
  snapshot fs = inr files -> p ∈ files -> os_path_isfile fs p = true.
Proof.
  unfold snapshot. destruct (get_files _ fs ".") as [e|l] eqn:Hl; [discriminate|].
  cbn [mbind res_bind]. unfold mret, res_ret. intros [= <-] Hin.
  apply elem_of_list_to_set in Hin.
  pose proof (get_files_isfile _ _ _ _ Hl) as H. rewrite Forall_forall in H. now apply H.
Qed.

(** ** The recording, step by step *)

Section RecorderLemmas.
Variable load : string -> res value.
Variable dump : value -> string.
Variable stdin_value : list string -> value.
Variable env : Env.
Variable configuration : string.

Notation build := (Recorder.build load stdin_value env configuration).
Notation record := (Recorder.record load dump stdin_value env configuration).
Notation open_recipe := (Recorder.open_recipe load configuration).

Lemma open_recipe_fs test_name command fs :
  snd (open_recipe test_name command fs) = fs.
Proof. unfold Recorder.open_recipe. now destruct (os_path_exists fs configuration). Qed.

(** Nothing is touched when the executable cannot be started. *)
Lemma build_spawn_error test_name command fs files e :
  snapshot fs = inr files -> popen env command fs = inl e ->
  build test_name command fs = (inl e, fs).
Proof.
  intros Hs Hp. unfold Recorder.build, mbind, Py_bind, reads, Popen.
  now rewrite Hs, Hp.
Qed.

Lemma build_run test_name command fs files proc after :
  snapshot fs = inr files -> popen env command fs = inr proc ->
  snapshot (fs_after proc) = inr after ->
  build test_name command fs =
  match open_recipe test_name command (fs_after proc) with
  | (inl e, fs1) => (inl e, fs1)
  | (inr (inl message), fs1) => (inr (inl message), fs1)
  | (inr (inr doc), fs1) =>
      match Recorder.fill_test_case stdin_value env test_name command proc
              (fst (run (console env) (alive proc) 0 RecorderPipe_init))
              (after ∖ files) doc fs1 with
      | (inl e, fs2) => (inl e, fs2)
      | (inr doc', fs2) => (inr (inr doc'), fs2)
      end
  end.
Proof.
  intros Hs Hp Ha. unfold Recorder.build, mbind, Py_bind, reads, Popen.
  rewrite Hs, Hp, Ha.
  destruct (open_recipe test_name command (fs_after proc)) as [[e|[m|doc]] fs1];
    reflexivity.
Qed.

(** Whatever [build] does, it went through these steps or raised. *)
Lemma build_inv test_name command fs r fs' :
  build test_name command fs = (inr r, fs') ->
  exists files proc after,
    snapshot fs = inr files /\ popen env command fs = inr proc /\
    snapshot (fs_after proc) = inr after /\
    match open_recipe test_name command (fs_after proc) with
    | (inr (inl message), _) => r = inl message /\ fs' = fs_after proc
    | (inr (inr doc), _) =>
        exists doc',
          Recorder.fill_test_case stdin_value env test_name command proc
            (fst (run (console env) (alive proc) 0 RecorderPipe_init))
            (after ∖ files) doc (fs_after proc) = (inr doc', fs') /\ r = inr doc'
    | (inl _, _) => False
    end.
Proof.
  intros H. unfold Recorder.build, mbind, Py_bind, reads, Popen in H.
  destruct (snapshot fs) as [e|files] eqn:Hs; [discriminate|].
  destruct (popen env command fs) as [e|proc] eqn:Hp; [discriminate|].
  destruct (snapshot (fs_after proc)) as [e|after] eqn:Ha; [discriminate|].
  exists files, proc, after.
  split; [first [reflexivity|assumption]|].
  split; [first [reflexivity|assumption]|].
  split; [first [reflexivity|assumption]|].
  pose proof (open_recipe_fs test_name command (fs_after proc)) as Hfs.
  destruct (open_recipe test_name command (fs_after proc)) as [[e|[m|doc]] fs1];
    cbn [snd] in Hfs; subst fs1.
  - discriminate.
  - unfold mret, Py_ret in H. now inversion H.
  - destruct (Recorder.fill_test_case _ _ _ _ _ _ _ _ _) as [[e|doc'] fs2];
      [discriminate|].
    unfold mret, Py_ret in H. inversion H; subst. eauto.
Qed.

Lemma open_recipe_message test_name command fs message fs1 :
  open_recipe test_name command fs = (inr (inl message), fs1) ->
  message = duplicate_message test_name.
Proof.
  unfold Recorder.open_recipe. destruct (os_path_exists fs configuration).
  - destruct (read_file fs configuration) as [e|text]; [discriminate|].
    cbn [mbind res_bind]. destruct (load text) as [e|doc]; [discriminate|].
    cbn [mbind res_bind]. intros H.
    destruct (Recorder.merge_recipe test_name command doc) as [e|r] eqn:Hm;
      [discriminate|].
    apply merge_recipe_inv in Hm as [->|(d & tcs & exe & dflt & _ & _ & _ & _ & _ & ->)];
      now inversion H.
  - unfold Recorder.fresh_recipe. destruct (command0 command); discriminate.
Qed.

Lemma open_recipe_duplicate test_name command fs text d tcs :
  read_file fs configuration = inr text ->
  load text = inr (PDict d) ->
  od_get "test-cases" d = Some (PDict tcs) ->
  od_mem test_name tcs = true ->
  open_recipe test_name command fs = (inr (inl (duplicate_message test_name)), fs).
Proof.
  intros Hr Hl Hd Hm. unfold Recorder.open_recipe.
  assert (os_path_exists fs configuration = true) as ->.
  { unfold read_file in Hr. unfold os_path_exists.
    destruct (lookup_path fs configuration) as [[|]|]; [reflexivity|reflexivity|discriminate]. }
  rewrite Hr. cbn [mbind res_bind]. rewrite Hl. cbn [mbind res_bind].
  now rewrite (merge_recipe_duplicate _ _ _ _ Hd Hm).
Qed.
End RecorderLemmas.

Section RecorderResults.
Variable load : string -> res value.
Variable dump : value -> string.
Variable stdin_value : list string -> value.
Variable env : Env.
Variable configuration : string.

Notation build := (Recorder.build load stdin_value env configuration).
Notation record := (Recorder.record load dump stdin_value env configuration).

Lemma record_spawn_error test_name command fs e :
  working_dir fs -> popen env command fs = inl e ->
  record test_name command fs = (inl e, fs).
Proof.
  intros Hwd Hp. destruct (snapshot_ok fs Hwd) as [files [Hs _]].
  unfold Recorder.record, mbind, Py_bind.
  now rewrite (build_spawn_error _ _ _ _ _ _ _ _ _ Hs Hp).
Qed.

Lemma record_returns test_name command fs r fs' :
  record test_name command fs = (inr r, fs') ->
  r = Ret0 \/ r = RetMsg (duplicate_message test_name).
Proof.
  unfold Recorder.record, mbind, Py_bind. intros H.
  destruct (build test_name command fs) as [[e|[m|doc]] fs1] eqn:Hb; [discriminate| |].
  - right. unfold mret, Py_ret in H. inversion H; subst.
    apply build_inv in Hb as (files & proc & after & _ & _ & _ & Hopen).
    destruct (Recorder.open_recipe _ _ _ _ _) as [[e|[m'|doc]] fs2] eqn:Ho;
      [contradiction| |].
    + destruct Hopen as [[= ->] _].
      now rewrite (open_recipe_message _ _ _ _ _ _ _ Ho).
    + destruct Hopen as (doc' & _ & [=]).
  - left. unfold writes in H.
    destruct (write_file fs1 configuration (dump doc)); [discriminate|].
    unfold mret, Py_ret in H. now inversion H.
Qed.

Lemma record_duplicate test_name command fs proc text d tcs :
  working_dir fs -> popen env command fs = inr proc -> working_dir (fs_after proc) ->
  recipe_on_disk load (fs_after proc) configuration text d tcs ->
  od_mem test_name tcs = true ->
  record test_name command fs =
  (inr (RetMsg (duplicate_message test_name)), fs_after proc).
Proof.
  intros Hwd Hp Hwd' (Hr & Hl & Hd) Hm.
  destruct (snapshot_ok fs Hwd) as [files [Hs _]].
  destruct (snapshot_ok _ Hwd') as [after [Ha _]].
  unfold Recorder.record, mbind, Py_bind.
  rewrite (build_run _ _ _ _ _ _ _ _ _ _ Hs Hp Ha).
  now rewrite (open_recipe_duplicate _ _ _ _ _ _ _ _ Hr Hl Hd Hm).
Qed.

(** A message is returned from line 115 (171): the child has run, and
    nothing has been done to the tree since. *)
Lemma record_message_inv test_name command fs message fs' :
  record test_name command fs = (inr (RetMsg message), fs') ->
  message = duplicate_message test_name /\
  exists proc files after,
    popen env command fs = inr proc /\ fs' = fs_after proc /\
    snapshot fs = inr files /\ snapshot (fs_after proc) = inr after /\
    forall p, p ∈ after ∖ files -> os_path_isfile fs' p = true.
Proof.
  intros H. split.
  { apply record_returns in H as [H|H]; [discriminate|now inversion H]. }
  unfold Recorder.record, mbind, Py_bind in H.
  destruct (build test_name command fs) as [[e|[m|doc]] fs1] eqn:Hb; [discriminate| |].
  - unfold mret, Py_ret in H. inversion H; subst.
    apply build_inv in Hb as (files & proc & after & Hs & Hp & Ha & Hopen).
    destruct (Recorder.open_recipe _ _ _ _ _) as [[e|[m'|doc]] fs2];
      [contradiction| |].
    + destruct Hopen as [_ ->]. exists proc, files, after.
      repeat split; try assumption.
      intros p Hin. apply elem_of_difference in Hin as [Hin _].
      exact (snapshot_isfile _ _ _ Ha Hin).
    + destruct Hopen as (doc' & _ & [=]).
  - unfold writes in H.
    destruct (write_file fs1 configuration (dump doc)); [discriminate|].
    unfold mret, Py_ret in H. inversion H.
Qed.

Lemma record_open_error test_name command fs proc e :
  working_dir fs -> popen env command fs = inr proc -> working_dir (fs_after proc) ->
  fst (Recorder.open_recipe load configuration test_name command (fs_after proc)) = inl e ->
  record test_name command fs = (inl e, fs_after proc).
Proof.
  intros Hwd Hp Hwd' Ho.
  destruct (snapshot_ok fs Hwd) as [files [Hs _]].
  destruct (snapshot_ok _ Hwd') as [after [Ha _]].
  unfold Recorder.record, mbind, Py_bind.
  rewrite (build_run _ _ _ _ _ _ _ _ _ _ Hs Hp Ha).
  pose proof (open_recipe_fs load configuration test_name command (fs_after proc)) as Hfs.
  destruct (Recorder.open_recipe _ _ _ _ _) as [r fs1]. cbn [fst snd] in *.
  now subst.
Qed.

Lemma open_recipe_no_test_cases test_name command fs text doc e :
  read_file fs configuration = inr text -> load text = inr doc ->
  getitem doc "test-cases" = inl e ->
  fst (Recorder.open_recipe load configuration test_name command fs) = inl e.
Proof.
  intros Hr Hl Hg. unfold Recorder.open_recipe.
  assert (os_path_exists fs configuration = true) as ->.
  { unfold read_file in Hr. unfold os_path_exists.
    destruct (lookup_path fs configuration) as [[|]|]; [reflexivity|reflexivity|discriminate]. }
  rewrite Hr. cbn [mbind res_bind]. rewrite Hl. cbn [mbind res_bind fst].
  unfold Recorder.merge_recipe. now rewrite Hg.
Qed.

Lemma open_recipe_no_executable test_name command fs text d tcs exe argv :
  recipe_on_disk load fs configuration text d tcs ->
  od_mem test_name tcs = false -> od_get "executable" d = None ->
  command = exe :: argv ->
  fst (Recorder.open_recipe load configuration test_name command fs) =
  inl (KeyError "executable").
Proof.
  intros (Hr & Hl & Hd) Hm He ->. unfold Recorder.open_recipe.
  assert (os_path_exists fs configuration = true) as ->.
  { unfold read_file in Hr. unfold os_path_exists.
    destruct (lookup_path fs configuration) as [[|]|]; [reflexivity|reflexivity|discriminate]. }
  rewrite Hr. cbn [mbind res_bind]. rewrite Hl. cbn [mbind res_bind fst].
  unfold Recorder.merge_recipe. cbn [getitem]. rewrite Hd.
  cbn [mbind res_bind contains]. rewrite Hm.
  cbn [modify_at getitem]. rewrite Hd. cbn [mbind res_bind setitem command0 getitem].
  rewrite od_get_set_ne by discriminate. now rewrite He.
Qed.
End RecorderResults.

(** ** The interceptor *)

Lemma append_assoc (a b c : string) : ((a ++ b) ++ c)%string = (a ++ (b ++ c))%string.
Proof.
  induction a as [|x a IH]; [reflexivity|].
  rewrite !append_cons. now rewrite IH.
Qed.

Lemma append_nil_r (a : string) : (a ++ "")%string = a.
Proof. induction a as [|x a IH]; [reflexivity|]. rewrite append_cons. now rewrite IH. Qed.

Lemma terminated_cons s l : terminated (s :: l) = ((s ++ newline) ++ terminated l)%string.
Proof.
  unfold terminated. cbn [map String.concat].
  destruct (map (fun s : string => (s ++ newline)%string) l) eqn:E.
  - cbn [String.concat]. now rewrite append_nil_r.
  - reflexivity.
Qed.

Lemma terminated_app l l' : terminated (l ++ l') = (terminated l ++ terminated l')%string.
Proof.
  induction l as [|s l IH]; [reflexivity|].
  cbn [app]. rewrite !terminated_cons, IH. now rewrite !append_assoc.
Qed.

(** The loop invariant of [run]: what has been written is the terminated
    text of what has been recorded. *)
Lemma run_invariant input running k self :
  channel self = terminated (lines self) ->
  exists forwarded rest,
    input = forwarded ++ rest /\
    lines (fst (run input running k self)) = lines self ++ forwarded /\
    channel (fst (run input running k self)) = terminated (lines self ++ forwarded).
Proof.
  revert k self. induction input as [|s input IH]; intros k self Hinv.
  - exists [], []. cbn [run]. rewrite !app_nil_r.
    destruct (wpipe_open self && running k); cbn [fst]; auto.
  - cbn [run]. destruct (wpipe_open self && running k).
    + edestruct (IH (S (S k)) (check (running (S k))
                                 (lines_append s (wpipe_write (s ++ newline) self))))
        as (forwarded & rest & Hin & Hl & Hc).
      { destruct (running (S k));
          cbn [check close lines channel lines_append wpipe_write];
          rewrite Hinv, terminated_app, terminated_cons;
          change (terminated []) with EmptyString; now rewrite append_nil_r. }
      exists (s :: forwarded), rest.
      replace (lines (check (running (S k))
                 (lines_append s (wpipe_write (s ++ newline) self))))
        with (lines self ++ [s]) in * by (now destruct (running (S k))).
      rewrite <- app_assoc in Hl, Hc. cbn [app] in *.
      split; [now subst|]. split; assumption.
    + exists [], (s :: input). cbn [fst]. rewrite !app_nil_r. auto.
Qed.

(** While every [poll()] finds the child running, every line is taken. *)
Lemma run_all_running input running k self :
  wpipe_open self = true -> (forall j, running j = true) ->
  run input running k self =
  ({| lines := lines self ++ input; wpipe_open := true;
      channel := (channel self ++ terminated input)%string |}, InputExhausted).
Proof.
  intros Hopen Hrun. revert k self Hopen.
  induction input as [|s input IH]; intros k self Hopen.
  - cbn [run]. rewrite Hopen, Hrun. cbn [andb].
    change (terminated []) with EmptyString. rewrite app_nil_r, append_nil_r.
    destruct self; cbn in *; now subst.
  - cbn [run]. rewrite Hopen, Hrun. cbn [andb]. rewrite Hrun. cbn [check].
    rewrite IH by exact Hopen.
    cbn [lines channel lines_append wpipe_write].
    rewrite terminated_cons, <- app_assoc, !append_assoc. reflexivity.
Qed.

(** ** Changes of the tree *)

Lemma unsnoc_snoc {A} (l : list A) d x : unsnoc l = Some (d, x) -> l = d ++ [x].
Proof.
  revert d x. induction l as [|y l IH]; intros d x; [discriminate|].
  cbn [unsnoc]. destruct l as [|z l].
  - intros [= <- <-]. reflexivity.
  - destruct (unsnoc (z :: l)) as [[d' x']|]; [|discriminate].
    intros [= <- <-]. cbn [app]. f_equal. now apply IH.
Qed.

Lemma unsnoc_app {A} (d : list A) x : unsnoc (d ++ [x]) = Some (d, x).
Proof.
  induction d as [|y d IH]; [reflexivity|].
  cbn [app unsnoc]. rewrite IH. destruct (d ++ [x]) eqn:E; [|reflexivity].
  destruct d; discriminate.
Qed.


Lemma stat_cons es c r :
  stat (Dir es) (c :: r) = match od_get c es with Some m => stat m r | None => Absent end.
Proof. unfold stat. cbn [walk]. now destruct (od_get c es). Qed.

Lemma stat_file_cons t c r : stat (File t) (c :: r) = Absent.
Proof. reflexivity. Qed.

Lemma update_dir_walk d F fs fs' :
  update_dir d F fs = Some fs' ->
  exists es, walk fs d = Some (Dir es) /\ walk fs' d = Some (Dir (F es)).
Proof.
  revert fs fs'. induction d as [|a d IH]; intros fs fs'; destruct fs as [t|es0];
    cbn [update_dir]; try discriminate.
  - intros [= <-]. eauto.
  - destruct (od_get a es0) as [m|] eqn:Hget; [|discriminate].
    destruct (update_dir d F m) as [m'|] eqn:Hup; [|discriminate].
    intros [= <-]. destruct (IH _ _ Hup) as (es & Hw & Hw').
    exists es. cbn [walk]. now rewrite Hget, od_get_set_eq.
Qed.

Lemma update_dir_Some d F fs es :
  walk fs d = Some (Dir es) -> exists fs', update_dir d F fs = Some fs'.
Proof.
  revert fs. induction d as [|a d IH]; intros fs; destruct fs as [t|es0];
    cbn [walk update_dir]; try discriminate; eauto.
  destruct (od_get a es0) as [m|]; [|discriminate].
  intros Hw. destruct (IH _ Hw) as [m' ->]. eauto.
Qed.

(** Changing one leaf entry of one directory changes what is at that path
    and nothing else. *)
Lemma stat_update_dir d c F fs fs' es :
  walk fs d = Some (Dir es) -> update_dir d F fs = Some fs' ->
  (forall c', c' <> c -> od_get c' (F es) = od_get c' es) ->
  leaf (od_get c es) -> leaf (od_get c (F es)) ->
  forall q, stat fs' q = if decide (q = d ++ [c]) then stat_entry (od_get c (F es))
                         else stat fs q.
Proof.
  intros Hw Hup Hother Hleaf Hleaf'. revert fs fs' Hw Hup.
  induction d as [|a d IH]; intros fs fs' Hw Hup q.
  - destruct fs as [t|es0]; [discriminate|]. cbn in Hw, Hup.
    inversion Hw; subst es0. inversion Hup; subst fs'. clear Hw Hup.
    cbn [app]. destruct q as [|c' r]; [now rewrite decide_False by discriminate|].
    rewrite !stat_cons. destruct (decide (c' = c)) as [->|Hne].
    + destruct r as [|c'' r].
      * rewrite decide_True by reflexivity. unfold stat_entry.
        destruct (od_get c (F es)) as [[|]|]; reflexivity.
      * rewrite decide_False by discriminate.
        destruct (od_get c (F es)) as [[|]|], (od_get c es) as [[|]|];
          cbn in Hleaf, Hleaf'; try contradiction; reflexivity.
    + rewrite decide_False by congruence. now rewrite Hother.
  - destruct fs as [t|es0]; [discriminate|]. cbn [walk update_dir] in Hw, Hup.
    destruct (od_get a es0) as [m|] eqn:Hget; [|discriminate].
    destruct (update_dir d F m) as [m'|] eqn:Hup'; [|discriminate].
    inversion Hup; subst fs'. clear Hup.
    cbn [app]. destruct q as [|c' r]; [now rewrite decide_False by discriminate|].
    rewrite !stat_cons. destruct (decide (c' = a)) as [->|Hne].
    + rewrite od_get_set_eq, Hget, (IH _ _ Hw Hup' r).
      destruct (decide (r = d ++ [c])) as [->|Hr].
      * now rewrite decide_True.
      * rewrite decide_False; [reflexivity|congruence].
    + rewrite od_get_set_ne by congruence.
      rewrite decide_False; [reflexivity|congruence].
Qed.

Lemma stat_walk_dir fs q : stat fs q = IsDir <-> exists es, walk fs q = Some (Dir es).
Proof.
  unfold stat. destruct (walk fs q) as [[t|es]|]; split; try discriminate; eauto;
    intros [es' H]; discriminate.
Qed.

Lemma walk_parent fs d c n : walk fs (d ++ [c]) = Some n -> exists es, walk fs d = Some (Dir es).
Proof.
  rewrite walk_app. destruct (walk fs d) as [[t|es]|]; cbn [walk]; try discriminate; eauto.
Qed.

Lemma walk_snoc fs d c es :
  walk fs d = Some (Dir es) -> walk fs (d ++ [c]) = od_get c es.
Proof. intros Hw. rewrite walk_app, Hw. cbn [walk]. now destruct (od_get c es). Qed.

Lemma stat_snoc fs d c es :
  walk fs d = Some (Dir es) -> stat fs (d ++ [c]) = stat_entry (od_get c es).
Proof.
  intros Hw. unfold stat. rewrite (walk_snoc _ _ _ _ Hw).
  now destruct (od_get c es) as [[|]|].
Qed.

(** [open(p, 'w')] and the write: the file is there with the text, and
    nothing else has changed. *)
Lemma write_file_stat fs p text fs' :
  write_file fs p text = inr fs' ->
  forall q, stat fs' q = if decide (q = components p) then IsFile text else stat fs q.
Proof.
  unfold write_file. destruct (unsnoc (components p)) as [[d name]|] eqn:Hu; [|discriminate].
  apply unsnoc_snoc in Hu. rewrite Hu.
  destruct (update_dir d (od_set name (File text)) fs) as [fs1|] eqn:Hup.
  2:{ destruct (walk fs (d ++ [name])) as [[|]|]; discriminate. }
  destruct (update_dir_walk _ _ _ _ Hup) as (es & Hw & _).
  rewrite (walk_snoc _ _ _ _ Hw).
  intros H q.
  assert (Hleaf : leaf (od_get name es)).
  { destruct (od_get name es) as [[|]|]; cbn; auto. discriminate. }
  assert (fs' = fs1) as -> by (destruct (od_get name es) as [[|]|]; now inversion H).
  rewrite (stat_update_dir d name _ fs fs1 es Hw Hup).
  - now rewrite od_get_set_eq.
  - intros c' Hne. apply od_get_set_ne. congruence.
  - exact Hleaf.
  - now rewrite od_get_set_eq.
Qed.

Lemma read_file_stat fs p text : read_file fs p = inr text <-> stat_path fs p = IsFile text.
Proof.
  unfold read_file, stat_path, stat, lookup_path.
  destruct (walk fs (components p)) as [[t|es]|]; split; intros H; inversion H; reflexivity.
Qed.

Lemma write_file_read fs p text fs' :
  write_file fs p text = inr fs' -> read_file fs' p = inr text.
Proof.
  intros H. apply read_file_stat. unfold stat_path.
  rewrite (write_file_stat _ _ _ _ H). now rewrite decide_True.
Qed.

(** *** Moving a file *)

Lemma stat_file_walk fs q c : stat fs q = IsFile c <-> walk fs q = Some (File c).
Proof.
  unfold stat. destruct (walk fs q) as [[t|es]|]; split; intros H; inversion H; reflexivity.
Qed.

Lemma os_path_isdir_stat fs p : os_path_isdir fs p = false <-> stat_path fs p <> IsDir.
Proof.
  unfold os_path_isdir, stat_path, stat, lookup_path.
  destruct (walk fs (components p)) as [[t|es]|]; split; intros H; congruence.
Qed.

Lemma os_path_exists_stat fs p : os_path_exists fs p = false <-> stat_path fs p = Absent.
Proof.
  unfold os_path_exists, stat_path, stat, lookup_path.
  destruct (walk fs (components p)) as [[t|es]|]; split; intros H; congruence.
Qed.

Lemma os_path_isfile_stat fs p :
  os_path_isfile fs p = true <-> exists c, stat_path fs p = IsFile c.
Proof.
  unfold os_path_isfile, stat_path, stat, lookup_path.
  destruct (walk fs (components p)) as [[t|es]|]; split; intros H;
    try discriminate; eauto; destruct H; discriminate.
Qed.

(** [os.rename] of a regular file onto a path that is free or holds a
    regular file: the file is at the new path, with its content, the old
    path is gone, and nothing else has changed. *)
Lemma os_rename_file fs src dst sd sname dd dname c :
  components src = sd ++ [sname] -> components dst = dd ++ [dname] ->
  stat fs (sd ++ [sname]) = IsFile c ->
  stat fs dd = IsDir ->
  stat fs (dd ++ [dname]) <> IsDir ->
  sd ++ [sname] <> dd ++ [dname] ->
  exists fs',
    os_rename fs src dst = inr fs' /\
    forall q, stat fs' q = if decide (q = dd ++ [dname]) then IsFile c
                           else if decide (q = sd ++ [sname]) then Absent
                           else stat fs q.
Proof.
  intros Hs Hd Hsrc Hdd Hdst Hne. unfold os_rename.
  rewrite Hs, Hd, !unsnoc_app.
  pose proof (proj1 (stat_file_walk _ _ _) Hsrc) as Hw. rewrite Hw.
  destruct (walk_parent _ _ _ _ Hw) as [es Hsd].
  assert (Hget : od_get sname es = Some (File c)) by now rewrite <- (walk_snoc _ _ _ _ Hsd).
  destruct (update_dir_Some sd (od_del sname) fs es Hsd) as [fs1 Hup1].
  pose proof (stat_update_dir sd sname (od_del sname) fs fs1 es Hsd Hup1) as Hst1.
  rewrite od_get_del_eq in Hst1. cbn [stat_entry] in Hst1.
  specialize (Hst1 (fun c' Hc => od_get_del_ne sname c' es (not_eq_sym Hc))).
  rewrite Hget in Hst1. specialize (Hst1 I I).
  assert (Hdd1 : stat fs1 dd = IsDir).
  { rewrite Hst1. destruct (decide (dd = sd ++ [sname])) as [->|_]; [congruence|exact Hdd]. }
  apply stat_walk_dir in Hdd1 as [esd Hwd].
  destruct (update_dir_Some dd (od_set dname (File c)) fs1 esd Hwd) as [fs2 Hup2].
  pose proof (stat_update_dir dd dname (od_set dname (File c)) fs1 fs2 esd Hwd Hup2) as Hst2.
  rewrite od_get_set_eq in Hst2. cbn [stat_entry] in Hst2.
  specialize (Hst2 (fun c' Hc => od_get_set_ne dname c' (File c) esd (not_eq_sym Hc))).
  assert (Hleaf : leaf (od_get dname esd)).
  { pose proof (stat_snoc _ _ dname _ Hwd) as E. rewrite Hst1 in E.
    rewrite decide_False in E by congruence.
    destruct (od_get dname esd) as [[|]|]; cbn; auto. }
  specialize (Hst2 Hleaf I).
  exists fs2. split.
  - destruct (walk fs (dd ++ [dname])) as [[t|esx]|] eqn:Hwdst.
    + now rewrite Hup1, Hup2.
    + exfalso. apply Hdst. unfold stat. now rewrite Hwdst.
    + now rewrite Hup1, Hup2.
  - intros q. rewrite Hst2. destruct (decide (q = dd ++ [dname])); [reflexivity|].
    apply Hst1.
Qed.

Lemma shutil_move_file fs src dst sd sname dd dname c :
  components src = sd ++ [sname] -> components dst = dd ++ [dname] ->
  stat fs (sd ++ [sname]) = IsFile c ->
  stat fs dd = IsDir ->
  stat fs (dd ++ [dname]) <> IsDir ->
  sd ++ [sname] <> dd ++ [dname] ->
  exists fs',
    shutil_move fs src dst = inr fs' /\
    forall q, stat fs' q = if decide (q = dd ++ [dname]) then IsFile c
                           else if decide (q = sd ++ [sname]) then Absent
                           else stat fs q.
Proof.
  intros Hs Hd Hsrc Hdd Hdst Hne. unfold shutil_move.
  assert (os_path_isdir fs dst = false) as ->.
  { apply os_path_isdir_stat. unfold stat_path. now rewrite Hd. }
  now apply (os_rename_file fs src dst sd sname dd dname c).
Qed.

(** *** The path of the reference copy *)

Lemma length_append (a b : string) :
  String.length (a ++ b) = String.length a + String.length b.
Proof.
  induction a as [|c a IH]; [reflexivity|].
  rewrite append_cons. cbn [String.length]. now rewrite IH.
Qed.

Lemma no_slash_app a b : no_slash (a ++ b) = no_slash a && no_slash b.
Proof.
  induction a as [|c a IH]; [reflexivity|].
  rewrite append_cons. cbn [no_slash]. rewrite IH. now rewrite andb_assoc.
Qed.

Lemma valid_name_contest f : valid_name f = true -> valid_name ("contest_" ++ f)%string = true.
Proof.
  intros Hf. unfold valid_name. rewrite no_slash_app.
  rewrite (valid_name_no_slash _ Hf). reflexivity.
Qed.

Lemma base_file_of_path names f :
  forallb valid_name names = true -> valid_name f = true ->
  Recorder.base_file_of (path_of (names ++ [f])) = path_of (names ++ [("contest_" ++ f)%string]).
Proof.
  intros Hn Hf. unfold Recorder.base_file_of.
  rewrite !path_of_snoc, os_path_split_join by (auto using nice_path_of).
  reflexivity.
Qed.

Lemma canonical_components_inj p q :
  canonical p -> canonical q -> components p = components q -> p = q.
Proof.
  intros (n & Hn & ->) (m & Hm & ->). rewrite !components_path_of by assumption.
  now intros ->.
Qed.

Lemma enumerated_canonical fs p : enumerated fs p -> canonical p.
Proof.
  intros (names & f & c & Hn & Hf & -> & _). exists (names ++ [f]).
  split; [|reflexivity]. now rewrite forallb_snoc, Hn, Hf.
Qed.

Lemma enumerated_base_canonical fs p : enumerated fs p -> canonical (Recorder.base_file_of p).
Proof.
  intros (names & f & c & Hn & Hf & -> & _). rewrite base_file_of_path by assumption.
  exists (names ++ [("contest_" ++ f)%string]). split; [|reflexivity].
  now rewrite forallb_snoc, Hn, valid_name_contest.
Qed.

Lemma append_inj_l (a b c : string) : (a ++ b)%string = (a ++ c)%string -> b = c.
Proof.
  induction a as [|x a IH]; [auto|]. rewrite !append_cons. intros [= H]. auto.
Qed.

Lemma base_file_of_inj fs p q :
  enumerated fs p -> enumerated fs q ->
  Recorder.base_file_of p = Recorder.base_file_of q -> p = q.
Proof.
  intros (n & f & c & Hn & Hf & -> & _) (m & g & c' & Hm & Hg & -> & _).
  rewrite !base_file_of_path by assumption. intros H.
  apply (f_equal components) in H.
  rewrite !components_path_of in H
    by (rewrite forallb_snoc; apply andb_true_intro; auto using valid_name_contest).
  apply app_inj_tail in H as [-> H]. apply append_inj_l in H. now subst.
Qed.

Lemma enumerated_stat fs p : enumerated fs p -> exists c, stat_path fs p = IsFile c.
Proof.
  intros (names & f & c & Hn & Hf & -> & Hw). exists c.
  unfold stat_path. rewrite components_path_of
    by (rewrite forallb_snoc; apply andb_true_intro; auto).
  now apply stat_file_walk.
Qed.

Lemma enumerated_of_stat fs fs' p c :
  enumerated fs p -> stat_path fs' p = IsFile c -> enumerated fs' p.
Proof.
  intros (names & f & c0 & Hn & Hf & -> & Hw) Hst. exists names, f, c.
  repeat split; try assumption.
  unfold stat_path in Hst. rewrite components_path_of in Hst
    by (rewrite forallb_snoc; apply andb_true_intro; auto).
  now apply stat_file_walk.
Qed.

(** One move of the loop, for a listed file whose reference path is not a
    directory. *)
Lemma move_enumerated fs p :
  enumerated fs p -> stat_path fs (Recorder.base_file_of p) <> IsDir ->
  exists fs',
    shutil_move fs p (Recorder.base_file_of p) = inr fs' /\
    forall q, stat fs' q =
              if decide (q = components (Recorder.base_file_of p)) then stat_path fs p
              else if decide (q = components p) then Absent
              else stat fs q.
Proof.
  intros (names & f & c & Hn & Hf & -> & Hw) Hdst.
  assert (Hnf : forallb valid_name (names ++ [f]) = true)
    by (rewrite forallb_snoc; apply andb_true_intro; auto).
  assert (Hnc : forallb valid_name (names ++ [("contest_" ++ f)%string]) = true)
    by (rewrite forallb_snoc; apply andb_true_intro; auto using valid_name_contest).
  rewrite base_file_of_path in * by assumption.
  unfold stat_path in *. rewrite !components_path_of in * by assumption.
  apply stat_file_walk in Hw. rewrite Hw.
  destruct (walk_parent fs names f (File c)) as [es Hd]; [now apply stat_file_walk|].
  apply (shutil_move_file fs _ _ names f names ("contest_" ++ f)%string c);
    try assumption; try (now apply components_path_of).
  - apply stat_walk_dir. eauto.
  - intros H. apply app_inj_tail in H as [_ H].
    apply (f_equal String.length) in H. rewrite length_append in H.
    cbn in H. lia.
Qed.

(** *** All the moves

    The files moved are listed files of the tree, no two the same; none of
    them has the reference path of another (or of itself), and no reference
    path is a directory. Then every move succeeds; afterwards every file is
    gone from its path and at its reference path, and nothing else has
    changed. *)
Lemma move_all_ok L fs :
  NoDup L ->
  (forall p, p ∈ L -> enumerated fs p) ->
  (forall p, p ∈ L -> Recorder.base_file_of p ∉ L) ->
  (forall p, p ∈ L -> stat_path fs (Recorder.base_file_of p) <> IsDir) ->
  exists fs',
    move_all L fs = (inr tt, fs') /\
    (forall p, p ∈ L ->
       stat_path fs' p = Absent /\
       stat_path fs' (Recorder.base_file_of p) = stat_path fs p) /\
    (forall q, (forall p, p ∈ L ->
                  q <> components p /\ q <> components (Recorder.base_file_of p)) ->
               stat fs' q = stat fs q).
Proof.
  revert fs. induction L as [|p L IH]; intros fs Hnd Hen Hbase Hdst.
  - exists fs. split; [reflexivity|]. split; [intros p Hp; inversion Hp|reflexivity].
  - apply NoDup_cons in Hnd as [HpL Hnd].
    assert (Hp : p ∈ p :: L) by (left; reflexivity).
    assert (Hin : forall x, x ∈ L -> x ∈ p :: L) by (intros; now right).
    destruct (move_enumerated fs p (Hen p Hp) (Hdst p Hp)) as (fs1 & Hm & Hst1).
    (* paths that differ have different components *)
    assert (Hpx : forall x, x ∈ L -> components x <> components p).
    { intros x Hx E. apply canonical_components_inj in E;
        [subst; contradiction| |]; eapply enumerated_canonical; eauto. }
    assert (Hbx : forall x y, x ∈ p :: L -> y ∈ p :: L ->
                              components x <> components (Recorder.base_file_of y)).
    { intros x y Hx Hy E. apply canonical_components_inj in E.
      - subst x. exact (Hbase y Hy Hx).
      - eapply enumerated_canonical; eauto.
      - eapply enumerated_base_canonical; eauto. }
    assert (Hbb : forall x, x ∈ L ->
                  components (Recorder.base_file_of x) <> components (Recorder.base_file_of p)).
    { intros x Hx E. apply canonical_components_inj in E.
      - apply (base_file_of_inj fs) in E; [subst; contradiction|auto|auto].
      - eapply enumerated_base_canonical; eauto.
      - eapply enumerated_base_canonical; eauto. }
    assert (Hkeep : forall x, x ∈ L -> stat_path fs1 x = stat_path fs x).
    { intros x Hx. unfold stat_path. rewrite Hst1.
      rewrite decide_False by (apply Hbx; auto).
      rewrite decide_False by (apply Hpx; auto). reflexivity. }
    destruct (IH fs1) as (fs' & Hmove & Hprop & Hframe); [exact Hnd| | | |].
    { intros x Hx. destruct (enumerated_stat fs x (Hen x (Hin x Hx))) as [c Hc].
      apply (enumerated_of_stat fs _ _ c); [auto|]. now rewrite Hkeep. }
    { intros x Hx Hb. exact (Hbase x (Hin x Hx) (Hin _ Hb)). }
    { intros x Hx. unfold stat_path. rewrite Hst1.
      destruct (decide _); [|destruct (decide _); [discriminate|exact (Hdst x (Hin x Hx))]].
      destruct (enumerated_stat fs p (Hen p Hp)) as [c ->]. discriminate. }
    exists fs'. split; [|split].
    + cbn [move_all]. unfold mbind, Py_bind, writes. rewrite Hm. exact Hmove.
    + intros x Hx. apply elem_of_cons in Hx as [->|Hx].
      * unfold stat_path. split.
        -- rewrite Hframe.
           ++ rewrite Hst1. rewrite decide_False by (apply Hbx; auto).
              now rewrite decide_True.
           ++ intros y Hy. split; [intros E; exact (Hpx y Hy (eq_sym E))|apply Hbx; auto].
        -- rewrite Hframe.
           ++ rewrite Hst1. now rewrite decide_True.
           ++ intros y Hy. split.
              ** intros E. exact (Hbx y p (Hin y Hy) Hp (eq_sym E)).
              ** intros E. exact (Hbb y Hy (eq_sym E)).
      * destruct (Hprop x Hx) as [Ha Hb]. split; [exact Ha|].
        rewrite Hb. now apply Hkeep.
    + intros q Hq. rewrite Hframe by (intros y Hy; apply Hq; auto).
      rewrite Hst1. destruct (Hq p Hp) as [Hq1 Hq2].
      rewrite decide_False by exact Hq2. now rewrite decide_False by exact Hq1.
Qed.

(** ** What a recording has built *)

Lemma test_case_of_keys stdin_value tc0 exe command proc lines new_files order :
  tc0 = [] \/ tc0 = [("executable", PStr exe)] ->
  let tc := test_case_of stdin_value tc0 command proc lines new_files order in
  od_get "return-code" tc = Some (PInt (returncode proc)) /\
  od_mem "argv" tc = truthy_list (command_tail command) /\
  od_mem "stdin" tc = truthy_list lines /\
  od_mem "stdout" tc = truthy_str (stdout proc) /\
  od_mem "stderr" tc = truthy_str (stderr proc) /\
  od_mem "ofstreams" tc = bool_decide (new_files ≠ ∅).
Proof.
  intros [-> | ->]; cbn zeta; unfold test_case_of, field;
    destruct (truthy_list (command_tail command)), (truthy_list lines),
      (truthy_str (stdout proc)), (truthy_str (stderr proc)),
      (bool_decide (new_files ≠ ∅)); repeat split; reflexivity.
Qed.

Lemma truthy_list_false {A} (l : list A) : truthy_list l = false <-> l = [].
Proof. destruct l; split; intros H; try discriminate; reflexivity. Qed.

Lemma truthy_str_false s : truthy_str s = false <-> s = "".
Proof. destruct s; split; intros H; try discriminate; reflexivity. Qed.

Section RecorderBuilt.
Variable load : string -> res value.
Variable dump : value -> string.
Variable stdin_value : list string -> value.
Variable env : Env.
Variable configuration : string.

Notation build := (Recorder.build load stdin_value env configuration).
Notation record := (Recorder.record load dump stdin_value env configuration).
Notation open_recipe := (Recorder.open_recipe load configuration).

Lemma open_recipe_inv test_name command fs doc0 fs1 :
  open_recipe test_name command fs = (inr (inr doc0), fs1) ->
  exists d tcs tc0 exe,
    doc0 = install d tcs test_name tc0 /\ od_get test_name tcs = None /\
    command0 command = inr exe /\ (tc0 = [] \/ tc0 = [("executable", PStr exe)]).
Proof.
  unfold Recorder.open_recipe. destruct (os_path_exists fs configuration).
  - destruct (read_file fs configuration) as [e|text]; [discriminate|].
    cbn [mbind res_bind]. destruct (load text) as [e|doc]; [discriminate|].
    cbn [mbind res_bind]. intros H.
    destruct (Recorder.merge_recipe test_name command doc) as [e|r] eqn:Hm;
      [discriminate|].
    apply merge_recipe_inv in Hm
      as [->|(d & tcs & exe & dflt & _ & _ & Hn & He & _ & ->)]; [discriminate|].
    inversion H; subst. exists d, tcs. eexists. exists exe.
    repeat split; try assumption. destruct (is_str exe dflt); auto.
  - unfold Recorder.fresh_recipe. destruct (command0 command) as [e|exe] eqn:He;
      [discriminate|].
    cbn [mbind res_bind]. unfold mret, res_ret. intros [= <- <-].
    exists [("executable", PStr exe)], [], [], exe. repeat split; auto.
Qed.

Lemma tc0_fresh tc0 exe :
  tc0 = [] \/ tc0 = [("executable", PStr exe)] -> fresh_test_case tc0.
Proof. intros [-> | ->]; [apply fresh_test_case_nil|apply fresh_test_case_executable]. Qed.

Lemma build_built test_name command fs doc fs1 :
  build test_name command fs = (inr (inr doc), fs1) ->
  built stdin_value env test_name command fs doc fs1.
Proof.
  intros H. apply build_inv in H as (files & proc & after & Hs & Hp & Ha & Hopen).
  destruct (open_recipe test_name command (fs_after proc)) as [[e|[m|doc0]] fs2] eqn:Ho;
    [contradiction|destruct Hopen; discriminate|].
  destruct Hopen as (doc' & Hfill & [= <-]).
  apply open_recipe_inv in Ho as (d & tcs & tc0 & exe & -> & Hn & He & Htc0).
  rewrite fill_test_case_install in Hfill by exact (tc0_fresh _ _ Htc0).
  cbn zeta in Hfill.
  exists files, proc, after, d, tcs, tc0, exe.
  repeat (split; [assumption|]).
  destruct (bool_decide (after ∖ files ≠ ∅)).
  - destruct (move_all _ _) as [[e|[]] fs3]; [discriminate|]. now inversion Hfill.
  - now inversion Hfill.
Qed.

Lemma record_success_inv test_name command fs fs' :
  record test_name command fs = (inr Ret0, fs') ->
  exists doc fs1,
    built stdin_value env test_name command fs doc fs1 /\
    write_file fs1 configuration (dump doc) = inr fs'.
Proof.
  unfold Recorder.record, mbind, Py_bind. intros H.
  destruct (build test_name command fs) as [[e|[m|doc]] fs1] eqn:Hb; try discriminate.
  exists doc, fs1. split; [now apply build_built|].
  unfold writes in H. destruct (write_file fs1 configuration (dump doc)) as [e|fs2];
    [discriminate|].
  unfold mret, Py_ret in H. now inversion H.
Qed.

End RecorderBuilt.

Lemma built_keys stdin_value env test_name command fs doc fs1 :
  built stdin_value env test_name command fs doc fs1 ->
  keys_as_recorded env test_name command fs doc.
Proof.
  intros (files & proc & after & d & tcs & tc0 & exe & Hs & Hp & Ha & Hn & He & Htc0 & -> & _).
  exists proc, files, after. eexists.
  split; [exact Hp|]. split; [exact Hs|]. split; [exact Ha|].
  split; [apply get_at_install|].
  destruct (test_case_of_keys stdin_value tc0 exe command proc (recorded_lines env proc)
              (after ∖ files) (set_iter env (after ∖ files)) Htc0)
    as (Hrc & Hargv & Hstdin & Hout & Herr & Hofs).
  split; [exact Hrc|].
  rewrite Hargv, Hstdin, Hout, Herr, Hofs.
  rewrite !truthy_list_false, !truthy_str_false.
  repeat split; try tauto.
  - intros Hb. apply bool_decide_eq_false in Hb. now apply dec_stable in Hb.
  - intros Hb. apply bool_decide_eq_false. rewrite Hb. auto.
Qed.


(** ** The two files, side by side *)

Lemma od_alter_set {V} (f : V -> V) k v d : od_alter f k (od_set k v d) = od_set k (f v) d.
Proof.
  induction d as [|[k0 v0] d IH]; cbn [od_set od_alter].
  - now rewrite String.eqb_refl.
  - destruct (String.eqb k k0) eqn:E; cbn [od_alter]; rewrite E; [reflexivity|now rewrite IH].
Qed.

Lemma stdin_joined_install d tcs test_name tc :
  stdin_joined test_name (install d tcs test_name tc) =
  install d tcs test_name (od_alter join_lines "stdin" tc).
Proof.
  unfold stdin_joined, install. cbn [in_dict]. rewrite od_alter_set. cbn [in_dict].
  now rewrite od_alter_set.
Qed.

Lemma text_of_strs l : map text_of (map PStr l) = l.
Proof. induction l as [|s l IH]; [reflexivity|]. cbn [map text_of]. now rewrite IH. Qed.

Lemma test_case_of_joined tc0 exe command proc lines new_files order :
  tc0 = [] \/ tc0 = [("executable", PStr exe)] ->
  od_alter join_lines "stdin" (test_case_of strs tc0 command proc lines new_files order) =
  test_case_of joined_stdin tc0 command proc lines new_files order.
Proof.
  intros [-> | ->]; unfold test_case_of, field, joined_stdin;
    destruct (truthy_list (command_tail command)), (truthy_list lines),
      (truthy_str (stdout proc)), (truthy_str (stderr proc)),
      (bool_decide (new_files ≠ ∅)); cbn; rewrite ?text_of_strs; reflexivity.
Qed.

(** The value stored under [stdin] has no part in what else happens. *)
Lemma build_stdin load env configuration test_name command fs :
  match Recorder.build load strs env configuration test_name command fs,
        Recorder.build load joined_stdin env configuration test_name command fs with
  | (inl e1, fs1), (inl e2, fs2) => e1 = e2 /\ fs1 = fs2
  | (inr (inl m1), fs1), (inr (inl m2), fs2) => m1 = m2 /\ fs1 = fs2
  | (inr (inr d1), fs1), (inr (inr d2), fs2) =>
      fs1 = fs2 /\ same_but_stdin env test_name command fs d1 d2
  | _, _ => False
  end.
Proof.
  unfold Recorder.build, mbind, Py_bind, reads, Popen.
  destruct (snapshot fs) as [e|files] eqn:Hs; [auto|].
  destruct (popen env command fs) as [e|proc] eqn:Hp; [auto|].
  destruct (snapshot (fs_after proc)) as [e|after] eqn:Ha; [auto|].
  destruct (Recorder.open_recipe load configuration test_name command (fs_after proc))
    as [[e|[m|doc0]] fs2] eqn:Ho; [auto|unfold mret, Py_ret; auto|].
  pose proof (open_recipe_fs load configuration test_name command (fs_after proc)) as Hfs.
  rewrite Ho in Hfs. cbn [snd] in Hfs. subst fs2.
  apply open_recipe_inv in Ho as (d & tcs & tc0 & exe & -> & Hn & He & Htc0).
  rewrite !fill_test_case_install by exact (tc0_fresh _ _ Htc0). cbn zeta.
  assert (Hsame : same_but_stdin env test_name command fs
            (install d tcs test_name
               (test_case_of strs tc0 command proc (recorded_lines env proc)
                  (after ∖ files) (set_iter env (after ∖ files))))
            (install d tcs test_name
               (test_case_of joined_stdin tc0 command proc (recorded_lines env proc)
                  (after ∖ files) (set_iter env (after ∖ files))))).
  { exists files, proc, after, d, tcs, tc0. repeat split; try assumption.
    rewrite stdin_joined_install. now rewrite (test_case_of_joined _ exe). }
  destruct (bool_decide (after ∖ files ≠ ∅)).
  - destruct (move_all _ _) as [[e|[]] fs3]; [auto|]. unfold mret, Py_ret. auto.
  - unfold mret, Py_ret. auto.
Qed.

Lemma open_recipe_ext load1 load2 configuration test_name command fs :
  (forall text, load1 text = load2 text) ->
  Recorder.open_recipe load1 configuration test_name command fs =
  Recorder.open_recipe load2 configuration test_name command fs.
Proof.
  intros Hext. unfold Recorder.open_recipe.
  destruct (os_path_exists fs configuration); [|reflexivity].
  destruct (read_file fs configuration) as [e|text]; [reflexivity|].
  cbn [mbind res_bind]. now rewrite Hext.
Qed.

Lemma build_ext load1 load2 stdin_value env configuration test_name command fs :
  (forall text, load1 text = load2 text) ->
  Recorder.build load1 stdin_value env configuration test_name command fs =
  Recorder.build load2 stdin_value env configuration test_name command fs.
Proof.
  intros Hext. unfold Recorder.build, mbind, Py_bind, reads, Popen.
  destruct (snapshot fs) as [e|files]; [reflexivity|].
  destruct (popen env command fs) as [e|proc]; [reflexivity|].
  destruct (snapshot (fs_after proc)) as [e|after]; [reflexivity|].
  now rewrite (open_recipe_ext load1 load2) by exact Hext.
Qed.

(** ** The moves of a recording *)

(** The new files, as the loop meets them, are listed files of the tree the
    child left, no two the same. *)
Lemma new_files_listed env fs_child (files after : gset string) :
  working_dir fs_child -> snapshot fs_child = inr after ->
  set_iter env (after ∖ files) ≡ₚ elements (after ∖ files) ->
  NoDup (set_iter env (after ∖ files)) /\
  (forall p, p ∈ set_iter env (after ∖ files) <-> p ∈ after ∖ files) /\
  (forall p, p ∈ after ∖ files -> enumerated fs_child p).
Proof.
  intros Hwd Ha Hperm. split; [|split].
  - rewrite Hperm. apply NoDup_elements.
  - intros p. rewrite Hperm. apply elem_of_elements.
  - intros p Hp. apply elem_of_difference in Hp as [Hp _].
    destruct (snapshot_ok _ Hwd) as (after' & Ha' & Hen).
    rewrite Ha in Ha'. inversion Ha'; subst. now apply Hen.
Qed.

Section RecorderMoves.
Variable load : string -> res value.
Variable stdin_value : list string -> value.
Variable env : Env.
Variable configuration : string.

(** When the recipe has been opened, the moves are all made, none raises,
    and the document is built. *)
Lemma build_moves test_name command fs files proc after doc0 fs2 :
  snapshot fs = inr files -> popen env command fs = inr proc ->
  snapshot (fs_after proc) = inr after -> working_dir (fs_after proc) ->
  Recorder.open_recipe load configuration test_name command (fs_after proc)
    = (inr (inr doc0), fs2) ->
  set_iter env (after ∖ files) ≡ₚ elements (after ∖ files) ->
  (forall p, p ∈ after ∖ files -> Recorder.base_file_of p ∉ after ∖ files) ->
  (forall p, p ∈ after ∖ files ->
             os_path_isdir (fs_after proc) (Recorder.base_file_of p) = false) ->
  exists doc fs1,
    Recorder.build load stdin_value env configuration test_name command fs
      = (inr (inr doc), fs1) /\
    (forall p, p ∈ after ∖ files ->
       stat_path fs1 p = Absent /\
       stat_path fs1 (Recorder.base_file_of p) = stat_path (fs_after proc) p) /\
    (forall q, (forall p, p ∈ after ∖ files ->
                  q <> components p /\ q <> components (Recorder.base_file_of p)) ->
               stat fs1 q = stat (fs_after proc) q).
Proof.
  intros Hs Hp Ha Hwd Ho Hperm Hbase Hdir.
  destruct (new_files_listed env _ files after Hwd Ha Hperm) as (Hnd & Hin & Hen).
  rewrite (build_run _ _ _ _ _ _ _ _ _ _ Hs Hp Ha).
  pose proof (open_recipe_fs load configuration test_name command (fs_after proc)) as Hfs.
  rewrite Ho in Hfs. cbn [snd] in Hfs. subst fs2. rewrite Ho.
  apply open_recipe_inv in Ho as (d & tcs & tc0 & exe & -> & Hn & He & Htc0).
  rewrite fill_test_case_install by exact (tc0_fresh _ _ Htc0). cbn zeta.
  destruct (bool_decide (after ∖ files ≠ ∅)) eqn:Hne.
  - destruct (move_all_ok (set_iter env (after ∖ files)) (fs_after proc)) as
      (fs1 & Hmove & Hprop & Hframe); [exact Hnd| | | |].
    { intros p Hx. apply Hen. now apply Hin. }
    { intros p Hx Hb. apply Hin in Hx, Hb. exact (Hbase p Hx Hb). }
    { intros p Hx. apply os_path_isdir_stat. apply Hdir. now apply Hin. }
    rewrite Hmove. eexists. exists fs1. split; [reflexivity|]. split.
    + intros p Hx. apply Hprop. now apply Hin.
    + intros q Hq. apply Hframe. intros p Hx. apply Hq. now apply Hin.
  - apply bool_decide_eq_false in Hne. apply dec_stable in Hne.
    eexists. exists (fs_after proc). split; [reflexivity|]. split.
    + intros p Hx. rewrite Hne in Hx. now apply not_elem_of_empty in Hx.
    + reflexivity.
Qed.
End RecorderMoves.

(** [shutil.move] onto a path that holds a regular file: no exception, the
    file that was there is replaced. *)
Lemma move_onto_file fs p old :
  enumerated fs p -> stat_path fs (Recorder.base_file_of p) = IsFile old ->
  exists fs',
    shutil_move fs p (Recorder.base_file_of p) = inr fs' /\
    stat_path fs' (Recorder.base_file_of p) = stat_path fs p /\
    stat_path fs' p = Absent.
Proof.
  intros Hen Hold.
  destruct (move_enumerated fs p Hen) as (fs' & Hm & Hst); [congruence|].
  exists fs'. split; [exact Hm|]. unfold stat_path at 1 3. rewrite !Hst.
  rewrite decide_True by reflexivity. split; [reflexivity|].
  destruct (decide (components p = components (Recorder.base_file_of p))) as [E|_].
  - apply canonical_components_inj in E;
      [|eapply enumerated_canonical; eauto|eapply enumerated_base_canonical; eauto].
    destruct Hen as (names & f & c & Hn & Hf & -> & _).
    rewrite base_file_of_path in E by assumption.
    apply (f_equal components) in E.
    rewrite !components_path_of in E
      by (rewrite forallb_snoc; apply andb_true_intro; auto using valid_name_contest).
    apply app_inj_tail in E as [_ E].
    apply (f_equal String.length) in E. rewrite length_append in E. cbn in E. lia.
  - now rewrite decide_True.
Qed.

Lemma test_case_of_ofstreams stdin_value tc0 exe command proc lines new_files order :
  tc0 = [] \/ tc0 = [("executable", PStr exe)] ->
  od_get "ofstreams" (test_case_of stdin_value tc0 command proc lines new_files order) =
  if bool_decide (new_files ≠ ∅) then Some (PList (map ofstream order)) else None.
Proof.
  intros [-> | ->]; unfold test_case_of, field;
    destruct (truthy_list (command_tail command)), (truthy_list lines),
      (truthy_str (stdout proc)), (truthy_str (stderr proc)),
      (bool_decide (new_files ≠ ∅)); reflexivity.
Qed.

Section RecorderMoved.
Variable load : string -> res value.
Variable dump : value -> string.
Variable stdin_value : list string -> value.
Variable env : Env.
Variable configuration : string.

Lemma record_moved test_name command fs files proc after fs' :
  popen env command fs = inr proc -> snapshot fs = inr files ->
  snapshot (fs_after proc) = inr after -> working_dir (fs_after proc) ->
  set_iter env (after ∖ files) ≡ₚ elements (after ∖ files) ->
  (forall p, p ∈ after ∖ files -> Recorder.base_file_of p ∉ after ∖ files) ->
  (forall p, p ∈ after ∖ files ->
             os_path_isdir (fs_after proc) (Recorder.base_file_of p) = false) ->
  Recorder.record load dump stdin_value env configuration test_name command fs
    = (inr Ret0, fs') ->
  exists doc,
    read_file fs' configuration = inr (dump doc) /\
    moved_and_recorded env test_name configuration proc (after ∖ files) doc fs'.
Proof.
  intros Hp Hs Ha Hwd Hperm Hbase Hdir H.
  unfold Recorder.record, mbind, Py_bind in H.
  destruct (Recorder.build load stdin_value env configuration test_name command fs)
    as [[e|[m|doc]] fs1] eqn:Hb; try discriminate.
  unfold writes in H.
  destruct (write_file fs1 configuration (dump doc)) as [e|fs2] eqn:Hw; [discriminate|].
  unfold mret, Py_ret in H. inversion H; subst fs2. clear H.
  exists doc. split; [exact (write_file_read _ _ _ _ Hw)|].
  pose proof (build_built _ _ _ _ _ _ _ _ _ Hb)
    as (files' & proc' & after' & d & tcs & tc0 & exe & Hs' & Hp' & Ha' & Hn & He & Htc0
        & Hdoc & _).
  rewrite Hs in Hs'. rewrite Hp in Hp'. inversion Hs'; inversion Hp'; subst files' proc'.
  rewrite Ha in Ha'. inversion Ha'; subst after'. clear Hs' Hp' Ha'.
  pose proof (build_inv _ _ _ _ _ _ _ _ _ Hb) as (files' & proc' & after' & Hs' & Hp' & Ha' & Ho).
  rewrite Hs in Hs'. rewrite Hp in Hp'. inversion Hs'; inversion Hp'; subst files' proc'.
  rewrite Ha in Ha'. inversion Ha'; subst after'. clear Hs' Hp' Ha'.
  destruct (Recorder.open_recipe load configuration test_name command (fs_after proc))
    as [[e|[m|doc0]] fs3] eqn:Hopen; [contradiction|destruct Ho; discriminate|].
  destruct (build_moves load stdin_value env configuration test_name command fs files proc
              after doc0 fs3 Hs Hp Ha Hwd Hopen Hperm Hbase Hdir)
    as (doc' & fs1' & Hb' & Hprop & _).
  rewrite Hb in Hb'. inversion Hb'; subst doc' fs1'. clear Hb'.
  destruct (new_files_listed env _ files after Hwd Ha Hperm) as (Hnd & Hin & Hen).
  eexists. split; [rewrite Hdoc; apply get_at_install|].
  split; [exact (proj1 (test_case_of_keys _ _ exe _ _ _ _ _ Htc0))|].
  rewrite (test_case_of_ofstreams _ _ exe) by exact Htc0.
  split; [intros Hne; now rewrite bool_decide_eq_true_2|].
  split; [intros He0; rewrite bool_decide_eq_false_2; [reflexivity|]; intros Hne; auto|].
  split; [rewrite length_map, Hperm; reflexivity|].
  intros p Hx. split; [apply in_map, list_elem_of_In; now apply Hin|].
  destruct (Hen p Hx) as (names & f & c & Hnames & Hf & Hpath & Hwalk).
  split; [exists names, f; split; [exact Hpath|subst p; now apply base_file_of_path]|].
  split; [apply (enumerated_stat _ _ (Hen p Hx))|].
  destruct (Hprop p Hx) as [Hgone Hcopy].
  split; intros Hc.
  - unfold stat_path. rewrite (write_file_stat _ _ _ _ Hw).
    rewrite decide_False by congruence. exact Hgone.
  - rewrite <- Hcopy. unfold stat_path. rewrite (write_file_stat _ _ _ _ Hw).
    now rewrite decide_False by congruence.
Qed.
End RecorderMoved.

Lemma moved_scenario_C env test_name configuration proc (new_files : gset string) doc fs' :
  set_iter env new_files ≡ₚ elements new_files ->
  moved_and_recorded env test_name configuration proc new_files doc fs' ->
  new_files = {["./out.txt"]} -> returncode proc = 2%Z ->
  scenario_C test_name doc.
Proof.
  intros Hperm (tc & Hget & Hrc & Hofs & _) -> Hrc2.
  exists tc. split; [exact Hget|]. split; [now rewrite Hrc, Hrc2|].
  rewrite Hofs by (intros E; apply (f_equal size) in E;
                   rewrite size_singleton, size_empty in E; discriminate).
  rewrite elements_singleton in Hperm. apply Permutation_singleton_r in Hperm.
  rewrite Hperm. reflexivity.
Qed.

(** ** Loading what contest-gen.py has dumped *)

Lemma construct_ordered_dict d :
  construct (represent (PDict d)) = raise (ConstructorError tag_ordered_dict).
Proof. reflexivity. Qed.

Lemma open_recipe_load_error load configuration test_name command fs text e :
  read_file fs configuration = inr text -> load text = inl e ->
  fst (Recorder.open_recipe load configuration test_name command fs) = inl e.
Proof.
  intros Hr Hl. unfold Recorder.open_recipe.
  assert (os_path_exists fs configuration = true) as ->.
  { unfold read_file in Hr. unfold os_path_exists.
    destruct (lookup_path fs configuration) as [[|]|]; [reflexivity|reflexivity|discriminate]. }
  rewrite Hr. cbn [mbind res_bind]. now rewrite Hl.
Qed.

Lemma built_is_dict stdin_value env test_name command fs doc fs1 :
  built stdin_value env test_name command fs doc fs1 -> exists d, doc = PDict d.
Proof.
  intros (files & proc & after & d & tcs & tc0 & exe & _ & _ & _ & _ & _ & _ & -> & _).
  unfold install. eauto.
Qed.

(** * The claims *)

Lemma working_dir_recorded : working_dir Demo.recorded_dir.
Proof. split; reflexivity. Qed.

(** ** C6 *)

(** C6, as the code has it. A call of [record_test] that returns, returns 0
    or the duplicate-name message; exceptions are not caught. What [Popen]
    raises when the executable cannot be found or started comes out of
    [record_test], and the tree is then as it was: no file moved, no recipe
    written. *)
Theorem spawn_error_leaves_tree yaml_load yaml_dump compose emit env configuration
    test_name command fs :
  working_dir fs ->
  (forall r fs',
      Runner.record_test yaml_load yaml_dump env configuration test_name command fs
        = (inr r, fs') \/
      Standalone.record_test compose emit env command test_name fs = (inr r, fs') ->
      r = Ret0 \/ r = RetMsg (duplicate_message test_name)) /\
  (forall e, popen env command fs = inl e ->
      Runner.record_test yaml_load yaml_dump env configuration test_name command fs
        = (raise e, fs) /\
      Standalone.record_test compose emit env command test_name fs = (raise e, fs)).
Proof.
  intros Hwd. split.
  - intros r fs' [H|H].
    + rewrite Runner_record_test_eq in H. exact (record_returns _ _ _ _ _ _ _ _ _ _ H).
    + rewrite Standalone_record_test_eq in H. exact (record_returns _ _ _ _ _ _ _ _ _ _ H).
  - intros e He. rewrite Runner_record_test_eq, Standalone_record_test_eq.
    split; now apply record_spawn_error.
Qed.

Lemma spawn_error_leaves_tree_witness :
  working_dir Demo.recorded_dir /\
  Runner.record_test Demo.yaml_load Demo.yaml_dump (Demo.env []) "recipe.yaml" "c"
    ["nosuch"] Demo.recorded_dir
  = (raise (FileNotFoundError "nosuch"), Demo.recorded_dir).
Proof.
  split; [exact working_dir_recorded|].
  apply (spawn_error_leaves_tree Demo.yaml_load Demo.yaml_dump Demo.compose Demo.emit
           (Demo.env []) "recipe.yaml" "c" ["nosuch"] Demo.recorded_dir
           working_dir_recorded).
  reflexivity.
Defined.

(** C6, as stated, fails: the executable [nosuch] does not exist, and the
    call does not return 0 or a string; [FileNotFoundError] crosses the
    boundary, in both files. *)
Lemma exception_crosses_boundary :
  Runner.record_test Demo.yaml_load Demo.yaml_dump (Demo.env []) "recipe.yaml" "c"
    ["nosuch"] Demo.recorded_dir
  = (raise (FileNotFoundError "nosuch"), Demo.recorded_dir) /\
  Standalone.record_test Demo.compose Demo.emit (Demo.env []) ["nosuch"] "c"
    Demo.recorded_dir
  = (raise (FileNotFoundError "nosuch"), Demo.recorded_dir) /\
  ~ (exists r fs',
        Runner.record_test Demo.yaml_load Demo.yaml_dump (Demo.env []) "recipe.yaml" "c"
          ["nosuch"] Demo.recorded_dir = (inr r, fs')).
Proof.
  assert (H : Runner.record_test Demo.yaml_load Demo.yaml_dump (Demo.env []) "recipe.yaml"
                "c" ["nosuch"] Demo.recorded_dir
              = (raise (FileNotFoundError "nosuch"), Demo.recorded_dir))
    by (vm_compute; reflexivity).
  split; [exact H|]. split; [vm_compute; reflexivity|].
  intros (r & fs' & Hr). rewrite H in Hr. discriminate.
Qed.

(** ** C1 *)

(** C1. The child has run and left the tree [fs_after proc]; the recipe
    file read there holds a document whose test cases contain [test_name].
    Then [record_test] returns the duplicate-name message (not 0) and
    leaves the tree as the child left it: the recipe file is not written,
    so it still holds the same text, read as the same document, with the
    entry under [test_name] as it was and no entry added. *)
Theorem duplicate_name_rejected yaml_load yaml_dump compose emit env configuration
    test_name command fs proc text d tcs :
  working_dir fs -> popen env command fs = inr proc -> working_dir (fs_after proc) ->
  od_mem test_name tcs = true ->
  (recipe_on_disk yaml_load (fs_after proc) configuration text d tcs ->
   exists fs',
     Runner.record_test yaml_load yaml_dump env configuration test_name command fs
       = (inr (RetMsg (duplicate_message test_name)), fs') /\
     RetMsg (duplicate_message test_name) <> Ret0 /\
     fs' = fs_after proc /\
     recipe_on_disk yaml_load fs' configuration text d tcs) /\
  (recipe_on_disk (Standalone.ordered_load compose) (fs_after proc) "contest_recipe.yaml"
     text d tcs ->
   exists fs',
     Standalone.record_test compose emit env command test_name fs
       = (inr (RetMsg (duplicate_message test_name)), fs') /\
     RetMsg (duplicate_message test_name) <> Ret0 /\
     fs' = fs_after proc /\
     recipe_on_disk (Standalone.ordered_load compose) fs' "contest_recipe.yaml" text d tcs).
Proof.
  intros Hwd Hp Hwd' Hm. split; intros Hdisk; exists (fs_after proc).
  - rewrite Runner_record_test_eq.
    rewrite (record_duplicate _ _ _ _ _ _ _ _ _ _ _ _ Hwd Hp Hwd' Hdisk Hm).
    repeat split; try discriminate; apply Hdisk.
  - rewrite Standalone_record_test_eq.
    rewrite (record_duplicate _ _ _ _ _ _ _ _ _ _ _ _ Hwd Hp Hwd' Hdisk Hm).
    repeat split; try discriminate; apply Hdisk.
Qed.

(** Scenario D: [echo hello] recorded again under the name [hello]. *)
Lemma duplicate_name_rejected_witness :
  working_dir Demo.recorded_dir /\
  od_mem "hello" [("hello", PDict Demo.hello_case)] = true /\
  Runner.record_test Demo.yaml_load Demo.yaml_dump (Demo.env []) "recipe.yaml" "hello"
    ["echo"; "hello"] Demo.recorded_dir
  = (inr (RetMsg "hello is already a test case! Choose a new name!"), Demo.recorded_dir) /\
  Standalone.record_test Demo.compose Demo.emit (Demo.env []) ["echo"; "hello"] "hello"
    Demo.recorded_dir
  = (inr (RetMsg "hello is already a test case! Choose a new name!"), Demo.recorded_dir).
Proof.
  pose proof (duplicate_name_rejected Demo.yaml_load Demo.yaml_dump Demo.compose Demo.emit
                (Demo.env []) "recipe.yaml" "hello" ["echo"; "hello"] Demo.recorded_dir
                (Demo.finished 0 ("hello" ++ newline) Demo.recorded_dir)
                Demo.recipe_text
                [("executable", PStr "echo");
                 ("test-cases", PDict [("hello", PDict Demo.hello_case)])]
                [("hello", PDict Demo.hello_case)]
                working_dir_recorded eq_refl working_dir_recorded eq_refl) as [HR HS].
  split; [exact working_dir_recorded|]. split; [reflexivity|]. split.
  - destruct HR as (fs' & H & _ & -> & _); [repeat split; reflexivity|exact H].
  - destruct HS as (fs' & H & _ & -> & _); [repeat split; vm_compute; reflexivity|exact H].
Defined.

(** ** C5 *)

(** C5, as the code has it. The duplicate check (line 114 of runner.py, 170
    of contest-gen.py) comes after the child has run and before the moves
    (lines 139-147, 195-203): when the duplicate-name message is returned,
    the tree is the one the child left, and every file the child created is
    still a regular file at its original path. No move has been made. *)
Theorem duplicate_check_before_moves yaml_load yaml_dump compose emit env configuration
    test_name command fs message fs' :
  Runner.record_test yaml_load yaml_dump env configuration test_name command fs
    = (inr (RetMsg message), fs') \/
  Standalone.record_test compose emit env command test_name fs
    = (inr (RetMsg message), fs') ->
  message = duplicate_message test_name /\
  exists proc files after,
    popen env command fs = inr proc /\ fs' = fs_after proc /\
    snapshot fs = inr files /\ snapshot (fs_after proc) = inr after /\
    forall p, p ∈ after ∖ files -> os_path_isfile fs' p = true.
Proof.
  intros [H|H].
  - rewrite Runner_record_test_eq in H. exact (record_message_inv _ _ _ _ _ _ _ _ _ _ H).
  - rewrite Standalone_record_test_eq in H. exact (record_message_inv _ _ _ _ _ _ _ _ _ _ H).
Qed.

Lemma duplicate_check_before_moves_witness :
  exists proc files after,
    popen (Demo.env []) ["writer"] Demo.recorded_dir = inr proc /\
    Demo.created Demo.recorded_dir [("out.txt", "data")] = fs_after proc /\
    snapshot Demo.recorded_dir = inr files /\ snapshot (fs_after proc) = inr after /\
    forall p, p ∈ after ∖ files ->
              os_path_isfile (Demo.created Demo.recorded_dir [("out.txt", "data")]) p = true.
Proof.
  apply (duplicate_check_before_moves Demo.yaml_load Demo.yaml_dump Demo.compose Demo.emit
           (Demo.env []) "recipe.yaml" "hello" ["writer"] Demo.recorded_dir
           "hello is already a test case! Choose a new name!"
           (Demo.created Demo.recorded_dir [("out.txt", "data")])).
  left. vm_compute. reflexivity.
Defined.

(** C5, as stated, fails: [writer] creates [out.txt] and is recorded under
    the name [hello], which the recipe has. The duplicate-name message is
    returned, [out.txt] is where the child wrote it, and there is no
    [contest_out.txt]: the file was not moved. *)
Lemma duplicate_error_without_moves :
  exists fs',
    Runner.record_test Demo.yaml_load Demo.yaml_dump (Demo.env []) "recipe.yaml" "hello"
      ["writer"] Demo.recorded_dir
    = (inr (RetMsg (duplicate_message "hello")), fs') /\
    Standalone.record_test Demo.compose Demo.emit (Demo.env []) ["writer"] "hello"
      Demo.recorded_dir
    = (inr (RetMsg (duplicate_message "hello")), fs') /\
    stat_path fs' "./out.txt" = IsFile "data" /\
    stat_path fs' "./contest_out.txt" = Absent.
Proof. eexists. repeat split; vm_compute; reflexivity. Qed.

(** ** C9 *)

(** C9. The recipe file exists and is read as [doc]. When [doc] has no
    [test-cases] to subscript, [record_test] raises what the subscript
    raises ([KeyError] for a mapping without the key, [TypeError] for a
    document that is not a mapping); when it has [test-cases] without
    [test_name] but no [executable], [record_test] raises
    [KeyError('executable')]. Neither is returned as a message. *)
Theorem malformed_recipe_raises yaml_load yaml_dump compose emit env configuration
    test_name command fs proc text :
  working_dir fs -> popen env command fs = inr proc -> working_dir (fs_after proc) ->
  (forall doc e,
      read_file (fs_after proc) configuration = inr text -> yaml_load text = inr doc ->
      getitem doc "test-cases" = raise e ->
      Runner.record_test yaml_load yaml_dump env configuration test_name command fs
        = (raise e, fs_after proc)) /\
  (forall d tcs exe argv,
      recipe_on_disk yaml_load (fs_after proc) configuration text d tcs ->
      od_mem test_name tcs = false -> od_get "executable" d = None ->
      command = exe :: argv ->
      Runner.record_test yaml_load yaml_dump env configuration test_name command fs
        = (raise (KeyError "executable"), fs_after proc)) /\
  (forall doc e,
      read_file (fs_after proc) "contest_recipe.yaml" = inr text ->
      Standalone.ordered_load compose text = inr doc ->
      getitem doc "test-cases" = raise e ->
      Standalone.record_test compose emit env command test_name fs
        = (raise e, fs_after proc)) /\
  (forall d tcs exe argv,
      recipe_on_disk (Standalone.ordered_load compose) (fs_after proc)
        "contest_recipe.yaml" text d tcs ->
      od_mem test_name tcs = false -> od_get "executable" d = None ->
      command = exe :: argv ->
      Standalone.record_test compose emit env command test_name fs
        = (raise (KeyError "executable"), fs_after proc)).
Proof.
  intros Hwd Hp Hwd'. repeat split.
  - intros doc e Hr Hl Hg. rewrite Runner_record_test_eq.
    apply record_open_error; try assumption.
    exact (open_recipe_no_test_cases _ _ _ _ _ _ _ _ Hr Hl Hg).
  - intros d tcs exe argv Hdisk Hm He Hc. rewrite Runner_record_test_eq.
    apply record_open_error; try assumption.
    exact (open_recipe_no_executable _ _ _ _ _ _ _ _ _ _ Hdisk Hm He Hc).
  - intros doc e Hr Hl Hg. rewrite Standalone_record_test_eq.
    apply record_open_error; try assumption.
    exact (open_recipe_no_test_cases _ _ _ _ _ _ _ _ Hr Hl Hg).
  - intros d tcs exe argv Hdisk Hm He Hc. rewrite Standalone_record_test_eq.
    apply record_open_error; try assumption.
    exact (open_recipe_no_executable _ _ _ _ _ _ _ _ _ _ Hdisk Hm He Hc).
Qed.

Lemma working_dir_headless : working_dir Demo.headless_dir.
Proof. split; reflexivity. Qed.

Lemma working_dir_nameless : working_dir Demo.nameless_dir.
Proof. split; reflexivity. Qed.

Lemma malformed_recipe_raises_witness :
  (working_dir Demo.headless_dir /\
   Runner.record_test Demo.yaml_load Demo.yaml_dump (Demo.env []) "recipe.yaml" "c"
     ["echo"] Demo.headless_dir
   = (raise (KeyError "test-cases"), Demo.headless_dir) /\
   Standalone.record_test Demo.compose Demo.emit (Demo.env []) ["echo"] "c"
     Demo.headless_dir
   = (raise (KeyError "test-cases"), Demo.headless_dir)) /\
  (working_dir Demo.nameless_dir /\
   Runner.record_test Demo.yaml_load Demo.yaml_dump (Demo.env []) "recipe.yaml" "c"
     ["echo"] Demo.nameless_dir
   = (raise (KeyError "executable"), Demo.nameless_dir) /\
   Standalone.record_test Demo.compose Demo.emit (Demo.env []) ["echo"] "c"
     Demo.nameless_dir
   = (raise (KeyError "executable"), Demo.nameless_dir)).
Proof.
  split.
  - destruct (malformed_recipe_raises Demo.yaml_load Demo.yaml_dump Demo.compose Demo.emit
                (Demo.env []) "recipe.yaml" "c" ["echo"] Demo.headless_dir
                (Demo.finished 0 newline Demo.headless_dir) Demo.headless_text
                working_dir_headless eq_refl working_dir_headless)
      as (HR & _ & HS & _).
    split; [exact working_dir_headless|]. split.
    + apply (HR Demo.headless_doc); reflexivity.
    + apply (HS Demo.headless_doc); vm_compute; reflexivity.
  - destruct (malformed_recipe_raises Demo.yaml_load Demo.yaml_dump Demo.compose Demo.emit
                (Demo.env []) "recipe.yaml" "c" ["echo"] Demo.nameless_dir
                (Demo.finished 0 newline Demo.nameless_dir) Demo.nameless_text
                working_dir_nameless eq_refl working_dir_nameless)
      as (_ & HR & _ & HS).
    split; [exact working_dir_nameless|]. split.
    + apply (HR [("test-cases", PDict [])] [] "echo" []); repeat split; reflexivity.
    + apply (HS [("test-cases", PDict [])] [] "echo" []); repeat split;
        vm_compute; reflexivity.
Defined.

(** ** C3 *)

(** C3, as the code has it. Started with an empty buffer and an open pipe,
    [run] leaves in the pipe exactly its buffer [lines], every line
    unaltered and followed by one line terminator, in order: what is
    recorded is what was forwarded. The buffer is not always all the
    operator supplied: it is the sequence of operator lines, from the
    first on, that [input()] returned while the pipe was open and the child
    was found running; it is all of them when every [poll()] finds the
    child running. *)
Theorem interceptor_forwards_lines (input : list string) (running : nat -> bool) :
  let self := fst (run input running 0 RecorderPipe_init) in
  channel self = terminated (lines self) /\
  (exists rest, input = lines self ++ rest) /\
  ((forall j, running j = true) ->
   lines self = input /\ channel self = terminated input).
Proof.
  cbn zeta.
  destruct (run_invariant input running 0 RecorderPipe_init eq_refl)
    as (forwarded & rest & Hin & Hl & Hc).
  cbn [lines RecorderPipe_init app] in Hl, Hc.
  split; [now rewrite Hc, Hl|]. split; [exists rest; now rewrite Hl|].
  intros Hrun. rewrite (run_all_running input running 0 RecorderPipe_init eq_refl Hrun).
  cbn. split; reflexivity.
Qed.

(** Scenario B: the operator supplies [ping]. *)
Lemma interceptor_forwards_lines_witness :
  lines (fst (run ["ping"] (fun _ => true) 0 RecorderPipe_init)) = ["ping"] /\
  channel (fst (run ["ping"] (fun _ => true) 0 RecorderPipe_init)) = terminated ["ping"].
Proof.
  apply (interceptor_forwards_lines ["ping"] (fun _ => true)).
  intros j. reflexivity.
Defined.

(** C3, as stated, fails. The operator supplies [a], [b] and [c]; the child
    is found running by the first three polls and exited by the fourth,
    the check after [b]. The pipe is closed there: [a] and [b] are
    forwarded and recorded, [c] is not. So the interceptor does not
    forward every sequence of operator lines exactly. *)
Lemma interceptor_stops_forwarding :
  lines (fst (run ["a"; "b"; "c"] (fun k => Nat.ltb k 3) 0 RecorderPipe_init)) = ["a"; "b"] /\
  channel (fst (run ["a"; "b"; "c"] (fun k => Nat.ltb k 3) 0 RecorderPipe_init))
    = terminated ["a"; "b"] /\
  lines (fst (run ["a"; "b"; "c"] (fun k => Nat.ltb k 3) 0 RecorderPipe_init))
    <> ["a"; "b"; "c"] /\
  ~ (forall (input : list string) (running : nat -> bool),
        lines (fst (run input running 0 RecorderPipe_init)) = input /\
        channel (fst (run input running 0 RecorderPipe_init)) = terminated input).
Proof.
  split; [reflexivity|]. split; [reflexivity|]. split; [discriminate|].
  intros H. destruct (H ["a"; "b"; "c"] (fun k => Nat.ltb k 3)) as [Hl _].
  discriminate.
Qed.

(** ** C7 *)

(** C7. When [record_test] returns 0, the recipe file holds the dump of a
    document whose test case under [test_name] has [return-code], with the
    exit status; has [argv] exactly when the command has arguments; has
    [stdin] exactly when the interceptor recorded a line; has [stdout] and
    [stderr] exactly when the captured text is not empty; and has
    [ofstreams] exactly when the child created a file. A command that
    created no file and took no input leaves neither [stdin] nor
    [ofstreams]. *)
Theorem persisted_test_case_keys yaml_load yaml_dump compose emit env configuration
    test_name command fs fs' :
  (Runner.record_test yaml_load yaml_dump env configuration test_name command fs
     = (inr Ret0, fs') ->
   exists doc, read_file fs' configuration = inr (yaml_dump doc) /\
               keys_as_recorded env test_name command fs doc) /\
  (Standalone.record_test compose emit env command test_name fs = (inr Ret0, fs') ->
   exists doc, read_file fs' "contest_recipe.yaml" = inr (Standalone.yaml_dump emit doc) /\
               keys_as_recorded env test_name command fs doc).
Proof.
  split; intros H.
  - rewrite Runner_record_test_eq in H.
    apply record_success_inv in H as (doc & fs1 & Hb & Hw).
    exists doc. split; [exact (write_file_read _ _ _ _ Hw)|].
    exact (built_keys _ _ _ _ _ _ _ Hb).
  - rewrite Standalone_record_test_eq in H.
    apply record_success_inv in H as (doc & fs1 & Hb & Hw).
    exists doc. split; [exact (write_file_read _ _ _ _ Hw)|].
    exact (built_keys _ _ _ _ _ _ _ Hb).
Qed.

(** Scenario A: [echo hello] into an empty directory. *)
Lemma persisted_test_case_keys_witness :
  exists doc,
    read_file (Dir [("recipe.yaml", File "test-cases: a")]) "recipe.yaml"
      = inr (Demo.yaml_dump doc) /\
    keys_as_recorded (Demo.env []) "a" ["echo"; "hello"] Demo.empty_dir doc.
Proof.
  apply (persisted_test_case_keys Demo.yaml_load Demo.yaml_dump Demo.compose Demo.emit
           (Demo.env []) "recipe.yaml" "a" ["echo"; "hello"] Demo.empty_dir
           (Dir [("recipe.yaml", File "test-cases: a")])).
  vm_compute. reflexivity.
Defined.

(** ** C8 *)

(** C8. Run on the same command, test name, operator input and tree, with
    the recipe at [contest_recipe.yaml] and loaders that read a recipe
    alike, the two files raise the same exception, or return the same
    message, or build documents that are the same recipe with the same test
    case but for [stdin]: contest-gen.py stores the list of the recorded
    lines, runner.py their newline-joined text. They leave the same
    tree. *)
Theorem standalone_runner_same_document yaml_load compose env test_name command fs :
  (forall text, yaml_load text = Standalone.ordered_load compose text) ->
  match Standalone.document compose env command test_name fs,
        Runner.document yaml_load env "contest_recipe.yaml" test_name command fs with
  | (inl e1, fs1), (inl e2, fs2) => e1 = e2 /\ fs1 = fs2
  | (inr (inl m1), fs1), (inr (inl m2), fs2) => m1 = m2 /\ fs1 = fs2
  | (inr (inr doc_list), fs1), (inr (inr doc_text), fs2) =>
      fs1 = fs2 /\ same_but_stdin env test_name command fs doc_list doc_text
  | _, _ => False
  end.
Proof.
  intros Hext. rewrite Standalone_document_eq, Runner_document_eq.
  rewrite (build_ext yaml_load (Standalone.ordered_load compose)) by exact Hext.
  apply build_stdin.
Qed.

(** Scenario B: [cat] is given [ping] and [pong]; the recipe has [hello]. *)
Lemma standalone_runner_same_document_witness :
  match Standalone.document Demo.compose (Demo.env ["ping"; "pong"]) ["cat"] "b"
          Demo.recorded_dir,
        Runner.document Demo.yaml_load (Demo.env ["ping"; "pong"]) "contest_recipe.yaml"
          "b" ["cat"] Demo.recorded_dir with
  | (inl e1, fs1), (inl e2, fs2) => e1 = e2 /\ fs1 = fs2
  | (inr (inl m1), fs1), (inr (inl m2), fs2) => m1 = m2 /\ fs1 = fs2
  | (inr (inr doc_list), fs1), (inr (inr doc_text), fs2) =>
      fs1 = fs2 /\
      same_but_stdin (Demo.env ["ping"; "pong"]) "b" ["cat"] Demo.recorded_dir
        doc_list doc_text
  | _, _ => False
  end.
Proof.
  apply (standalone_runner_same_document Demo.yaml_load Demo.compose
           (Demo.env ["ping"; "pong"]) "b" ["cat"] Demo.recorded_dir).
  intros text. reflexivity.
Defined.

(** ** C2 *)

(** C2, as the code has it. [get_files('.')] names every file with the
    leading [./], and these are the paths recorded. In a recording that
    returned 0, where the child created N new files, none of them at the
    reference path of another new file and no reference path being a
    directory: the test case has exactly N [ofstreams] entries, one per new
    file; the [test-file] of an entry is the path of the file as listed,
    its [base-file] the same directory with the name prefixed by
    [contest_]; the file is gone from its path and is at the reference
    path with its content (the recipe file, written last, aside); and a
    command that creates [out.txt] and exits with 2 is recorded with
    [return-code] 2 and the one entry
    [{base-file: ./contest_out.txt, test-file: ./out.txt}]. *)
Theorem new_files_recorded_and_moved yaml_load yaml_dump compose emit env configuration
    test_name command fs files proc after fs' :
  popen env command fs = inr proc -> snapshot fs = inr files ->
  snapshot (fs_after proc) = inr after -> working_dir (fs_after proc) ->
  set_iter env (after ∖ files) ≡ₚ elements (after ∖ files) ->
  (forall p, p ∈ after ∖ files -> Recorder.base_file_of p ∉ after ∖ files) ->
  (forall p, p ∈ after ∖ files ->
             os_path_isdir (fs_after proc) (Recorder.base_file_of p) = false) ->
  (Runner.record_test yaml_load yaml_dump env configuration test_name command fs
     = (inr Ret0, fs') ->
   exists doc,
     read_file fs' configuration = inr (yaml_dump doc) /\
     moved_and_recorded env test_name configuration proc (after ∖ files) doc fs' /\
     (after ∖ files = {["./out.txt"]} -> returncode proc = 2%Z ->
      scenario_C test_name doc)) /\
  (Standalone.record_test compose emit env command test_name fs = (inr Ret0, fs') ->
   exists doc,
     read_file fs' "contest_recipe.yaml" = inr (Standalone.yaml_dump emit doc) /\
     moved_and_recorded env test_name "contest_recipe.yaml" proc (after ∖ files) doc fs' /\
     (after ∖ files = {["./out.txt"]} -> returncode proc = 2%Z ->
      scenario_C test_name doc)).
Proof.
  intros Hp Hs Ha Hwd Hperm Hbase Hdir. split; intros H.
  - rewrite Runner_record_test_eq in H.
    destruct (record_moved _ _ _ _ _ _ _ _ _ _ _ _ Hp Hs Ha Hwd Hperm Hbase Hdir H)
      as (doc & Hr & Hm).
    exists doc. split; [exact Hr|]. split; [exact Hm|].
    intros Hnew Hrc. exact (moved_scenario_C _ _ _ _ _ _ _ Hperm Hm Hnew Hrc).
  - rewrite Standalone_record_test_eq in H.
    destruct (record_moved _ _ _ _ _ _ _ _ _ _ _ _ Hp Hs Ha Hwd Hperm Hbase Hdir H)
      as (doc & Hr & Hm).
    exists doc. split; [exact Hr|]. split; [exact Hm|].
    intros Hnew Hrc. exact (moved_scenario_C _ _ _ _ _ _ _ Hperm Hm Hnew Hrc).
Qed.

Lemma snapshot_empty_dir : snapshot Demo.empty_dir = inr ∅.
Proof. reflexivity. Qed.

Lemma snapshot_written :
  snapshot (Demo.created Demo.empty_dir [("out.txt", "data")]) = inr {["./out.txt"]}.
Proof. vm_compute. reflexivity. Qed.

(** Scenario C: [writer] into an empty directory. *)
Lemma new_files_recorded_and_moved_witness :
  exists doc,
    read_file (Dir [("contest_out.txt", File "data"); ("recipe.yaml", File "test-cases: c")])
      "recipe.yaml" = inr (Demo.yaml_dump doc) /\
    moved_and_recorded (Demo.env []) "c" "recipe.yaml"
      (Demo.finished 2 "" (Demo.created Demo.empty_dir [("out.txt", "data")]))
      ({["./out.txt"]} ∖ ∅) doc
      (Dir [("contest_out.txt", File "data"); ("recipe.yaml", File "test-cases: c")]) /\
    (({["./out.txt"]} ∖ ∅ : gset string) = {["./out.txt"]} -> 2%Z = 2%Z ->
     scenario_C "c" doc).
Proof.
  apply (new_files_recorded_and_moved Demo.yaml_load Demo.yaml_dump Demo.compose Demo.emit
           (Demo.env []) "recipe.yaml" "c" ["writer"] Demo.empty_dir ∅
           (Demo.finished 2 "" (Demo.created Demo.empty_dir [("out.txt", "data")]))
           {["./out.txt"]}
           (Dir [("contest_out.txt", File "data"); ("recipe.yaml", File "test-cases: c")])
           eq_refl snapshot_empty_dir snapshot_written).
  - split; reflexivity.
  - reflexivity.
  - intros p Hp. rewrite difference_empty_L in *. apply elem_of_singleton in Hp. subst p.
    intros Hb. apply elem_of_singleton in Hb. vm_compute in Hb. discriminate.
  - intros p Hp. rewrite difference_empty_L in Hp. apply elem_of_singleton in Hp. subst p.
    reflexivity.
  - vm_compute. reflexivity.
Defined.

(** C2, as stated, fails. Scenario C: the entry recorded for [out.txt] is
    [{base-file: ./contest_out.txt, test-file: ./out.txt}], not the one with
    the bare names. And [twice] creates [a] and [contest_a]: when the set
    yields [./contest_a] first, its original path holds a file afterwards
    (the one moved from [./a]); when it yields [./a] first, nothing is left
    at [./contest_a], the recorded base-file of [./a]. *)
Lemma recorded_paths_are_listed_paths :
  (exists doc fs',
      Runner.document Demo.yaml_load (Demo.env []) "recipe.yaml" "c" ["writer"]
        Demo.empty_dir = (inr (inr doc), fs') /\
      Standalone.document Demo.compose (Demo.env []) ["writer"] "c" Demo.empty_dir
        = (inr (inr doc), fs') /\
      get_at ["test-cases"; "c"; "ofstreams"] doc
        = inr (PList [PDict [("base-file", PStr "./contest_out.txt");
                             ("test-file", PStr "./out.txt")]]) /\
      get_at ["test-cases"; "c"; "ofstreams"] doc
        <> inr (PList [PDict [("base-file", PStr "contest_out.txt");
                              ("test-file", PStr "out.txt")]])) /\
  (exists fs',
      Runner.record_test Demo.yaml_load Demo.yaml_dump (Demo.env []) "recipe.yaml" "c"
        ["twice"] Demo.empty_dir = (inr Ret0, fs') /\
      stat_path fs' "./contest_a" = IsFile "first") /\
  (exists fs',
      Runner.record_test Demo.yaml_load Demo.yaml_dump (Demo.env_first ["./a"])
        "recipe.yaml" "c" ["twice"] Demo.empty_dir = (inr Ret0, fs') /\
      stat_path fs' "./contest_a" = Absent).
Proof.
  split; [|split].
  - eexists. eexists. split; [vm_compute; reflexivity|].
    split; [vm_compute; reflexivity|]. split; [vm_compute; reflexivity|].
    vm_compute. discriminate.
  - eexists. split; vm_compute; reflexivity.
  - eexists. split; vm_compute; reflexivity.
Qed.

(** ** C10 *)

(** C10. [shutil.move] of a listed file onto its reference path does not
    look at what is there: a regular file at that path is replaced, without
    an exception. In a recording (the recipe has been opened, no new file
    is at the reference path of another and no reference path is a
    directory) no move raises, and a reference copy that was at the
    [contest_] path of a new file, from an earlier recording for example,
    now has the content of the new file. *)
Theorem reference_copy_overwritten yaml_load compose env configuration test_name command
    fs files proc after doc0 :
  snapshot fs = inr files -> popen env command fs = inr proc ->
  snapshot (fs_after proc) = inr after -> working_dir (fs_after proc) ->
  set_iter env (after ∖ files) ≡ₚ elements (after ∖ files) ->
  (forall p, p ∈ after ∖ files -> Recorder.base_file_of p ∉ after ∖ files) ->
  (forall p, p ∈ after ∖ files ->
             os_path_isdir (fs_after proc) (Recorder.base_file_of p) = false) ->
  (forall tree p old,
      enumerated tree p -> stat_path tree (Recorder.base_file_of p) = IsFile old ->
      exists tree',
        shutil_move tree p (Recorder.base_file_of p) = inr tree' /\
        stat_path tree' (Recorder.base_file_of p) = stat_path tree p /\
        stat_path tree' p = Absent) /\
  (Runner.open_recipe yaml_load configuration test_name command (fs_after proc)
     = (inr (inr doc0), fs_after proc) ->
   exists doc fs1,
     Runner.document yaml_load env configuration test_name command fs
       = (inr (inr doc), fs1) /\
     forall p old, p ∈ after ∖ files ->
       stat_path (fs_after proc) (Recorder.base_file_of p) = IsFile old ->
       stat_path fs1 (Recorder.base_file_of p) = stat_path (fs_after proc) p) /\
  (Standalone.open_recipe compose test_name command (fs_after proc)
     = (inr (inr doc0), fs_after proc) ->
   exists doc fs1,
     Standalone.document compose env command test_name fs = (inr (inr doc), fs1) /\
     forall p old, p ∈ after ∖ files ->
       stat_path (fs_after proc) (Recorder.base_file_of p) = IsFile old ->
       stat_path fs1 (Recorder.base_file_of p) = stat_path (fs_after proc) p).
Proof.
  intros Hs Hp Ha Hwd Hperm Hbase Hdir. split; [|split].
  - intros tree p old. apply move_onto_file.
  - intros Ho. rewrite Runner_open_recipe_eq in Ho.
    destruct (build_moves _ joined_stdin _ _ _ _ _ _ _ _ _ _ Hs Hp Ha Hwd Ho Hperm Hbase Hdir)
      as (doc & fs1 & Hb & Hprop & _).
    exists doc, fs1. rewrite Runner_document_eq. split; [exact Hb|].
    intros p old Hx _. now apply Hprop.
  - intros Ho. rewrite Standalone_open_recipe_eq in Ho.
    destruct (build_moves _ strs _ _ _ _ _ _ _ _ _ _ Hs Hp Ha Hwd Ho Hperm Hbase Hdir)
      as (doc & fs1 & Hb & Hprop & _).
    exists doc, fs1. rewrite Standalone_document_eq. split; [exact Hb|].
    intros p old Hx _. now apply Hprop.
Qed.

Lemma snapshot_crowded : snapshot Demo.crowded_dir = inr {["./contest_out.txt"]}.
Proof. vm_compute. reflexivity. Qed.

Lemma snapshot_crowded_written :
  snapshot (Demo.created Demo.crowded_dir [("out.txt", "data")])
  = inr ({["./contest_out.txt"]} ∪ {["./out.txt"]}).
Proof. vm_compute. reflexivity. Qed.

(** [writer] in a directory where [contest_out.txt] holds the reference
    copy of an earlier recording. *)
Lemma reference_copy_overwritten_witness :
  stat_path (Demo.created Demo.crowded_dir [("out.txt", "data")]) "./contest_out.txt"
    = IsFile "earlier" /\
  exists doc fs1,
    Runner.document Demo.yaml_load (Demo.env []) "recipe.yaml" "c" ["writer"]
      Demo.crowded_dir = (inr (inr doc), fs1) /\
    stat_path fs1 "./contest_out.txt" = IsFile "data".
Proof.
  split; [reflexivity|].
  destruct (reference_copy_overwritten Demo.yaml_load Demo.compose (Demo.env [])
              "recipe.yaml" "c" ["writer"] Demo.crowded_dir {["./contest_out.txt"]}
              (Demo.finished 2 "" (Demo.created Demo.crowded_dir [("out.txt", "data")]))
              ({["./contest_out.txt"]} ∪ {["./out.txt"]})
              (PDict [("executable", PStr "writer"); ("test-cases", PDict [("c", PDict [])])])
              snapshot_crowded eq_refl snapshot_crowded_written)
    as (_ & HR & _).
  - split; reflexivity.
  - vm_compute. reflexivity.
  - intros p Hp. apply elem_of_difference in Hp as [Hp Hn].
    apply elem_of_union in Hp as [Hp|Hp]; [contradiction|].
    apply elem_of_singleton in Hp. subst p.
    intros Hb. apply elem_of_difference in Hb as [_ Hb]. apply Hb.
    apply elem_of_singleton. vm_compute. reflexivity.
  - intros p Hp. apply elem_of_difference in Hp as [Hp Hn].
    apply elem_of_union in Hp as [Hp|Hp]; [contradiction|].
    apply elem_of_singleton in Hp. subst p. reflexivity.
  - destruct HR as (doc & fs1 & Hd & Hov); [vm_compute; reflexivity|].
    exists doc, fs1. split; [exact Hd|].
    apply (Hov "./out.txt" "earlier"); [|reflexivity].
    apply elem_of_difference. split; [set_solver|].
    intros E. apply elem_of_singleton in E. discriminate.
Defined.

(** ** C4 *)

(** C4 on contest-gen.py. The claim does not hold of this file: it dumps
    its recipe, an [OrderedDict], with the default [Dumper], which
    represents it under a Python tag, and it loads with [ordered_load] on
    [SafeLoader], which has no constructor for that tag. When the text
    layer of the library gives back the graph that was dumped, loading the
    persisted recipe raises [ConstructorError], and so does every later
    recording in that directory. *)
Theorem standalone_cannot_reload compose emit env command test_name fs doc fs1 fs' :
  Standalone.document compose env command test_name fs = (inr (inr doc), fs1) ->
  Standalone.persist emit doc fs1 = inr fs' ->
  compose (Standalone.yaml_dump emit doc) = inr (represent doc) ->
  Standalone.record_test compose emit env command test_name fs = (inr Ret0, fs') /\
  Standalone.load compose fs' = raise (ConstructorError tag_ordered_dict) /\
  (forall env2 command2 test_name2 proc2,
      working_dir fs' -> popen env2 command2 fs' = inr proc2 -> fs_after proc2 = fs' ->
      Standalone.record_test compose emit env2 command2 test_name2 fs'
        = (raise (ConstructorError tag_ordered_dict), fs')).
Proof.
  intros Hdoc Hpersist Hcompose. unfold Standalone.persist in Hpersist.
  assert (Hload : Standalone.ordered_load compose (Standalone.yaml_dump emit doc)
                  = raise (ConstructorError tag_ordered_dict)).
  { unfold Standalone.ordered_load. rewrite Hcompose. cbn [mbind res_bind].
    rewrite Standalone_document_eq in Hdoc. apply build_built in Hdoc.
    apply built_is_dict in Hdoc as [d ->]. apply construct_ordered_dict. }
  pose proof (write_file_read _ _ _ _ Hpersist) as Hread.
  split; [|split].
  - unfold Standalone.record_test, mbind, Py_bind, writes. rewrite Hdoc, Hpersist.
    reflexivity.
  - unfold Standalone.load. rewrite Hread. exact Hload.
  - intros env2 command2 test_name2 proc2 Hwd Hp Hsame.
    rewrite Standalone_record_test_eq. rewrite <- Hsame at 2.
    apply record_open_error; [exact Hwd|exact Hp|now rewrite Hsame|].
    rewrite Hsame. now apply (open_recipe_load_error _ _ _ _ _ _ _ Hread).
Qed.

(** Scenario A recorded by contest-gen.py into an empty directory, and then
    once more under another name. *)
Lemma standalone_cannot_reload_witness :
  Standalone.record_test Demo.compose Demo.emit (Demo.env []) ["echo"; "hello"] "a"
    Demo.empty_dir
  = (inr Ret0, Dir [("contest_recipe.yaml", File Demo.tagged_text)]) /\
  Standalone.load Demo.compose (Dir [("contest_recipe.yaml", File Demo.tagged_text)])
  = raise (ConstructorError tag_ordered_dict) /\
  Standalone.record_test Demo.compose Demo.emit (Demo.env []) ["echo"; "hello"] "b"
    (Dir [("contest_recipe.yaml", File Demo.tagged_text)])
  = (raise (ConstructorError tag_ordered_dict),
     Dir [("contest_recipe.yaml", File Demo.tagged_text)]).
Proof.
  destruct (standalone_cannot_reload Demo.compose Demo.emit (Demo.env []) ["echo"; "hello"]
              "a" Demo.empty_dir Demo.scenario_A_doc Demo.empty_dir
              (Dir [("contest_recipe.yaml", File Demo.tagged_text)]))
    as (H1 & H2 & H3); [vm_compute; reflexivity|reflexivity|reflexivity|].
  split; [exact H1|]. split; [exact H2|].
  apply (H3 (Demo.env []) ["echo"; "hello"] "b"
           (Demo.finished 0 ("hello" ++ newline)
              (Dir [("contest_recipe.yaml", File Demo.tagged_text)])));
    [split; reflexivity|reflexivity|reflexivity].
Defined.

(** * Further properties *)

(** ** get_files *)

Lemma od_get_In_fst {V} k (d : list (string * V)) v : od_get k d = Some v -> In k (map fst d).
Proof.
  induction d as [|[k0 v0] d IH]; cbn [od_get map fst]; [discriminate|].
  destruct (String.eqb k k0) eqn:E; [apply String.eqb_eq in E; subst; now left|].
  intros H. right. now apply IH.
Qed.

Lemma get_files_complete fuel fs names es l :
  valid_tree fs = true -> forallb valid_name names = true ->
  walk fs names = Some (Dir es) ->
  get_files fuel fs (path_of names) = inr l ->
  forall rest c, walk (Dir es) rest = Some (File c) -> In (path_of (names ++ rest)) l.
Proof.
  revert names es l. induction fuel as [|fuel IH]; intros names es l Hv Hnames Hlook;
    [discriminate|].
  cbn [get_files]. unfold os_listdir, lookup_path.
  rewrite components_path_of by exact Hnames. rewrite Hlook. cbn [mbind res_bind].
  assert (Hes : valid_tree (Dir es) = true) by now apply (valid_tree_walk fs _ _ Hv Hlook).
  match goal with
  | |- ?loop (map fst es) [] = inr l -> _ =>
      enough (Hloop : forall els files l,
                 (forall el, In el els -> In el (map fst es)) ->
                 loop els files = inr l ->
                 (forall p, In p files -> In p l) /\
                 (forall el m rest c, In el els -> od_get el es = Some m ->
                    walk m rest = Some (File c) -> In (path_of (names ++ el :: rest)) l))
  end.
  { intros Hl rest c Hw. destruct rest as [|el rest]; [discriminate|].
    cbn [walk] in Hw. destruct (od_get el es) as [m|] eqn:Hget; [|discriminate].
    destruct (Hloop _ _ _ (fun _ H => H) Hl) as [_ H].
    apply (H el m rest c); [now apply (od_get_In_fst _ _ m)|exact Hget|exact Hw]. }
  clear l. induction els as [|el els IHels]; intros files l Hsub Hl.
  - inversion Hl; subst. split; [auto|]. intros ? ? ? ? [].
  - destruct (od_get_of_In el es) as [m Hget]; [apply Hsub; now left|].
    destruct (valid_tree_child _ _ _ Hes Hget) as [Hel Hm].
    assert (Hnames' : forallb valid_name (names ++ [el]) = true)
      by (rewrite forallb_snoc, Hnames, Hel; reflexivity).
    assert (Hfull : walk fs (names ++ [el]) = Some m)
      by (rewrite walk_app, Hlook; cbn [walk]; now rewrite Hget).
    rewrite <- path_of_snoc in Hl.
    unfold os_path_isfile, lookup_path in Hl.
    rewrite components_path_of in Hl by exact Hnames'. rewrite Hfull in Hl.
    destruct m as [c0|es'].
    + destruct (IHels _ _ (fun x H => Hsub x (or_intror H)) Hl) as [Hacc Hrest].
      split; [intros p Hp; apply Hacc, in_or_app; now left|].
      intros el' m' rest c [<-|Hin] Hget' Hw.
      * rewrite Hget in Hget'. inversion Hget'; subst m'.
        destruct rest; [|discriminate].
        apply Hacc, in_or_app. right. now left.
      * now apply (Hrest el' m' rest c).
    + destruct (get_files fuel fs (path_of (names ++ [el]))) as [e|sub] eqn:Hsubl;
        [discriminate|].
      cbn [mbind res_bind] in Hl.
      destruct (IHels _ _ (fun x H => Hsub x (or_intror H)) Hl) as [Hacc Hrest].
      split; [intros p Hp; apply Hacc, in_or_app; now left|].
      intros el' m' rest c [<-|Hin] Hget' Hw.
      * rewrite Hget in Hget'. inversion Hget'; subst m'.
        apply Hacc, in_or_app. right.
        change (names ++ el :: rest) with (names ++ [el] ++ rest). rewrite app_assoc.
        exact (IH _ _ _ Hv Hnames' Hfull Hsubl rest c Hw).
      * now apply (Hrest el' m' rest c).
Qed.

(** X1. [get_files('.')] in a working directory returns, and what it
    returns are the regular files below the directory and nothing else:
    every path it lists is made of the names that lead to a regular file,
    and every regular file is listed under the path made of the names that
    lead to it. Directories are not listed, the empty ones leave no trace. *)
Theorem snapshot_lists_regular_files fs :
  working_dir fs ->
  exists files, snapshot fs = inr files /\ forall p, p ∈ files <-> enumerated fs p.
Proof.
  intros Hwd. destruct (snapshot_ok fs Hwd) as [files [Hs Hsound]].
  exists files. split; [exact Hs|]. intros p. split; [apply Hsound|].
  intros (names & f & c & Hn & Hf & -> & Hw).
  destruct Hwd as [Hdir Hv]. destruct fs as [|es]; [discriminate|].
  unfold snapshot in Hs.
  destruct (get_files _ (Dir es) ".") as [e|l] eqn:Hl; [discriminate|].
  cbn [mbind res_bind] in Hs. unfold mret, res_ret in Hs. inversion Hs; subst files.
  apply elem_of_list_to_set. apply list_elem_of_In.
  change "." with (path_of []) in Hl.
  exact (get_files_complete _ _ [] es l Hv eq_refl eq_refl Hl (names ++ [f]) c Hw).
Qed.

Lemma working_dir_nested : working_dir Cases.nested_dir.
Proof. split; reflexivity. Qed.

Lemma snapshot_lists_regular_files_witness :
  exists files,
    snapshot Cases.nested_dir = inr files /\
    forall p, p ∈ files <-> enumerated Cases.nested_dir p.
Proof. exact (snapshot_lists_regular_files _ working_dir_nested). Defined.

Lemma node_induction (P : node -> Prop) :
  (forall c, P (File c)) ->
  (forall es, Forall (fun kv => P (snd kv)) es -> P (Dir es)) ->
  forall n, P n.
Proof.
  intros HF HD. fix IH 1. intros [c|es]; [apply HF|].
  apply HD. induction es as [|[k m] es IHes]; constructor; [apply IH|exact IHes].
Qed.

Lemma od_get_shape k es :
  od_get k (map (fun kv => (fst kv, shape (snd kv))) es) =
  match od_get k es with Some m => Some (shape m) | None => None end.
Proof.
  induction es as [|[k0 m0] es IH]; [reflexivity|].
  cbn [map od_get fst snd]. now destruct (String.eqb k k0).
Qed.

Lemma walk_shape n cs :
  walk (shape n) cs = match walk n cs with Some m => Some (shape m) | None => None end.
Proof.
  revert n. induction cs as [|c cs IH]; intros n; [reflexivity|].
  destruct n as [t|es]; [reflexivity|].
  cbn [shape walk]. rewrite od_get_shape.
  destruct (od_get c es) as [m|]; [apply IH|reflexivity].
Qed.

Lemma height_shape n : height (shape n) = height n.
Proof.
  induction n as [c|es IH] using node_induction; [reflexivity|].
  cbn [shape height]. f_equal.
  induction es as [|[k m] es IHes]; [reflexivity|].
  inversion IH; subst. cbn [map fold_right fst snd] in *.
  now rewrite H1, IHes.
Qed.

Lemma os_listdir_shape fs p : os_listdir (shape fs) p = os_listdir fs p.
Proof.
  unfold os_listdir, lookup_path. rewrite walk_shape.
  destruct (walk fs (components p)) as [[c|es]|]; try reflexivity.
  cbn [shape]. now rewrite map_map.
Qed.

Lemma os_path_isfile_shape fs p : os_path_isfile (shape fs) p = os_path_isfile fs p.
Proof.
  unfold os_path_isfile, lookup_path. rewrite walk_shape.
  now destruct (walk fs (components p)) as [[c|es]|].
Qed.

Lemma get_files_shape fuel fs root : get_files fuel (shape fs) root = get_files fuel fs root.
Proof.
  revert root. induction fuel as [|fuel IH]; intros root; [reflexivity|].
  cbn [get_files]. rewrite os_listdir_shape.
  destruct (os_listdir fs root) as [e|els]; [reflexivity|]. cbn [mbind res_bind].
  generalize (@nil string) at 2 4. 
  induction els as [|el els IHels]; intros files; [reflexivity|].
  rewrite os_path_isfile_shape, IH.
  destruct (os_path_isfile fs (os_path_join root el)); [apply IHels|].
  destruct (get_files fuel fs (os_path_join root el)); [reflexivity|].
  cbn [mbind res_bind]. apply IHels.
Qed.

(** X2. The enumeration sees names and kinds, not contents: two trees that
    differ only in what their files hold have the same snapshot. A file
    the child rewrites in place is therefore in both snapshots and is not
    among the new files. *)
Theorem snapshot_ignores_contents fs fs' :
  shape fs = shape fs' -> snapshot fs = snapshot fs'.
Proof.
  intros H. unfold snapshot.
  rewrite <- (height_shape fs), <- (height_shape fs'), <- (get_files_shape _ fs),
    <- (get_files_shape _ fs').
  now rewrite H.
Qed.

Lemma snapshot_ignores_contents_witness :
  snapshot (Dir [("out.txt", File "before"); ("logs", Dir [("run.log", File "")])]) =
  snapshot (Dir [("out.txt", File "after"); ("logs", Dir [("run.log", File "done")])]).
Proof. apply snapshot_ignores_contents. reflexivity. Defined.

(** ** The reference path of a new file (lines 142-143, 198-199) *)

Lemma path_of_dot_slash names f :
  forallb valid_name names = true -> valid_name f = true ->
  exists rest, path_of (names ++ [f]) = ("./" ++ rest)%string.
Proof.
  revert f. induction names as [|n names IH] using rev_ind; intros f Hn Hf.
  - exists f. cbn [app]. change [f] with ([] ++ [f]).
    rewrite path_of_snoc, os_path_join_nice by (exact nice_dot || exact Hf). reflexivity.
  - rewrite forallb_snoc in Hn. apply andb_prop in Hn as [Hn Hn'].
    destruct (IH n Hn Hn') as [rest Hrest].
    rewrite path_of_snoc, os_path_join_nice;
      [|apply nice_path_of; rewrite forallb_snoc, Hn, Hn'; reflexivity|exact Hf].
    rewrite Hrest. exists (rest ++ String slash f)%string.
    now rewrite !append_cons, append_nil.
Qed.

Lemma enumerated_split fs p :
  enumerated fs p ->
  exists names f,
    forallb valid_name names = true /\ valid_name f = true /\
    p = path_of (names ++ [f]) /\
    os_path_split p = (path_of names, f) /\
    Recorder.base_file_of p = path_of (names ++ [("contest_" ++ f)%string]) /\
    os_path_split (Recorder.base_file_of p) = (path_of names, ("contest_" ++ f)%string).
Proof.
  intros (names & f & c & Hn & Hf & -> & Hw). exists names, f.
  repeat (split; [first [reflexivity|assumption]|]).
  split; [rewrite path_of_snoc; apply os_path_split_join; [now apply nice_path_of|exact Hf]|].
  split; [now apply base_file_of_path|].
  rewrite base_file_of_path by assumption. rewrite path_of_snoc.
  apply os_path_split_join; [now apply nice_path_of|now apply valid_name_contest].
Qed.

(** X3. For a file that [get_files('.')] lists in a working directory: its
    path starts with [./]; the reference path computed for it splits into
    the same directory and the name with [contest_] in front; the reference
    path is another path than the file's own; and two listed files never
    have the same reference path. *)
Theorem base_file_beside_new_file fs files p :
  working_dir fs -> snapshot fs = inr files -> p ∈ files ->
  (exists rest, p = ("./" ++ rest)%string) /\
  os_path_split (Recorder.base_file_of p) =
    (fst (os_path_split p), ("contest_" ++ snd (os_path_split p))%string) /\
  Recorder.base_file_of p <> p /\
  (forall q, q ∈ files -> Recorder.base_file_of p = Recorder.base_file_of q -> p = q).
Proof.
  intros Hwd Hs Hp.
  destruct (snapshot_ok fs Hwd) as [files' [Hs' Hen]].
  rewrite Hs in Hs'. inversion Hs'; subst files'.
  pose proof (Hen p Hp) as Hep.
  destruct (enumerated_split fs p Hep) as (names & f & Hn & Hf & Hpath & Hsp & Hb & Hsb).
  split; [rewrite Hpath; now apply path_of_dot_slash|].
  split; [rewrite Hsb, Hsp; reflexivity|].
  split.
  - intros Heq. rewrite Heq, Hsp in Hsb. inversion Hsb as [Hlen].
    apply (f_equal String.length) in Hlen. rewrite length_append in Hlen.
    cbn [String.length] in Hlen. lia.
  - intros q Hq. apply (base_file_of_inj fs); [exact Hep|now apply Hen].
Qed.

Lemma base_file_beside_new_file_witness :
  (exists rest, "./sub/b.txt" = ("./" ++ rest)%string) /\
  os_path_split (Recorder.base_file_of "./sub/b.txt") =
    (fst (os_path_split "./sub/b.txt"), ("contest_" ++ snd (os_path_split "./sub/b.txt"))%string) /\
  Recorder.base_file_of "./sub/b.txt" <> "./sub/b.txt" /\
  (forall q, q ∈ ({["./a.txt"; "./sub/b.txt"]} : gset string) ->
     Recorder.base_file_of "./sub/b.txt" = Recorder.base_file_of q -> "./sub/b.txt" = q).
Proof.
  apply (base_file_beside_new_file Cases.nested_dir _ "./sub/b.txt" working_dir_nested).
  - vm_compute. reflexivity.
  - set_solver.
Defined.

(** ** RecorderPipe.run and the polls *)

Lemma run_polls input running k self :
  wpipe_open self = true ->
  exists forwarded,
    lines (fst (run input running k self)) = lines self ++ forwarded /\
    (forall i, i < length forwarded -> running (k + 2 * i) = true) /\
    (forall i, S i < length forwarded -> running (k + 2 * i + 1) = true) /\
    (snd (run input running k self) = InputExhausted ->
     forwarded = input /\ wpipe_open (fst (run input running k self)) = true) /\
    (snd (run input running k self) = LoopExit ->
     exists m, m <= 2 * length forwarded /\ running (k + m) = false).
Proof.
  revert k self. induction input as [|s input IH]; intros k self Hopen.
  - exists []. cbn [run]. rewrite Hopen. cbn [andb].
    destruct (running k) eqn:Hk; cbn [fst snd length].
    + rewrite app_nil_r. repeat split; try (intros; lia); try discriminate; auto.
    + rewrite app_nil_r. repeat split; try (intros; lia); try discriminate.
      intros _. exists 0. rewrite Nat.add_0_r. split; [lia|exact Hk].
  - cbn [run]. rewrite Hopen. cbn [andb].
    destruct (running k) eqn:Hk; cbn [fst snd].
    2:{ exists []. rewrite app_nil_r. cbn [length].
        repeat split; try (intros; lia); try discriminate.
        intros _. exists 0. rewrite Nat.add_0_r. split; [lia|exact Hk]. }
    destruct (running (S k)) eqn:Hk1; cbn [check].
    + destruct (IH (S (S k)) (lines_append s (wpipe_write (s ++ newline) self)) Hopen)
        as (fw & Hl & Ht & Hc & He & Hx).
      exists (s :: fw). cbn [lines lines_append wpipe_write] in Hl.
      split; [rewrite Hl, <- app_assoc; reflexivity|].
      split.
      { intros [|i] Hi; [now rewrite Nat.add_0_r|].
        cbn [length] in Hi. replace (k + 2 * S i) with (S (S k) + 2 * i) by lia.
        apply Ht. lia. }
      split.
      { intros [|i] Hi; [now replace (k + 2 * 0 + 1) with (S k) by lia|].
        cbn [length] in Hi. replace (k + 2 * S i + 1) with (S (S k) + 2 * i + 1) by lia.
        apply Hc. lia. }
      split.
      { intros Hend. destruct (He Hend) as [-> Ho]. now split. }
      intros Hend. destruct (Hx Hend) as (m & Hm & Hr).
      exists (S (S m)). cbn [length]. split; [lia|].
      now replace (k + S (S m)) with (S (S k) + m) by lia.
    + exists [s]. destruct input as [|s' input']; cbn [run close wpipe_open andb fst snd lines
        lines_append wpipe_write length].
      all: split; [reflexivity|].
      all: split; [intros i Hi; replace i with 0 by lia; now rewrite Nat.add_0_r|].
      all: split; [intros i Hi; lia|].
      all: split; [discriminate|].
      all: intros _; exists 1; split; [lia|now replace (k + 1) with (S k) by lia].
Qed.

(** X4. The polls behind the recorded lines. The thread asks for line [i]
    only after poll [2i] found the child running, and for every line but
    the last the check after it (poll [2i+1]) found it running too: at most
    one line, the last, is written and recorded after the child was seen to
    have exited. When the thread ends in [input()], everything the
    operator typed has been recorded and the pipe is still open; when it
    leaves the loop, one of the polls made so far found the child exited. *)
Theorem recorded_lines_and_polls (input : list string) (running : nat -> bool) :
  let self := fst (run input running 0 RecorderPipe_init) in
  let ending := snd (run input running 0 RecorderPipe_init) in
  (forall i, i < length (lines self) -> running (2 * i) = true) /\
  (forall i, S i < length (lines self) -> running (2 * i + 1) = true) /\
  (ending = InputExhausted -> lines self = input /\ wpipe_open self = true) /\
  (ending = LoopExit ->
   exists m, m <= 2 * length (lines self) /\ running m = false).
Proof.
  cbn zeta.
  destruct (run_polls input running 0 RecorderPipe_init eq_refl)
    as (fw & Hl & Ht & Hc & He & Hx).
  cbn [lines RecorderPipe_init app] in Hl. rewrite Hl.
  split; [intros i Hi; exact (Ht i Hi)|].
  split; [intros i Hi; exact (Hc i Hi)|].
  split; [exact He|exact Hx].
Qed.

Lemma recorded_lines_and_polls_witness :
  lines (fst (run ["a"; "b"; "c"] (fun k => Nat.ltb k 3) 0 RecorderPipe_init)) = ["a"; "b"] /\
  exists m, m <= 4 /\ Nat.ltb m 3 = false.
Proof.
  split; [reflexivity|].
  destruct (recorded_lines_and_polls ["a"; "b"; "c"] (fun k => Nat.ltb k 3)) as (_ & _ & _ & H).
  exact (H eq_refl).
Defined.

(** ** The document of a recording that returned 0 *)

Section RecorderDocument.
Variable load : string -> res value.
Variable dump : value -> string.
Variable stdin_value : list string -> value.
Variable env : Env.
Variable configuration : string.

Notation build := (Recorder.build load stdin_value env configuration).
Notation record := (Recorder.record load dump stdin_value env configuration).
Notation open_recipe := (Recorder.open_recipe load configuration).

Lemma open_recipe_cases test_name command fs doc0 fs1 :
  open_recipe test_name command fs = (inr (inr doc0), fs1) ->
  exists exe,
    command0 command = inr exe /\
    if os_path_exists fs configuration then
      exists text d tcs default,
        read_file fs configuration = inr text /\ load text = inr (PDict d) /\
        od_get "test-cases" d = Some (PDict tcs) /\ od_get test_name tcs = None /\
        od_get "executable" d = Some default /\
        doc0 = install d tcs test_name
                 (if is_str exe default then [] else [("executable", PStr exe)])
    else doc0 = install [("executable", PStr exe); ("test-cases", PDict [])] [] test_name [].
Proof.
  unfold Recorder.open_recipe. destruct (os_path_exists fs configuration).
  - destruct (read_file fs configuration) as [e|text]; [discriminate|].
    cbn [mbind res_bind]. destruct (load text) as [e|doc] eqn:Hload; [discriminate|].
    cbn [mbind res_bind]. intros H.
    destruct (Recorder.merge_recipe test_name command doc) as [e|r] eqn:Hm;
      [discriminate|].
    apply merge_recipe_inv in Hm
      as [->|(d & tcs & exe & dflt & -> & Hd & Hn & He & Hx & ->)]; [discriminate|].
    inversion H; subst. exists exe. split; [exact He|].
    exists text, d, tcs, dflt. repeat split; assumption.
  - unfold Recorder.fresh_recipe. destruct (command0 command) as [e|exe] eqn:He;
      [discriminate|].
    cbn [mbind res_bind]. unfold mret, res_ret. intros [= <- <-].
    exists exe. split; reflexivity.
Qed.

Lemma record_success_doc test_name command fs fs' :
  record test_name command fs = (inr Ret0, fs') ->
  exists files proc after exe doc fs1,
    snapshot fs = inr files /\ popen env command fs = inr proc /\
    snapshot (fs_after proc) = inr after /\ command0 command = inr exe /\
    write_file fs1 configuration (dump doc) = inr fs' /\
    (if bool_decide (after ∖ files ≠ ∅)
     then move_all (set_iter env (after ∖ files)) (fs_after proc) = (inr tt, fs1)
     else fs1 = fs_after proc) /\
    if os_path_exists (fs_after proc) configuration then
      exists text d tcs default,
        read_file (fs_after proc) configuration = inr text /\ load text = inr (PDict d) /\
        od_get "test-cases" d = Some (PDict tcs) /\ od_get test_name tcs = None /\
        od_get "executable" d = Some default /\
        doc = install d tcs test_name
                (test_case_of stdin_value
                   (if is_str exe default then [] else [("executable", PStr exe)])
                   command proc (recorded_lines env proc) (after ∖ files)
                   (set_iter env (after ∖ files)))
    else doc = install [("executable", PStr exe); ("test-cases", PDict [])] [] test_name
                 (test_case_of stdin_value [] command proc (recorded_lines env proc)
                    (after ∖ files) (set_iter env (after ∖ files))).
Proof.
  unfold Recorder.record, mbind, Py_bind. intros H.
  destruct (build test_name command fs) as [[e|[m|doc]] fs1] eqn:Hb; try discriminate.
  unfold writes in H. destruct (write_file fs1 configuration (dump doc)) as [e|fs2] eqn:Hw;
    [discriminate|].
  unfold mret, Py_ret in H. inversion H; subst fs2. clear H.
  apply build_inv in Hb as (files & proc & after & Hs & Hp & Ha & Hopen).
  destruct (open_recipe test_name command (fs_after proc)) as [[e|[m|doc0]] fs2] eqn:Ho;
    [contradiction|destruct Hopen; discriminate|].
  destruct Hopen as (doc' & Hfill & [= <-]).
  apply open_recipe_cases in Ho as (exe & He & Hcases).
  exists files, proc, after, exe, doc, fs1.
  repeat (split; [assumption|]).
  assert (Hgen : forall d tcs tc0,
             tc0 = [] \/ tc0 = [("executable", PStr exe)] ->
             doc0 = install d tcs test_name tc0 ->
             (if bool_decide (after ∖ files ≠ ∅)
              then move_all (set_iter env (after ∖ files)) (fs_after proc) = (inr tt, fs1)
              else fs1 = fs_after proc) /\
             doc = install d tcs test_name
                     (test_case_of stdin_value tc0 command proc (recorded_lines env proc)
                        (after ∖ files) (set_iter env (after ∖ files)))).
  { intros d tcs tc0 Htc0 ->.
    rewrite fill_test_case_install in Hfill by exact (tc0_fresh _ _ Htc0).
    cbn zeta in Hfill. unfold recorded_lines.
    destruct (bool_decide (after ∖ files ≠ ∅)).
    - destruct (move_all _ _) as [[e|[]] fs3]; [discriminate|]. now inversion Hfill.
    - now inversion Hfill. }
  destruct (os_path_exists (fs_after proc) configuration).
  - destruct Hcases as (text & d & tcs & dflt & Hr & Hl & Hd & Hn & Hx & Hdoc0).
    assert (Htc0 : (if is_str exe dflt then [] else [("executable", PStr exe)]) = []
                   \/ (if is_str exe dflt then [] else [("executable", PStr exe)])
                      = [("executable", PStr exe)])
      by (destruct (is_str exe dflt); auto).
    destruct (Hgen d tcs _ Htc0 Hdoc0) as [Hmv Hdoc].
    split; [exact Hmv|]. exists text, d, tcs, dflt. repeat split; assumption.
  - destruct (Hgen _ _ _ (or_introl eq_refl) Hcases) as [Hmv Hdoc]. now split.
Qed.
End RecorderDocument.

Lemma od_set_keys {V} k (v v0 : V) d :
  od_get k d = Some v0 -> map fst (od_set k v d) = map fst d.
Proof.
  induction d as [|[k0 w] d IH]; cbn [od_get od_set]; [discriminate|].
  destruct (String.eqb k k0) eqn:E; [reflexivity|].
  intros H. cbn [map fst]. now rewrite IH.
Qed.

Lemma read_file_exists fs p text : read_file fs p = inr text -> os_path_exists fs p = true.
Proof.
  unfold read_file, os_path_exists.
  destruct (lookup_path fs p) as [[|]|]; [reflexivity|reflexivity|discriminate].
Qed.

Lemma test_case_of_executable stdin_value tc0 exe command proc lines new_files order :
  tc0 = [] \/ tc0 = [("executable", PStr exe)] ->
  od_get "executable" (test_case_of stdin_value tc0 command proc lines new_files order)
  = od_get "executable" tc0.
Proof.
  intros [-> | ->]; unfold test_case_of, field;
    destruct (truthy_list (command_tail command)), (truthy_list lines),
      (truthy_str (stdout proc)), (truthy_str (stderr proc)),
      (bool_decide (new_files ≠ ∅)); reflexivity.
Qed.

Lemma test_case_of_order stdin_value tc0 exe command proc lines new_files order :
  tc0 = [] \/ tc0 = [("executable", PStr exe)] ->
  sublist (map fst (test_case_of stdin_value tc0 command proc lines new_files order))
    key_order.
Proof.
  intros [-> | ->]; unfold test_case_of, field, key_order, recorded_keys;
    destruct (truthy_list (command_tail command)), (truthy_list lines),
      (truthy_str (stdout proc)), (truthy_str (stderr proc)),
      (bool_decide (new_files ≠ ∅)); cbn [app map fst];
    repeat first [apply sublist_nil | apply sublist_skip | apply sublist_cons].
Qed.

Section RecorderRecipe.
Variable load : string -> res value.
Variable dump : value -> string.
Variable stdin_value : list string -> value.
Variable env : Env.
Variable configuration : string.

Notation record := (Recorder.record load dump stdin_value env configuration).

(** The document written into a recipe that was there. *)
Lemma record_into_recipe test_name command fs fs' proc text d tcs :
  record test_name command fs = (inr Ret0, fs') ->
  popen env command fs = inr proc ->
  recipe_on_disk load (fs_after proc) configuration text d tcs ->
  exists exe default tc,
    command0 command = inr exe /\ od_get "executable" d = Some default /\
    od_get test_name tcs = None /\
    od_get "executable" tc = (if is_str exe default then None else Some (PStr exe)) /\
    read_file fs' configuration = inr (dump (install d tcs test_name tc)).
Proof.
  intros H Hp (Hr & Hl & Hd).
  apply record_success_doc in H
    as (files & proc' & after & exe & doc & fs1 & Hs & Hp' & Ha & He & Hw & _ & Hdoc).
  rewrite Hp in Hp'. inversion Hp'; subst proc'. clear Hp'.
  rewrite (read_file_exists _ _ _ Hr) in Hdoc.
  destruct Hdoc as (text' & d' & tcs' & dflt & Hr' & Hl' & Hd' & Hn & Hx & ->).
  rewrite Hr in Hr'. inversion Hr'; subst text'.
  rewrite Hl in Hl'. inversion Hl'; subst d'.
  rewrite Hd in Hd'. inversion Hd'; subst tcs'.
  exists exe, dflt. eexists.
  repeat (split; [first [reflexivity|assumption]|]).
  split; [|exact (write_file_read _ _ _ _ Hw)].
  rewrite (test_case_of_executable _ _ exe) by (destruct (is_str exe dflt); auto).
  now destruct (is_str exe dflt).
Qed.

(** The document written where there was no recipe. *)
Lemma record_fresh_recipe test_name command fs fs' proc :
  record test_name command fs = (inr Ret0, fs') ->
  popen env command fs = inr proc ->
  os_path_exists (fs_after proc) configuration = false ->
  exists exe tc,
    command0 command = inr exe /\
    od_get "executable" tc = None /\
    od_get "return-code" tc = Some (PInt (returncode proc)) /\
    read_file fs' configuration =
      inr (dump (PDict [("executable", PStr exe);
                        ("test-cases", PDict [(test_name, PDict tc)])])).
Proof.
  intros H Hp Hex.
  apply record_success_doc in H
    as (files & proc' & after & exe & doc & fs1 & Hs & Hp' & Ha & He & Hw & _ & Hdoc).
  rewrite Hp in Hp'. inversion Hp'; subst proc'. clear Hp'.
  rewrite Hex in Hdoc. subst doc.
  exists exe. eexists. split; [exact He|].
  split; [|split; [|exact (write_file_read _ _ _ _ Hw)]].
  - now rewrite (test_case_of_executable _ [] exe) by auto.
  - apply (test_case_of_keys stdin_value [] exe). auto.
Qed.
End RecorderRecipe.

Lemma install_executable d tcs test_name tc default :
  od_get "executable" d = Some default ->
  getitem (install d tcs test_name tc) "executable" = inr default.
Proof.
  intros H. unfold install. cbn [getitem].
  rewrite od_get_set_ne by discriminate. now rewrite H.
Qed.

Lemma install_appended d tcs test_name tc :
  od_get "test-cases" d = Some (PDict tcs) -> od_get test_name tcs = None ->
  appended d tcs test_name (install d tcs test_name tc).
Proof.
  intros Hd Hn. unfold install. eexists. exists tc.
  split; [reflexivity|]. split; [exact (od_set_keys _ _ _ _ Hd)|].
  split; [intros k Hk; apply od_get_set_ne; congruence|].
  rewrite od_get_set_eq. now rewrite (od_set_absent _ _ _ Hn).
Qed.

Lemma recipe_on_disk_recorded :
  recipe_on_disk Demo.yaml_load (fs_after Cases.cat_ping) "recipe.yaml" Demo.recipe_text
    Cases.recipe_items Cases.recipe_cases.
Proof. repeat split; vm_compute; reflexivity. Qed.

(** X5. The executable of a recording into a recipe that is there (lines
    118-119, 174-175). When [record_test] returns 0, the document it wrote
    has the recipe's [executable] as it was, and the new test case has an
    [executable] of its own exactly when the first word of the command is
    another one than the recipe's; it is then that word. *)
Theorem executable_override yaml_load yaml_dump compose emit env configuration
    test_name command fs fs' proc text d tcs :
  popen env command fs = inr proc ->
  (recipe_on_disk yaml_load (fs_after proc) configuration text d tcs ->
   Runner.record_test yaml_load yaml_dump env configuration test_name command fs
     = (inr Ret0, fs') ->
   exists exe doc,
     command0 command = inr exe /\
     read_file fs' configuration = inr (yaml_dump doc) /\
     executable_as_recorded d test_name exe doc) /\
  (recipe_on_disk (Standalone.ordered_load compose) (fs_after proc) "contest_recipe.yaml"
     text d tcs ->
   Standalone.record_test compose emit env command test_name fs = (inr Ret0, fs') ->
   exists exe doc,
     command0 command = inr exe /\
     read_file fs' "contest_recipe.yaml" = inr (Standalone.yaml_dump emit doc) /\
     executable_as_recorded d test_name exe doc).
Proof.
  intros Hp. split; intros Hdisk H.
  - rewrite Runner_record_test_eq in H.
    destruct (record_into_recipe _ _ _ _ _ _ _ _ _ _ _ _ _ H Hp Hdisk)
      as (exe & dflt & tc & He & Hx & Hn & Htc & Hw).
    exists exe. eexists. split; [exact He|]. split; [exact Hw|].
    exists dflt, tc. split; [exact Hx|].
    split; [now apply install_executable|]. split; [apply get_at_install|exact Htc].
  - rewrite Standalone_record_test_eq in H.
    destruct (record_into_recipe _ _ _ _ _ _ _ _ _ _ _ _ _ H Hp Hdisk)
      as (exe & dflt & tc & He & Hx & Hn & Htc & Hw).
    exists exe. eexists. split; [exact He|]. split; [exact Hw|].
    exists dflt, tc. split; [exact Hx|].
    split; [now apply install_executable|]. split; [apply get_at_install|exact Htc].
Qed.

(** [cat] recorded into the recipe of [echo]: the test case names [cat]. *)
Lemma executable_override_witness :
  exists exe doc,
    command0 ["cat"] = inr exe /\
    read_file Cases.recorded_b "recipe.yaml" = inr (Demo.yaml_dump doc) /\
    executable_as_recorded Cases.recipe_items "b" exe doc.
Proof.
  apply (proj1 (executable_override Demo.yaml_load Demo.yaml_dump Demo.compose Demo.emit
                  (Demo.env ["ping"]) "recipe.yaml" "b" ["cat"] Demo.recorded_dir
                  Cases.recorded_b Cases.cat_ping Demo.recipe_text Cases.recipe_items
                  Cases.recipe_cases eq_refl)).
  - exact recipe_on_disk_recorded.
  - vm_compute. reflexivity.
Defined.

(** X6. A recording into a recipe that is there adds and does not take
    away. When [record_test] returns 0, the document it wrote is the
    recipe it read with one test case more: the keys of the recipe are the
    same, in the same order; what is under every key but [test-cases] is
    unchanged; the test cases that were there are there, unchanged and in
    their order; and the new one comes last. *)
Theorem recording_appends yaml_load yaml_dump compose emit env configuration
    test_name command fs fs' proc text d tcs :
  popen env command fs = inr proc ->
  (recipe_on_disk yaml_load (fs_after proc) configuration text d tcs ->
   Runner.record_test yaml_load yaml_dump env configuration test_name command fs
     = (inr Ret0, fs') ->
   exists doc,
     read_file fs' configuration = inr (yaml_dump doc) /\
     appended d tcs test_name doc) /\
  (recipe_on_disk (Standalone.ordered_load compose) (fs_after proc) "contest_recipe.yaml"
     text d tcs ->
   Standalone.record_test compose emit env command test_name fs = (inr Ret0, fs') ->
   exists doc,
     read_file fs' "contest_recipe.yaml" = inr (Standalone.yaml_dump emit doc) /\
     appended d tcs test_name doc).
Proof.
  intros Hp. split; intros Hdisk H.
  - rewrite Runner_record_test_eq in H.
    destruct (record_into_recipe _ _ _ _ _ _ _ _ _ _ _ _ _ H Hp Hdisk)
      as (exe & dflt & tc & He & Hx & Hn & Htc & Hw).
    eexists. split; [exact Hw|]. apply install_appended; [apply Hdisk|exact Hn].
  - rewrite Standalone_record_test_eq in H.
    destruct (record_into_recipe _ _ _ _ _ _ _ _ _ _ _ _ _ H Hp Hdisk)
      as (exe & dflt & tc & He & Hx & Hn & Htc & Hw).
    eexists. split; [exact Hw|]. apply install_appended; [apply Hdisk|exact Hn].
Qed.

Lemma recording_appends_witness :
  exists doc,
    read_file Cases.recorded_b "recipe.yaml" = inr (Demo.yaml_dump doc) /\
    appended Cases.recipe_items Cases.recipe_cases "b" doc.
Proof.
  apply (proj1 (recording_appends Demo.yaml_load Demo.yaml_dump Demo.compose Demo.emit
                  (Demo.env ["ping"]) "recipe.yaml" "b" ["cat"] Demo.recorded_dir
                  Cases.recorded_b Cases.cat_ping Demo.recipe_text Cases.recipe_items
                  Cases.recipe_cases eq_refl)).
  - exact recipe_on_disk_recorded.
  - vm_compute. reflexivity.
Defined.

(** X7. The first recording (lines 121-125, 177-181). When there is no
    recipe file after the child has run and [record_test] returns 0, the
    document it wrote has two keys, [executable] and [test-cases] in this
    order; the executable is the first word of the command; the test cases
    are the new one alone, and it has a [return-code] and no [executable]
    of its own. *)
Theorem first_recording_document yaml_load yaml_dump compose emit env configuration
    test_name command fs fs' proc :
  popen env command fs = inr proc ->
  (os_path_exists (fs_after proc) configuration = false ->
   Runner.record_test yaml_load yaml_dump env configuration test_name command fs
     = (inr Ret0, fs') ->
   exists exe tc,
     command0 command = inr exe /\
     od_get "executable" tc = None /\
     od_get "return-code" tc = Some (PInt (returncode proc)) /\
     read_file fs' configuration =
       inr (yaml_dump (PDict [("executable", PStr exe);
                              ("test-cases", PDict [(test_name, PDict tc)])]))) /\
  (os_path_exists (fs_after proc) "contest_recipe.yaml" = false ->
   Standalone.record_test compose emit env command test_name fs = (inr Ret0, fs') ->
   exists exe tc,
     command0 command = inr exe /\
     od_get "executable" tc = None /\
     od_get "return-code" tc = Some (PInt (returncode proc)) /\
     read_file fs' "contest_recipe.yaml" =
       inr (Standalone.yaml_dump emit
              (PDict [("executable", PStr exe);
                      ("test-cases", PDict [(test_name, PDict tc)])]))).
Proof.
  intros Hp. split; intros Hex H.
  - rewrite Runner_record_test_eq in H.
    exact (record_fresh_recipe _ _ _ _ _ _ _ _ _ _ H Hp Hex).
  - rewrite Standalone_record_test_eq in H.
    exact (record_fresh_recipe _ _ _ _ _ _ _ _ _ _ H Hp Hex).
Qed.

(** Scenario A, in an empty directory. *)
Lemma first_recording_document_witness :
  exists exe tc,
    command0 ["echo"; "hello"] = inr exe /\
    od_get "executable" tc = None /\
    od_get "return-code" tc = Some (PInt 0) /\
    read_file (Dir [("recipe.yaml", File "test-cases: a")]) "recipe.yaml" =
      inr (Demo.yaml_dump (PDict [("executable", PStr exe);
                                  ("test-cases", PDict [("a", PDict tc)])])).
Proof.
  apply (proj1 (first_recording_document Demo.yaml_load Demo.yaml_dump Demo.compose
                  Demo.emit (Demo.env []) "recipe.yaml" "a" ["echo"; "hello"]
                  Demo.empty_dir (Dir [("recipe.yaml", File "test-cases: a")])
                  (Demo.finished 0 ("hello" ++ newline) Demo.empty_dir) eq_refl)).
  - reflexivity.
  - vm_compute. reflexivity.
Defined.

(** X8. The keys of a recorded test case come in the order in which they
    are assigned: [executable], [return-code], [argv], [stdin], [stdout],
    [stderr], [ofstreams], each at most once and those that are left out
    aside. *)
Theorem test_case_key_order yaml_load yaml_dump compose emit env configuration
    test_name command fs fs' :
  (Runner.record_test yaml_load yaml_dump env configuration test_name command fs
     = (inr Ret0, fs') ->
   exists doc tc,
     read_file fs' configuration = inr (yaml_dump doc) /\
     get_at ["test-cases"; test_name] doc = inr (PDict tc) /\
     sublist (map fst tc) key_order) /\
  (Standalone.record_test compose emit env command test_name fs = (inr Ret0, fs') ->
   exists doc tc,
     read_file fs' "contest_recipe.yaml" = inr (Standalone.yaml_dump emit doc) /\
     get_at ["test-cases"; test_name] doc = inr (PDict tc) /\
     sublist (map fst tc) key_order).
Proof.
  split; intros H.
  - rewrite Runner_record_test_eq in H.
    apply record_success_inv in H as (doc & fs1 & Hb & Hw).
    destruct Hb as (files & proc & after & d & tcs & tc0 & exe & _ & _ & _ & _ & _ & Htc0
                    & -> & _).
    eexists. eexists. split; [exact (write_file_read _ _ _ _ Hw)|].
    split; [apply get_at_install|]. exact (test_case_of_order _ _ exe _ _ _ _ _ Htc0).
  - rewrite Standalone_record_test_eq in H.
    apply record_success_inv in H as (doc & fs1 & Hb & Hw).
    destruct Hb as (files & proc & after & d & tcs & tc0 & exe & _ & _ & _ & _ & _ & Htc0
                    & -> & _).
    eexists. eexists. split; [exact (write_file_read _ _ _ _ Hw)|].
    split; [apply get_at_install|]. exact (test_case_of_order _ _ exe _ _ _ _ _ Htc0).
Qed.

Lemma test_case_key_order_witness :
  exists doc tc,
    read_file Cases.recorded_b "recipe.yaml" = inr (Demo.yaml_dump doc) /\
    get_at ["test-cases"; "b"] doc = inr (PDict tc) /\
    sublist (map fst tc) key_order.
Proof.
  apply (proj1 (test_case_key_order Demo.yaml_load Demo.yaml_dump Demo.compose Demo.emit
                  (Demo.env ["ping"]) "recipe.yaml" "b" ["cat"] Demo.recorded_dir
                  Cases.recorded_b)).
  vm_compute. reflexivity.
Defined.

(** ** A recipe that cannot be used *)

Section RecorderEdges.
Variable load : string -> res value.
Variable dump : value -> string.
Variable stdin_value : list string -> value.
Variable env : Env.
Variable configuration : string.

Notation record := (Recorder.record load dump stdin_value env configuration).
Notation open_recipe := (Recorder.open_recipe load configuration).

Lemma open_recipe_loaded test_name command fs text doc :
  read_file fs configuration = inr text -> load text = inr doc ->
  open_recipe test_name command fs = (Recorder.merge_recipe test_name command doc, fs).
Proof.
  intros Hr Hl. unfold Recorder.open_recipe.
  rewrite (read_file_exists _ _ _ Hr), Hr. cbn [mbind res_bind]. now rewrite Hl.
Qed.

Lemma record_open_message test_name command fs proc m :
  working_dir fs -> popen env command fs = inr proc -> working_dir (fs_after proc) ->
  fst (open_recipe test_name command (fs_after proc)) = inr (inl m) ->
  record test_name command fs = (inr (RetMsg m), fs_after proc).
Proof.
  intros Hwd Hp Hwd' Ho.
  destruct (snapshot_ok fs Hwd) as [files [Hs _]].
  destruct (snapshot_ok _ Hwd') as [after [Ha _]].
  unfold Recorder.record, mbind, Py_bind.
  rewrite (build_run _ _ _ _ _ _ _ _ _ _ Hs Hp Ha).
  pose proof (open_recipe_fs load configuration test_name command (fs_after proc)) as Hfs.
  destruct (Recorder.open_recipe _ _ _ _ _) as [r fs1]. cbn [fst snd] in *.
  now subst.
Qed.

Lemma merge_not_a_mapping test_name command d v :
  od_get "test-cases" d = Some v -> not_a_mapping v = true ->
  Recorder.merge_recipe test_name command (PDict d) =
  match contains test_name v with
  | inr true => inr (inl (duplicate_message test_name))
  | _ => raise TypeError
  end.
Proof.
  intros Hd Hv. unfold Recorder.merge_recipe. cbn [getitem]. rewrite Hd.
  cbn [mbind res_bind].
  destruct v as [|b|z|s|l|tcs]; try discriminate; cbn [contains mbind res_bind]; try reflexivity.
  - destruct (substring_at test_name s); [reflexivity|].
    cbn [modify_at getitem]. rewrite Hd. reflexivity.
  - destruct (existsb (is_str test_name) l); [reflexivity|].
    cbn [modify_at getitem]. rewrite Hd. reflexivity.
Qed.

Lemma record_not_a_mapping test_name command fs proc text d v :
  working_dir fs -> popen env command fs = inr proc -> working_dir (fs_after proc) ->
  read_file (fs_after proc) configuration = inr text -> load text = inr (PDict d) ->
  od_get "test-cases" d = Some v -> not_a_mapping v = true ->
  record test_name command fs =
  (match contains test_name v with
   | inr true => inr (RetMsg (duplicate_message test_name))
   | _ => raise TypeError
   end, fs_after proc).
Proof.
  intros Hwd Hp Hwd' Hr Hl Hd Hv.
  pose proof (open_recipe_loaded test_name command _ _ _ Hr Hl) as Ho.
  rewrite (merge_not_a_mapping _ _ _ _ Hd Hv) in Ho.
  destruct (contains test_name v) as [e|[|]].
  - apply record_open_error; try assumption. now rewrite Ho.
  - apply record_open_message; try assumption. now rewrite Ho.
  - apply record_open_error; try assumption. now rewrite Ho.
Qed.

Lemma record_unreadable test_name command fs proc :
  working_dir fs -> popen env command fs = inr proc -> working_dir (fs_after proc) ->
  (os_path_isdir (fs_after proc) configuration = true ->
   record test_name command fs = (raise (IsADirectoryError configuration), fs_after proc)) /\
  (forall text e,
      read_file (fs_after proc) configuration = inr text -> load text = inl e ->
      record test_name command fs = (raise e, fs_after proc)).
Proof.
  intros Hwd Hp Hwd'. split.
  - intros Hdir. apply record_open_error; try assumption.
    unfold Recorder.open_recipe, os_path_exists, read_file.
    unfold os_path_isdir in Hdir.
    destruct (lookup_path (fs_after proc) configuration) as [[c|es]|]; try discriminate.
    reflexivity.
  - intros text e Hr Hl. apply record_open_error; try assumption.
    now apply (open_recipe_load_error _ _ _ _ _ text).
Qed.
End RecorderEdges.

(** X9. A recipe whose [test-cases] is there but is not a mapping (nothing
    after the key, a text, a list) is not refused as such. After the child
    has run, the name is looked for in what is there (line 114, 170): when
    it is found, as a part of the text or an item of the list,
    [record_test] returns the duplicate-name message although no test case
    has this name; in every other case [TypeError] comes out of
    [record_test]. The tree is as the child left it. *)
Theorem test_cases_not_a_mapping yaml_load yaml_dump compose emit env configuration
    test_name command fs proc text d v :
  working_dir fs -> popen env command fs = inr proc -> working_dir (fs_after proc) ->
  od_get "test-cases" d = Some v -> not_a_mapping v = true ->
  (read_file (fs_after proc) configuration = inr text -> yaml_load text = inr (PDict d) ->
   Runner.record_test yaml_load yaml_dump env configuration test_name command fs =
   (match contains test_name v with
    | inr true => inr (RetMsg (duplicate_message test_name))
    | _ => raise TypeError
    end, fs_after proc)) /\
  (read_file (fs_after proc) "contest_recipe.yaml" = inr text ->
   Standalone.ordered_load compose text = inr (PDict d) ->
   Standalone.record_test compose emit env command test_name fs =
   (match contains test_name v with
    | inr true => inr (RetMsg (duplicate_message test_name))
    | _ => raise TypeError
    end, fs_after proc)).
Proof.
  intros Hwd Hp Hwd' Hd Hv. split; intros Hr Hl.
  - rewrite Runner_record_test_eq. now apply (record_not_a_mapping _ _ _ _ _ _ _ _ _ text d).
  - rewrite Standalone_record_test_eq.
    now apply (record_not_a_mapping _ _ _ _ _ _ _ _ _ text d).
Qed.

(** [test-cases: smoke tests] and the name [smoke]; [test-cases:] and any
    name. *)
Lemma test_cases_not_a_mapping_witness :
  Runner.record_test Cases.yaml_load Demo.yaml_dump (Demo.env []) "recipe.yaml" "smoke"
    ["echo"] Cases.prose_dir
  = (inr (RetMsg "smoke is already a test case! Choose a new name!"), Cases.prose_dir) /\
  Runner.record_test Cases.yaml_load Demo.yaml_dump (Demo.env []) "recipe.yaml" "first"
    ["echo"] Cases.blank_dir
  = (raise TypeError, Cases.blank_dir).
Proof.
  split.
  - apply (proj1 (test_cases_not_a_mapping Cases.yaml_load Demo.yaml_dump Cases.compose
                    Demo.emit (Demo.env []) "recipe.yaml" "smoke" ["echo"] Cases.prose_dir
                    (Demo.finished 0 newline Cases.prose_dir) Cases.prose_text
                    [("executable", PStr "echo"); ("test-cases", PStr "smoke tests")]
                    (PStr "smoke tests")
                    ltac:(split; reflexivity) eq_refl ltac:(split; reflexivity)
                    eq_refl eq_refl)); reflexivity.
  - apply (proj1 (test_cases_not_a_mapping Cases.yaml_load Demo.yaml_dump Cases.compose
                    Demo.emit (Demo.env []) "recipe.yaml" "first" ["echo"] Cases.blank_dir
                    (Demo.finished 0 newline Cases.blank_dir) Cases.blank_text
                    [("executable", PStr "echo"); ("test-cases", PNone)] PNone
                    ltac:(split; reflexivity) eq_refl ltac:(split; reflexivity)
                    eq_refl eq_refl)); reflexivity.
Defined.

(** X10. A recipe that cannot be read. The recipe is at a plain path
    (for runner.py; contest-gen.py has [contest_recipe.yaml]). After the
    child has run, [IsADirectoryError] comes out of [record_test] when the
    path of the recipe is a directory; and when the text of the recipe
    file is not read, the exception of the YAML library comes out of it:
    for runner.py what [yaml.load] raises, for contest-gen.py what the
    scanner, the parser or the composer raises. The tree is as the child
    left it: nothing is moved and nothing is written. *)
Theorem recipe_unreadable yaml_load yaml_dump compose emit env configuration
    test_name command fs proc :
  working_dir fs -> popen env command fs = inr proc -> working_dir (fs_after proc) ->
  (plain_path configuration = true ->
   os_path_isdir (fs_after proc) configuration = true ->
   Runner.record_test yaml_load yaml_dump env configuration test_name command fs
     = (raise (IsADirectoryError configuration), fs_after proc)) /\
  (forall text e,
      plain_path configuration = true ->
      read_file (fs_after proc) configuration = inr text -> yaml_load text = inl e ->
      Runner.record_test yaml_load yaml_dump env configuration test_name command fs
        = (raise e, fs_after proc)) /\
  (os_path_isdir (fs_after proc) "contest_recipe.yaml" = true ->
   Standalone.record_test compose emit env command test_name fs
     = (raise (IsADirectoryError "contest_recipe.yaml"), fs_after proc)) /\
  (forall text e,
      read_file (fs_after proc) "contest_recipe.yaml" = inr text ->
      compose text = inl e ->
      Standalone.record_test compose emit env command test_name fs
        = (raise e, fs_after proc)).
Proof.
  intros Hwd Hp Hwd'.
  rewrite Runner_record_test_eq, Standalone_record_test_eq.
  destruct (record_unreadable yaml_load yaml_dump joined_stdin env configuration test_name
              command fs proc Hwd Hp Hwd') as [HR1 HR2].
  destruct (record_unreadable (Standalone.ordered_load compose) (Standalone.yaml_dump emit)
              strs env "contest_recipe.yaml" test_name command fs proc Hwd Hp Hwd')
    as [HS1 HS2].
  split; [intros _; exact HR1|]. split; [intros text e _; apply HR2|].
  split; [exact HS1|]. intros text e Hr Hc. apply (HS2 text e Hr).
  unfold Standalone.ordered_load. now rewrite Hc.
Qed.

Lemma recipe_unreadable_witness :
  Runner.record_test Demo.yaml_load Demo.yaml_dump (Demo.env []) "recipe.yaml" "a"
    ["echo"; "hello"] Cases.taken_dir
  = (raise (IsADirectoryError "recipe.yaml"), Cases.taken_dir) /\
  Runner.record_test Demo.yaml_load Demo.yaml_dump (Demo.env []) "recipe.yaml" "a"
    ["echo"; "hello"] Cases.prose_dir
  = (raise YAMLError, Cases.prose_dir).
Proof.
  split.
  - apply (proj1 (recipe_unreadable Demo.yaml_load Demo.yaml_dump Demo.compose Demo.emit
                    (Demo.env []) "recipe.yaml" "a" ["echo"; "hello"] Cases.taken_dir
                    (Demo.finished 0 ("hello" ++ newline) Cases.taken_dir)
                    ltac:(split; reflexivity) eq_refl ltac:(split; reflexivity)));
      reflexivity.
  - apply (proj1 (proj2 (recipe_unreadable Demo.yaml_load Demo.yaml_dump Demo.compose
                           Demo.emit (Demo.env []) "recipe.yaml" "a" ["echo"; "hello"]
                           Cases.prose_dir
                           (Demo.finished 0 ("hello" ++ newline) Cases.prose_dir)
                           ltac:(split; reflexivity) eq_refl ltac:(split; reflexivity)))
             Cases.prose_text YAMLError); reflexivity.
Defined.

(** ** Writing the recipe *)



Section RecorderOutcome.
Variable load : string -> res value.
Variable dump : value -> string.
Variable stdin_value : list string -> value.
Variable env : Env.
Variable configuration : string.

Notation build := (Recorder.build load stdin_value env configuration).
Notation record := (Recorder.record load dump stdin_value env configuration).
Notation open_recipe := (Recorder.open_recipe load configuration).

Lemma record_of_build test_name command fs :
  record test_name command fs =
  match build test_name command fs with
  | (inl e, fs1) => (inl e, fs1)
  | (inr (inl m), fs1) => (inr (RetMsg m), fs1)
  | (inr (inr doc), fs1) =>
      match write_file fs1 configuration (dump doc) with
      | inl e => (inl e, fs1)
      | inr fs' => (inr Ret0, fs')
      end
  end.
Proof.
  unfold Recorder.record, mbind, Py_bind, writes, mret, Py_ret.
  destruct (build test_name command fs) as [[e|[m|doc]] fs1]; try reflexivity.
  now destruct (write_file fs1 configuration (dump doc)).
Qed.




Lemma record_frame test_name command fs files proc after fs' :
  popen env command fs = inr proc -> snapshot fs = inr files ->
  snapshot (fs_after proc) = inr after -> working_dir (fs_after proc) ->
  set_iter env (after ∖ files) ≡ₚ elements (after ∖ files) ->
  (forall p, p ∈ after ∖ files -> Recorder.base_file_of p ∉ after ∖ files) ->
  (forall p, p ∈ after ∖ files ->
             os_path_isdir (fs_after proc) (Recorder.base_file_of p) = false) ->
  record test_name command fs = (inr Ret0, fs') ->
  forall q, q <> components configuration ->
    (forall p, p ∈ after ∖ files ->
       q <> components p /\ q <> components (Recorder.base_file_of p)) ->
    stat fs' q = stat (fs_after proc) q.
Proof.
  intros Hp Hs Ha Hwd Hperm Hbase Hdir H q Hq Hun.
  rewrite record_of_build in H.
  destruct (build test_name command fs) as [[e|[m|doc]] fs1] eqn:Hb; try discriminate.
  destruct (write_file fs1 configuration (dump doc)) as [e|fs2] eqn:Hw; [discriminate|].
  inversion H; subst fs2. clear H.
  pose proof (build_inv _ _ _ _ _ _ _ _ _ Hb) as (files' & proc' & after' & Hs' & Hp' & Ha' & Ho).
  rewrite Hs in Hs'. rewrite Hp in Hp'. inversion Hs'; inversion Hp'; subst files' proc'.
  rewrite Ha in Ha'. inversion Ha'; subst after'. clear Hs' Hp' Ha'.
  destruct (Recorder.open_recipe load configuration test_name command (fs_after proc))
    as [[e|[m|doc0]] fs3] eqn:Hopen; [contradiction|destruct Ho; discriminate|].
  destruct (build_moves load stdin_value env configuration test_name command fs files proc
              after doc0 fs3 Hs Hp Ha Hwd Hopen Hperm Hbase Hdir)
    as (doc' & fs1' & Hb' & _ & Hframe).
  rewrite Hb in Hb'. inversion Hb'; subst doc' fs1'.
  rewrite (write_file_stat _ _ _ _ Hw), decide_False by exact Hq.
  now apply Hframe.
Qed.


Lemma record_again test_name command fs doc fs1 fs' :
  build test_name command fs = (inr (inr doc), fs1) ->
  write_file fs1 configuration (dump doc) = inr fs' ->
  load (dump doc) = inr doc ->
  record test_name command fs = (inr Ret0, fs') /\
  forall env2 command2 proc2,
    working_dir fs' -> popen env2 command2 fs' = inr proc2 ->
    working_dir (fs_after proc2) ->
    read_file (fs_after proc2) configuration = inr (dump doc) ->
    Recorder.record load dump stdin_value env2 configuration test_name command2 fs'
    = (inr (RetMsg (duplicate_message test_name)), fs_after proc2).
Proof.
  intros Hb Hw Hl. split; [now rewrite record_of_build, Hb, Hw|].
  intros env2 command2 proc2 Hwd Hp2 Hwd2 Hr.
  pose proof (build_built _ _ _ _ _ _ _ _ _ Hb)
    as (files & proc & after & d & tcs & tc0 & exe & _ & _ & _ & _ & _ & _ & Hdoc & _).
  unfold install in Hdoc.
  eapply record_duplicate; try eassumption.
  - split; [exact Hr|]. split; [rewrite Hl, Hdoc; reflexivity|]. apply od_get_set_eq.
  - unfold od_mem. now rewrite od_get_set_eq.
Qed.
End RecorderOutcome.



(** X12. What a recording leaves alone. The set of new files yields each
    of them once; none of them is at the reference path of another, and no
    reference path is a directory; for runner.py the recipe is at a plain
    path. When [record_test] then returns 0, every path that is not the
    recipe's, not a new file's and not a new file's reference path holds
    after the recording what it held when the child was done: the same
    file with the same content, the same directory, or nothing. *)
Theorem nothing_else_touched yaml_load yaml_dump compose emit env configuration
    test_name command fs files proc after fs' :
  popen env command fs = inr proc -> snapshot fs = inr files ->
  snapshot (fs_after proc) = inr after -> working_dir (fs_after proc) ->
  set_iter env (after ∖ files) ≡ₚ elements (after ∖ files) ->
  (forall p, p ∈ after ∖ files -> Recorder.base_file_of p ∉ after ∖ files) ->
  (forall p, p ∈ after ∖ files ->
             os_path_isdir (fs_after proc) (Recorder.base_file_of p) = false) ->
  (plain_path configuration = true ->
   Runner.record_test yaml_load yaml_dump env configuration test_name command fs
     = (inr Ret0, fs') ->
   forall q, q <> components configuration ->
     (forall p, p ∈ after ∖ files ->
        q <> components p /\ q <> components (Recorder.base_file_of p)) ->
     stat fs' q = stat (fs_after proc) q) /\
  (Standalone.record_test compose emit env command test_name fs = (inr Ret0, fs') ->
   forall q, q <> components "contest_recipe.yaml" ->
     (forall p, p ∈ after ∖ files ->
        q <> components p /\ q <> components (Recorder.base_file_of p)) ->
     stat fs' q = stat (fs_after proc) q).
Proof.
  intros Hp Hs Ha Hwd Hperm Hbase Hdir. split.
  - intros _ H. rewrite Runner_record_test_eq in H.
    exact (record_frame _ _ _ _ _ _ _ _ _ _ _ _ Hp Hs Ha Hwd Hperm Hbase Hdir H).
  - intros H. rewrite Standalone_record_test_eq in H.
    exact (record_frame _ _ _ _ _ _ _ _ _ _ _ _ Hp Hs Ha Hwd Hperm Hbase Hdir H).
Qed.

(** [writer] where an earlier reference copy and the recipe lie: the recipe
    kept under the other name is as it was. *)
Lemma nothing_else_touched_witness :
  stat Cases.recorded_c ["contest_recipe.yaml"]
  = stat (Demo.created Demo.recorded_dir [("out.txt", "data")]) ["contest_recipe.yaml"].
Proof.
  assert (H : Runner.record_test Demo.yaml_load Demo.yaml_dump (Demo.env []) "recipe.yaml"
                "c" ["writer"] Demo.recorded_dir = (inr Ret0, Cases.recorded_c))
    by (vm_compute; reflexivity).
  assert (Hs : snapshot Demo.recorded_dir = inr {["./recipe.yaml"; "./contest_recipe.yaml"]})
    by (vm_compute; reflexivity).
  assert (Ha : snapshot (Demo.created Demo.recorded_dir [("out.txt", "data")])
               = inr {["./recipe.yaml"; "./contest_recipe.yaml"; "./out.txt"]})
    by (vm_compute; reflexivity).
  assert (Hnew : ({["./recipe.yaml"; "./contest_recipe.yaml"; "./out.txt"]}
                  ∖ {["./recipe.yaml"; "./contest_recipe.yaml"]} : gset string)
                 = {["./out.txt"]}) by (vm_compute; reflexivity).
  refine (proj1 (nothing_else_touched Demo.yaml_load Demo.yaml_dump Demo.compose Demo.emit
                   (Demo.env []) "recipe.yaml" "c" ["writer"] Demo.recorded_dir _
                   (Demo.finished 2 "" (Demo.created Demo.recorded_dir [("out.txt", "data")]))
                   _ Cases.recorded_c eq_refl Hs Ha _ _ _ _) eq_refl H
            ["contest_recipe.yaml"] _ _).
  - split; reflexivity.
  - rewrite Hnew. reflexivity.
  - rewrite Hnew. intros p Hp. apply elem_of_singleton in Hp. subst p.
    intros Hb. apply elem_of_singleton in Hb. vm_compute in Hb. discriminate.
  - rewrite Hnew. intros p Hp. apply elem_of_singleton in Hp. subst p. reflexivity.
  - vm_compute. discriminate.
  - rewrite Hnew. intros p Hp. apply elem_of_singleton in Hp. subst p.
    split; vm_compute; discriminate.
Defined.



Section RecorderAgain.
Variable load : string -> res value.
Variable dump : value -> string.
Variable stdin_value : list string -> value.
Variable env : Env.
Variable configuration : string.

Notation build := (Recorder.build load stdin_value env configuration).

Lemma record_accumulates name1 command1 fs doc1 fs1 fs' :
  build name1 command1 fs = (inr (inr doc1), fs1) ->
  write_file fs1 configuration (dump doc1) = inr fs' ->
  load (dump doc1) = inr doc1 ->
  forall env2 name2 command2 proc2 fs'',
    popen env2 command2 fs' = inr proc2 ->
    read_file (fs_after proc2) configuration = inr (dump doc1) ->
    Recorder.record load dump stdin_value env2 configuration name2 command2 fs'
      = (inr Ret0, fs'') ->
    exists d1 tcs1 tc1 doc2,
      doc1 = PDict d1 /\ od_get "test-cases" d1 = Some (PDict tcs1) /\
      od_get name1 tcs1 = Some (PDict tc1) /\
      read_file fs'' configuration = inr (dump doc2) /\
      appended d1 tcs1 name2 doc2.
Proof.
  intros Hb Hw Hl env2 name2 command2 proc2 fs'' Hp2 Hr H.
  pose proof (build_built _ _ _ _ _ _ _ _ _ Hb)
    as (files & proc & after & d & tcs & tc0 & exe & _ & _ & _ & _ & _ & _ & Hdoc & _).
  unfold install in Hdoc.
  set (tc1 := test_case_of _ _ _ _ _ _ _) in Hdoc.
  assert (Hdisk : recipe_on_disk load (fs_after proc2) configuration (dump doc1)
                    (od_set "test-cases" (PDict (od_set name1 (PDict tc1) tcs)) d)
                    (od_set name1 (PDict tc1) tcs)).
  { split; [exact Hr|]. split; [rewrite Hl, Hdoc; reflexivity|]. apply od_get_set_eq. }
  destruct (record_into_recipe _ _ _ _ _ _ _ _ _ _ _ _ _ H Hp2 Hdisk)
    as (exe2 & dflt & tc2 & _ & _ & Hn & _ & Hw2).
  eexists. eexists. eexists. eexists.
  split; [exact Hdoc|]. split; [apply od_get_set_eq|]. split; [apply od_get_set_eq|].
  split; [exact Hw2|]. apply install_appended; [apply od_get_set_eq|exact Hn].
Qed.
End RecorderAgain.

(** X14. A name recorded once is refused the second time (runner.py),
    when the YAML setup reads back the document it has written. The first
    recording built the document and wrote it; it returned 0. Any later
    recording under the same name, of any command, whose child leaves the
    recipe file as it is, returns the duplicate-name message and leaves
    the tree as its child left it. *)
Theorem recorded_name_refused_again yaml_load yaml_dump env configuration test_name
    command fs doc fs1 fs' :
  Runner.document yaml_load env configuration test_name command fs = (inr (inr doc), fs1) ->
  write_file fs1 configuration (yaml_dump doc) = inr fs' ->
  yaml_load (yaml_dump doc) = inr doc ->
  Runner.record_test yaml_load yaml_dump env configuration test_name command fs
    = (inr Ret0, fs') /\
  forall env2 command2 proc2,
    working_dir fs' -> popen env2 command2 fs' = inr proc2 ->
    working_dir (fs_after proc2) ->
    read_file (fs_after proc2) configuration = inr (yaml_dump doc) ->
    Runner.record_test yaml_load yaml_dump env2 configuration test_name command2 fs'
    = (inr (RetMsg (duplicate_message test_name)), fs_after proc2).
Proof.
  intros Hb Hw Hl. rewrite Runner_document_eq in Hb.
  destruct (record_again yaml_load yaml_dump joined_stdin env configuration test_name
              command fs doc fs1 fs' Hb Hw Hl) as [H1 H2].
  split; [now rewrite Runner_record_test_eq|].
  intros env2 command2 proc2 Hwd Hp2 Hwd2 Hr. rewrite Runner_record_test_eq.
  now apply H2.
Qed.

(** Scenario A recorded under [a]; then [writer], under [a] again. *)
Lemma recorded_name_refused_again_witness :
  Runner.record_test Cases.reload Demo.yaml_dump (Demo.env []) "recipe.yaml" "a"
    ["echo"; "hello"] Demo.empty_dir = (inr Ret0, Cases.recorded_a) /\
  Runner.record_test Cases.reload Demo.yaml_dump (Demo.env []) "recipe.yaml" "a"
    ["writer"] Cases.recorded_a
  = (inr (RetMsg (duplicate_message "a")),
     Demo.created Cases.recorded_a [("out.txt", "data")]).
Proof.
  destruct (recorded_name_refused_again Cases.reload Demo.yaml_dump (Demo.env [])
              "recipe.yaml" "a" ["echo"; "hello"] Demo.empty_dir Demo.scenario_A_doc
              Demo.empty_dir Cases.recorded_a eq_refl eq_refl eq_refl) as [H1 H2].
  split; [exact H1|].
  apply (H2 (Demo.env []) ["writer"]
            (Demo.finished 2 "" (Demo.created Cases.recorded_a [("out.txt", "data")]))).
  - split; reflexivity.
  - reflexivity.
  - split; reflexivity.
  - reflexivity.
Defined.

(** ** The command line *)

(** X15. contest-gen.py without something to record. Without
    [--generate] the script does nothing and ends with status 0, whatever
    the other arguments are. With [--generate] and without a name (no
    [--new-test-name], or an empty one) it ends with status 1 and the
    usage message on the standard error stream. In both cases no command
    is started, whatever the command is, and the tree is untouched. *)
Theorem standalone_cli_guards compose emit env inputs fs :
  (StandaloneCLI.generate inputs = None \/ StandaloneCLI.generate inputs = Some [] ->
   StandaloneCLI.main compose emit env inputs fs = (inr (0%Z, ""), fs)) /\
  (forall exe argv,
      StandaloneCLI.generate inputs = Some (exe :: argv) ->
      StandaloneCLI.new_test_name inputs = None \/
      StandaloneCLI.new_test_name inputs = Some "" ->
      StandaloneCLI.main compose emit env inputs fs
      = (inr (1%Z, (StandaloneCLI.usage_message ++ newline)%string), fs)).
Proof.
  unfold StandaloneCLI.main, StandaloneCLI.test. split.
  - intros [H|H]; rewrite H; reflexivity.
  - intros exe argv Hg [H|H]; rewrite Hg, H; reflexivity.
Qed.

Lemma standalone_cli_guards_witness :
  StandaloneCLI.main Demo.compose Demo.emit (Demo.env [])
    {| StandaloneCLI.configuration := "recipe.yaml"; StandaloneCLI.filters := [];
       StandaloneCLI.exclude_filters := []; StandaloneCLI.generate := Some ["writer"];
       StandaloneCLI.new_test_name := None; StandaloneCLI.verbose := false |}
    Demo.empty_dir
  = (inr (1%Z, (StandaloneCLI.usage_message ++ newline)%string), Demo.empty_dir).
Proof.
  apply (proj2 (standalone_cli_guards Demo.compose Demo.emit (Demo.env []) _ Demo.empty_dir)
           "writer" []); [reflexivity|left; reflexivity].
Defined.

Section MainOutcome.
Variable load : string -> res value.
Variable dump : value -> string.
Variable stdin_value : list string -> value.
Variable env : Env.
Variable configuration : string.

Notation record := (Recorder.record load dump stdin_value env configuration).

(** What [record_test] has done, from what it returned. *)
Lemma record_outcome test_name command fs r fs' :
  record test_name command fs = (inr r, fs') ->
  (r = Ret0 /\
   exists doc, read_file fs' configuration = inr (dump doc) /\
               keys_as_recorded env test_name command fs doc) \/
  (r = RetMsg (duplicate_message test_name) /\
   exists proc, popen env command fs = inr proc /\ fs' = fs_after proc).
Proof.
  intros H. destruct r as [|m].
  - left. split; [reflexivity|].
    apply record_success_inv in H as (doc & fs1 & Hb & Hw).
    exists doc. split; [exact (write_file_read _ _ _ _ Hw)|].
    exact (built_keys _ _ _ _ _ _ _ Hb).
  - right. apply record_message_inv in H as (-> & proc & files & after & Hp & -> & _).
    split; [reflexivity|]. eauto.
Qed.
End MainOutcome.

(** X16. The exit status of runner.py tells what was done. When the script
    ends by [sys.exit] (no exception), then either the status is 0,
    nothing is printed, and the recipe file holds the dump of a document
    with the new test case; or the status is 1, the duplicate-name message
    and a line end are on the standard error stream, and the tree is as
    the child left it. *)
Theorem runner_exit_status yaml_load yaml_dump env inputs fs status err fs' :
  RunnerCLI.main yaml_load yaml_dump env inputs fs = (inr (status, err), fs') ->
  (status = 0%Z /\ err = "" /\
   exists doc,
     read_file fs' (RunnerCLI.configuration inputs) = inr (yaml_dump doc) /\
     keys_as_recorded env (RunnerCLI.test_name inputs) (RunnerCLI.generate inputs) fs doc)
  \/
  (status = 1%Z /\
   err = (duplicate_message (RunnerCLI.test_name inputs) ++ newline)%string /\
   exists proc, popen env (RunnerCLI.generate inputs) fs = inr proc /\ fs' = fs_after proc).
Proof.
  unfold RunnerCLI.main, RunnerCLI.test, mbind, Py_bind, mret, Py_ret.
  destruct (Runner.record_test _ _ _ _ _ _ fs) as [[e|r] fs1] eqn:H; [discriminate|].
  intros [= Hst <-]. rewrite Runner_record_test_eq in H.
  apply record_outcome in H as [[-> Hdoc]|[-> Hproc]]; cbn [sys_exit] in Hst.
  - left. inversion Hst; subst. auto.
  - right. inversion Hst; subst. auto.
Qed.

(** Scenario D from the command line. *)
Lemma runner_exit_status_witness :
  RunnerCLI.main Demo.yaml_load Demo.yaml_dump (Demo.env [])
    {| RunnerCLI.configuration := "recipe.yaml"; RunnerCLI.test_name := "hello";
       RunnerCLI.generate := ["echo"; "hello"]; RunnerCLI.verbose := false |}
    Demo.recorded_dir
  = (inr (1%Z, ("hello is already a test case! Choose a new name!" ++ newline)%string),
     Demo.recorded_dir) /\
  exists proc, popen (Demo.env []) ["echo"; "hello"] Demo.recorded_dir = inr proc /\
               Demo.recorded_dir = fs_after proc.
Proof.
  assert (H : RunnerCLI.main Demo.yaml_load Demo.yaml_dump (Demo.env [])
                {| RunnerCLI.configuration := "recipe.yaml"; RunnerCLI.test_name := "hello";
                   RunnerCLI.generate := ["echo"; "hello"]; RunnerCLI.verbose := false |}
                Demo.recorded_dir
              = (inr (1%Z, ("hello is already a test case! Choose a new name!"
                            ++ newline)%string), Demo.recorded_dir))
    by (vm_compute; reflexivity).
  split; [exact H|].
  destruct (runner_exit_status _ _ _ _ _ _ _ _ H) as [(Hst & _)|(_ & _ & Hproc)];
    [discriminate|exact Hproc].
Defined.

(** X17. contest-gen.py records into [contest_recipe.yaml], whatever path
    is given as [configuration]. When the script is called with a command
    and ends by [sys.exit], then either the status is 0, nothing is
    printed, and [contest_recipe.yaml] holds the dump of a document with
    the new test case; or the status is 1 and the usage message or the
    duplicate-name message is on the standard error stream. *)
Theorem standalone_exit_status compose emit env inputs exe argv fs status err fs' :
  StandaloneCLI.generate inputs = Some (exe :: argv) ->
  StandaloneCLI.main compose emit env inputs fs = (inr (status, err), fs') ->
  (status = 0%Z /\ err = "" /\
   exists name doc,
     StandaloneCLI.new_test_name inputs = Some name /\
     read_file fs' "contest_recipe.yaml" = inr (Standalone.yaml_dump emit doc) /\
     keys_as_recorded env name (exe :: argv) fs doc)
  \/
  (status = 1%Z /\ err = (StandaloneCLI.usage_message ++ newline)%string /\ fs' = fs)
  \/
  (status = 1%Z /\
   exists name proc,
     StandaloneCLI.new_test_name inputs = Some name /\
     err = (duplicate_message name ++ newline)%string /\
     popen env (exe :: argv) fs = inr proc /\ fs' = fs_after proc).
Proof.
  intros Hg. unfold StandaloneCLI.main, StandaloneCLI.test. rewrite Hg.
  destruct (StandaloneCLI.new_test_name inputs) as [name|].
  2:{ intros [= <- <- <-]. right. left. auto. }
  destruct (truthy_str name); cbn [negb].
  2:{ intros [= <- <- <-]. right. left. auto. }
  unfold mbind, Py_bind, mret, Py_ret.
  destruct (Standalone.record_test compose emit env (exe :: argv) name fs)
    as [[e|r] fs1] eqn:H; [discriminate|].
  intros [= Hst <-]. rewrite Standalone_record_test_eq in H.
  apply record_outcome in H as [[-> Hdoc]|[-> Hproc]]; cbn [sys_exit] in Hst.
  - left. inversion Hst; subst. destruct Hdoc as (doc & Hdoc).
    split; [reflexivity|]. split; [reflexivity|]. exists name, doc. now split.
  - right. right. inversion Hst; subst. destruct Hproc as (proc & Hp & Hfs).
    split; [reflexivity|]. exists name, proc. auto.
Qed.

(** [echo hello] recorded with [other.yaml] given as configuration. *)
Lemma standalone_exit_status_witness :
  exists name doc,
    Some "a" = Some name /\
    read_file (Dir [("contest_recipe.yaml", File Demo.tagged_text)]) "contest_recipe.yaml"
      = inr (Standalone.yaml_dump Demo.emit doc) /\
    keys_as_recorded (Demo.env []) name ["echo"; "hello"] Demo.empty_dir doc.
Proof.
  destruct (standalone_exit_status Demo.compose Demo.emit (Demo.env [])
              {| StandaloneCLI.configuration := "other.yaml"; StandaloneCLI.filters := [];
                 StandaloneCLI.exclude_filters := [];
                 StandaloneCLI.generate := Some ["echo"; "hello"];
                 StandaloneCLI.new_test_name := Some "a"; StandaloneCLI.verbose := false |}
              "echo" ["hello"] Demo.empty_dir 0%Z ""
              (Dir [("contest_recipe.yaml", File Demo.tagged_text)]) eq_refl
              ltac:(vm_compute; reflexivity))
    as [(_ & _ & H)|[(Hst & _)|(Hst & _)]]; [exact H|discriminate|discriminate].
Defined.

(** ** ordered_load and yaml.dump *)

Lemma OrderedDict_fold_get (ps acc : list (string * value)) k :
  od_get k (fold_left (fun d kv => od_set (fst kv) (snd kv) d) ps acc) =
  match od_get k (rev ps) with Some v => Some v | None => od_get k acc end.
Proof.
  revert acc. induction ps as [|[k0 v0] ps IH]; intros acc; [reflexivity|].
  cbn [fold_left fst snd rev]. rewrite IH, od_get_app.
  destruct (od_get k (rev ps)) as [v|]; [reflexivity|].
  cbn [od_get]. destruct (String.eqb k k0) eqn:E.
  - apply String.eqb_eq in E. subst. apply od_get_set_eq.
  - apply od_get_set_ne. intros ->. now rewrite String.eqb_refl in E.
Qed.

Lemma od_get_absent {V} k (d : list (string * V)) : ~ In k (map fst d) -> od_get k d = None.
Proof.
  intros H. destruct (od_get k d) as [v|] eqn:E; [|reflexivity].
  exfalso. apply H. exact (od_get_In_fst _ _ _ E).
Qed.

Lemma OrderedDict_fold_nodup (ps acc : list (string * value)) :
  NoDup (map fst (acc ++ ps)) ->
  fold_left (fun d kv => od_set (fst kv) (snd kv) d) ps acc = acc ++ ps.
Proof.
  revert acc. induction ps as [|[k0 v0] ps IH]; intros acc Hnd; [now rewrite app_nil_r|].
  cbn [fold_left fst snd].
  rewrite od_set_absent.
  - rewrite IH; [now rewrite <- app_assoc|]. now rewrite <- app_assoc.
  - apply od_get_absent. rewrite map_app in Hnd. cbn [map fst] in Hnd.
    apply NoDup_app in Hnd as (_ & Hdis & _). intros Hin.
    apply (Hdis k0); [now apply list_elem_of_In|]. apply list_elem_of_In. now left.
Qed.

Lemma map_fst_combine {A B} (l : list A) (l' : list B) :
  length l = length l' -> map fst (combine l l') = l.
Proof.
  revert l'. induction l as [|x l IH]; intros [|y l'] H; try discriminate; [reflexivity|].
  cbn [combine map fst]. f_equal. apply IH. now inversion H.
Qed.

(** X18. [ordered_load] keeps a mapping in the order of the text (lines
    62-72). For a text that is a mapping with string keys, its values
    written with plain scalars, it returns a mapping in which every key
    has the value given last for it in the text; and when no key comes
    twice, the mapping has the keys of the text, in the order of the text,
    each with its value. *)
Theorem ordered_load_keeps_order compose text keys nodes vs :
  compose text = inr (MappingNode tag_map (combine (map (ScalarNode tag_str) keys) nodes)) ->
  forallb plain_graph nodes = true ->
  Forall2 (fun n v => construct n = inr v) nodes vs ->
  length keys = length nodes ->
  exists d,
    Standalone.ordered_load compose text = inr (PDict d) /\
    (forall k, od_get k d = od_get k (rev (combine keys vs))) /\
    (NoDup keys -> d = combine keys vs).
Proof.
  intros Hc _ Hvs Hlen. exists (OrderedDict (combine keys vs)).
  split; [|split].
  - unfold Standalone.ordered_load. rewrite Hc. cbn [mbind res_bind construct].
    replace (String.eqb tag_map tag_map) with true by reflexivity.
    match goal with
    | |- @mbind _ _ _ _ _ (?loop _) = _ =>
        enough (Hloop : loop (combine (map (ScalarNode tag_str) keys) nodes)
                        = inr (combine keys vs)) by (rewrite Hloop; reflexivity)
    end.
    clear Hc. revert keys Hlen. induction Hvs as [|n v nodes vs Hn Hvs IH]; intros keys Hlen.
    + destruct keys; [reflexivity|discriminate].
    + destruct keys as [|k keys]; [discriminate|].
      cbn [map combine]. cbn [construct construct_scalar].
      replace (String.eqb tag_str tag_str) with true by reflexivity.
      cbn [mbind res_bind]. rewrite Hn. cbn [mbind res_bind as_key].
      rewrite IH by (now inversion Hlen). reflexivity.
  - intros k. unfold OrderedDict. rewrite OrderedDict_fold_get.
    now destruct (od_get k (rev (combine keys vs))).
  - intros Hnd. unfold OrderedDict. rewrite OrderedDict_fold_nodup; [reflexivity|].
    cbn [app]. rewrite map_fst_combine; [exact Hnd|].
    rewrite Hlen. exact (Forall2_length _ _ _ Hvs).
Qed.

(** The recipe of [echo], read back: [executable] before [test-cases]. *)
Lemma ordered_load_keeps_order_witness :
  exists d,
    Standalone.ordered_load Demo.compose Demo.recipe_text = inr (PDict d) /\
    (forall k, od_get k d = od_get k (rev (combine ["executable"; "test-cases"]
                                             [PStr "echo"; PDict Cases.recipe_cases]))) /\
    (NoDup ["executable"; "test-cases"] ->
     d = combine ["executable"; "test-cases"] [PStr "echo"; PDict Cases.recipe_cases]).
Proof.
  apply (ordered_load_keeps_order Demo.compose Demo.recipe_text ["executable"; "test-cases"]
           [Demo.str "echo";
            MappingNode tag_map
              [(Demo.str "hello",
                MappingNode tag_map
                  [(Demo.str "return-code", ScalarNode tag_int "0");
                   (Demo.str "argv", SequenceNode tag_seq [Demo.str "hello"]);
                   (Demo.str "stdout", Demo.str ("hello" ++ newline))])]]
           [PStr "echo"; PDict Cases.recipe_cases] eq_refl eq_refl
           ltac:(repeat constructor) eq_refl).
Defined.

Lemma value_induction (P : value -> Prop) :
  P PNone -> (forall b, P (PBool b)) -> (forall z, P (PInt z)) -> (forall s, P (PStr s)) ->
  (forall l, Forall P l -> P (PList l)) ->
  (forall d, P (PDict d)) ->
  forall v, P v.
Proof.
  intros HN HB HI HS HL HD. fix IH 1.
  intros [|b|z|s|l|d]; [exact HN|apply HB|apply HI|apply HS| |apply HD].
  apply HL. induction l as [|x l IHl]; constructor; [apply IH|exact IHl].
Qed.

Lemma to_int_round_trip z :
  DecimalString.NilZero.int_of_string (DecimalString.NilZero.string_of_int (Z.to_int z))
  = Some (Z.to_int z).
Proof.
  apply DecimalString.NilZero.isi; destruct z; cbn [Z.to_int]; try discriminate;
    intros [= H]; exact (DecimalPos.Unsigned.to_uint_nonnil _ H).
Qed.

Lemma construct_represent v :
  construct (represent v) =
  if dict_free v then inr v else raise (ConstructorError tag_ordered_dict).
Proof.
  induction v as [|b|z|s|l IH|d] using value_induction; try reflexivity.
  - now destruct b.
  - cbn [represent construct dict_free]. unfold construct_scalar.
    replace (String.eqb tag_int tag_str) with false by reflexivity.
    replace (String.eqb tag_int tag_null) with false by reflexivity.
    replace (String.eqb tag_int tag_bool) with false by reflexivity.
    replace (String.eqb tag_int tag_int) with true by reflexivity.
    rewrite to_int_round_trip. now rewrite DecimalZ.of_to.
  - cbn [represent construct dict_free].
    replace (String.eqb tag_seq tag_seq) with true by reflexivity.
    match goal with
    | |- @mbind _ _ _ _ _ (?loop _) = _ =>
        enough (Hloop : loop (map represent l) =
                        if forallb dict_free l then inr l
                        else raise (ConstructorError tag_ordered_dict))
          by (rewrite Hloop; now destruct (forallb dict_free l))
    end.
    induction IH as [|v l Hv _ IHl]; [reflexivity|].
    cbn [map forallb]. rewrite Hv.
    destruct (dict_free v); [|reflexivity].
    cbn [mbind res_bind andb]. rewrite IHl. now destruct (forallb dict_free l).
Qed.

(** X19. What comes back from the file (contest-gen.py, lines 206 and
    169). A value dumped by [yaml.dump] and read by
    [ordered_load(., yaml.SafeLoader)] comes back as it was when there is
    no mapping in it; when there is one, the load raises
    [ConstructorError] for the tag of [collections.OrderedDict]. The text
    layer is assumed to give back the graph that was emitted. *)
Theorem dump_then_ordered_load compose emit v :
  compose (Standalone.yaml_dump emit v) = inr (represent v) ->
  Standalone.ordered_load compose (Standalone.yaml_dump emit v) =
  if dict_free v then inr v else raise (ConstructorError tag_ordered_dict).
Proof.
  intros Hc. unfold Standalone.ordered_load. rewrite Hc. cbn [mbind res_bind].
  apply construct_represent.
Qed.

Lemma dump_then_ordered_load_witness :
  Standalone.ordered_load Cases.compose_items
    (Standalone.yaml_dump Cases.emit_items (PList [PStr "ping"; PInt 2]))
  = inr (PList [PStr "ping"; PInt 2]).
Proof.
  apply (dump_then_ordered_load Cases.compose_items Cases.emit_items
           (PList [PStr "ping"; PInt 2])).
  reflexivity.
Defined.

Lemma all_slashes_end s : truthy_str s = true -> all_slashes s = true -> ends_with_slash s = true.
Proof.
  induction s as [|c s IH]; [discriminate|]. intros _. cbn [all_slashes ends_with_slash].
  intros H. apply andb_prop in H as [Hc Hs].
  destruct s as [|c' s']; [exact Hc|]. now apply IH.
Qed.

Lemma rstrip_slash_nice r : nice r = true -> rstrip_slash r = r.
Proof.
  unfold nice. intros H. apply andb_prop in H as [Ht He]. apply negb_true_iff in He.
  induction r as [|c r IH]; [reflexivity|].
  cbn [rstrip_slash].
  destruct (all_slashes (String c r)) eqn:Ha.
  - rewrite (all_slashes_end (String c r) eq_refl Ha) in He. discriminate.
  - destruct r as [|c' r']; [reflexivity|]. f_equal. apply IH; [reflexivity|exact He].
Qed.

(** X20. A reference path that is a directory (line 144, 200). When the
    path computed for a listed file is a directory, [shutil.move] does not
    replace it: the file goes into it under its own name, and the path
    recorded as [base-file] is that of the directory, not of the file;
    when the directory has this name already, [shutil.Error] is raised and
    the file stays where it is. *)
Theorem move_into_directory fs p :
  enumerated fs p -> stat_path fs (Recorder.base_file_of p) = IsDir ->
  let inside := os_path_join (Recorder.base_file_of p) (snd (os_path_split p)) in
  (stat_path fs inside = Absent ->
   exists fs',
     shutil_move fs p (Recorder.base_file_of p) = inr fs' /\
     stat_path fs' p = Absent /\
     stat_path fs' inside = stat_path fs p /\
     stat_path fs' (Recorder.base_file_of p) = IsDir) /\
  (stat_path fs inside <> Absent ->
   shutil_move fs p (Recorder.base_file_of p) = raise (ShutilError inside)).
Proof.
  intros Hen Hdir. cbn zeta.
  pose proof (enumerated_stat _ _ Hen) as [c Hc].
  destruct (enumerated_split fs p Hen) as (names & f & Hn & Hf & Hpath & Hsp & Hb & Hsb).
  assert (Hnb : forallb valid_name (names ++ [("contest_" ++ f)%string]) = true)
    by (rewrite forallb_snoc, Hn; now apply valid_name_contest).
  assert (Hnp : forallb valid_name (names ++ [f]) = true)
    by (rewrite forallb_snoc, Hn; exact Hf).
  assert (Hbase : basename p = f).
  { unfold basename. rewrite rstrip_slash_nice by (rewrite Hpath; now apply nice_path_of).
    now rewrite Hsp. }
  rewrite Hsp. cbn [snd].
  assert (Hcin : components (os_path_join (Recorder.base_file_of p) f)
                 = (names ++ [("contest_" ++ f)%string]) ++ [f]).
  { rewrite Hb, components_join by (first [now apply nice_path_of|exact Hf]).
    now rewrite components_path_of. }
  assert (Hcb : components (Recorder.base_file_of p) = names ++ [("contest_" ++ f)%string])
    by (now rewrite Hb, components_path_of).
  assert (Hcp : components p = names ++ [f]) by (now rewrite Hpath, components_path_of).
  assert (Hisdir : os_path_isdir fs (Recorder.base_file_of p) = true).
  { destruct (os_path_isdir fs (Recorder.base_file_of p)) eqn:E; [reflexivity|].
    apply os_path_isdir_stat in E. contradiction. }
  unfold shutil_move. rewrite Hisdir, Hbase. split.
  - intros Habs. rewrite (proj2 (os_path_exists_stat _ _) Habs).
    destruct (os_rename_file fs p (os_path_join (Recorder.base_file_of p) f)
                names f (names ++ [("contest_" ++ f)%string]) f c Hcp Hcin)
      as (fs' & Hmv & Hst).
    + unfold stat_path in Hc. now rewrite Hcp in Hc.
    + unfold stat_path in Hdir. now rewrite Hcb in Hdir.
    + unfold stat_path in Habs. rewrite Hcin in Habs. rewrite Habs. discriminate.
    + intros E. apply (f_equal (@length string)) in E. rewrite !length_app in E.
      cbn [length] in E. lia.
    + exists fs'. split; [exact Hmv|]. unfold stat_path. rewrite !Hst, Hcin, Hcp, Hcb.
      assert (Hne1 : names ++ [f] <> (names ++ [("contest_" ++ f)%string]) ++ [f]).
      { intros E. apply (f_equal (@length string)) in E. rewrite !length_app in E.
        cbn [length] in E. lia. }
      assert (Hne2 : names ++ [("contest_" ++ f)%string]
                     <> (names ++ [("contest_" ++ f)%string]) ++ [f]).
      { intros E. apply (f_equal (@length string)) in E. rewrite !length_app in E.
        cbn [length] in E. lia. }
      assert (Hne3 : names ++ [("contest_" ++ f)%string] <> names ++ [f]).
      { intros E. apply app_inj_tail in E as [_ E].
        apply (f_equal String.length) in E. rewrite length_append in E.
        cbn [String.length] in E. lia. }
      rewrite (decide_False (P := names ++ [f] = _)) by exact Hne1.
      rewrite (decide_True (P := names ++ [f] = names ++ [f])) by reflexivity.
      rewrite (decide_True (P := (names ++ [("contest_" ++ f)%string]) ++ [f] = _))
        by reflexivity.
      rewrite (decide_False (P := names ++ [("contest_" ++ f)%string] = _ ++ [f]))
        by exact Hne2.
      rewrite (decide_False (P := names ++ [("contest_" ++ f)%string] = names ++ [f]))
        by exact Hne3.
      split; [reflexivity|]. split; [|unfold stat_path in Hdir; now rewrite Hcb in Hdir].
      unfold stat_path in Hc. now rewrite Hcp in Hc.
  - intros Hex.
    destruct (os_path_exists fs (os_path_join (Recorder.base_file_of p) f)) eqn:E;
      [reflexivity|].
    apply os_path_exists_stat in E. contradiction.
Qed.

(** [out.txt] beside a directory [contest_out.txt]. *)
Lemma move_into_directory_witness :
  exists fs',
    shutil_move (Dir [("out.txt", File "data"); ("contest_out.txt", Dir [])]) "./out.txt"
      (Recorder.base_file_of "./out.txt") = inr fs' /\
    stat_path fs' "./out.txt" = Absent /\
    stat_path fs' "./contest_out.txt/out.txt"
    = stat_path (Dir [("out.txt", File "data"); ("contest_out.txt", Dir [])]) "./out.txt" /\
    stat_path fs' (Recorder.base_file_of "./out.txt") = IsDir.
Proof.
  apply (proj1 (move_into_directory
                  (Dir [("out.txt", File "data"); ("contest_out.txt", Dir [])]) "./out.txt"
                  ltac:(exists [], "out.txt", "data"; repeat split; reflexivity)
                  eq_refl)).
  reflexivity.
Defined.

(** X21. Recordings accumulate (runner.py), when the YAML setup reads back
    the document it has written. After a first recording under [name1] has
    written its document, a later recording under another name that
    returns 0, and whose child left the recipe file as it was, writes a
    document that is the first with one test case more: the test case of
    [name1] is there, as it was, and the new one comes after it. *)
Theorem recordings_accumulate yaml_load yaml_dump env configuration name1 command1 fs doc1
    fs1 fs' env2 name2 command2 proc2 fs'' :
  Runner.document yaml_load env configuration name1 command1 fs = (inr (inr doc1), fs1) ->
  write_file fs1 configuration (yaml_dump doc1) = inr fs' ->
  yaml_load (yaml_dump doc1) = inr doc1 ->
  popen env2 command2 fs' = inr proc2 ->
  read_file (fs_after proc2) configuration = inr (yaml_dump doc1) ->
  Runner.record_test yaml_load yaml_dump env2 configuration name2 command2 fs'
    = (inr Ret0, fs'') ->
  exists d1 tcs1 tc1 doc2,
    doc1 = PDict d1 /\ od_get "test-cases" d1 = Some (PDict tcs1) /\
    od_get name1 tcs1 = Some (PDict tc1) /\
    read_file fs'' configuration = inr (yaml_dump doc2) /\
    appended d1 tcs1 name2 doc2.
Proof.
  intros Hb Hw Hl Hp2 Hr H. rewrite Runner_document_eq in Hb.
  rewrite Runner_record_test_eq in H.
  exact (record_accumulates yaml_load yaml_dump joined_stdin env configuration name1
           command1 fs doc1 fs1 fs' Hb Hw Hl env2 name2 command2 proc2 fs'' Hp2 Hr H).
Qed.

(** Scenario A under [a], then [writer] under [c]. *)
Lemma recordings_accumulate_witness :
  exists d1 tcs1 tc1 doc2,
    Demo.scenario_A_doc = PDict d1 /\ od_get "test-cases" d1 = Some (PDict tcs1) /\
    od_get "a" tcs1 = Some (PDict tc1) /\
    read_file Cases.recorded_a_c "recipe.yaml" = inr (Demo.yaml_dump doc2) /\
    appended d1 tcs1 "c" doc2.
Proof.
  apply (recordings_accumulate Cases.reload Demo.yaml_dump (Demo.env []) "recipe.yaml" "a"
           ["echo"; "hello"] Demo.empty_dir Demo.scenario_A_doc Demo.empty_dir
           Cases.recorded_a (Demo.env []) "c" ["writer"]
           (Demo.finished 2 "" (Demo.created Cases.recorded_a [("out.txt", "data")]))
           Cases.recorded_a_c eq_refl eq_refl eq_refl eq_refl eq_refl).
  vm_compute. reflexivity.
Defined.
